(** * bitcoin-indexer: a shallow embedding of the indexing engines

    The repository holds three overlapping indexers:

    - [TypeORM]: [DatabaseService] (services/DatabaseService.ts) and
      [TypeORMIndexerAdapter] on top of it; every repository call
      commits on its own, there is no block-level transaction.
    - [Sqlite]: [DatabaseConnection] (database/connection.ts, with the
      tables of database/schema.ts), and the two indexers written
      against it, [BitcoinIndexer] (services/indexer.ts) and
      [SimpleIndexer] (index-simple.ts), which wrap batches of blocks
      in BEGIN/COMMIT/ROLLBACK.

    Amounts that the code keeps as BigInt, or as Numbers that are
    integers by construction (results of [Math.round], sums of stored
    BIGINT columns), are [Z]; the decimal coin amount of an RPC output
    is a binary64 [float], as a JavaScript Number is. *)

From Stdlib Require Import ZArith Floats Lia.
From stdpp Require Import gmap strings list fin_maps pretty.

#[local] Open Scope Z_scope.
#[local] Set Warnings "-inexact-float".

(** ** JavaScript numbers *)

Module JS.

Definition number := float.

(** The integer a Number denotes when it is finite and has no
    fractional part; [None] for NaN, the infinities and fractions. *)
Definition integer_value (x : number) : option Z :=
  match Prim2SF x with
  | S754_zero _ => Some 0
  | S754_finite s m e =>
      let n := if s then Z.neg m else Z.pos m in
      if 0 <=? e then Some (n * 2 ^ e)
      else if Z.pos m mod 2 ^ (- e) =? 0 then Some (n / 2 ^ (- e))
      else None
  | S754_infinity _ | S754_nan => None
  end.

(** [Number.isInteger]. *)
Definition isInteger (x : number) : bool :=
  match integer_value x with Some _ => true | None => false end.

(** [Number.isFinite]. *)
Definition isFinite (x : number) : bool :=
  match Prim2SF x with
  | S754_zero _ | S754_finite _ _ _ => true
  | S754_infinity _ | S754_nan => false
  end.

(** The Number with integer value [z], for [|z| < 2^63]; the sign is
    taken from [neg] so that a rounded negative fraction is [-0]. *)
Definition of_integer (neg : bool) (z : Z) : number :=
  let a := of_uint63 (Uint63.of_Z (Z.abs z)) in
  if neg then (- a)%float else a.

(** [Math.round]: the nearest integer, ties towards +infinity. A
    Number with a fractional part has a negative exponent, hence
    magnitude below 2^53, and [floor (x + 1/2)] is computed exactly
    on its mantissa and exponent. *)
Definition Math_round (x : number) : number :=
  match Prim2SF x with
  | S754_finite s m e =>
      if 0 <=? e then x
      else
        let n := if s then Z.neg m else Z.pos m in
        of_integer s ((2 * n + 2 ^ (- e)) / 2 ^ (- e + 1))
  | _ => x
  end.

(** The integer value of the Number nearest to the integer [z], ties
    to even; [None] when that is an infinity. *)
Definition nearest (z : Z) : option Z :=
  let a := Z.abs z in
  if a <? 2 ^ 53 then Some z
  else
    let e := Z.log2 a - 52 in
    let q := a / 2 ^ e in
    let r := a mod 2 ^ e in
    let half := 2 ^ (e - 1) in
    let q' := if (half <? r) || ((r =? half) && Z.odd q) then q + 1 else q in
    let m := q' * 2 ^ e in
    if 2 ^ 1024 <=? m then None else Some (Z.sgn z * m).

(** What [Number.prototype.toString] writes for a Number whose value
    is the integer [x], [0 < x < 10^21]: the decimal with the fewest
    significant digits that reads back as [x], the one nearest to [x]
    when there are two (the even one at a tie). [e] is the number of
    trailing zeros tried. *)
Fixpoint shortest_from (fuel : nat) (e : Z) (x : Z) : Z :=
  match fuel with
  | O => x
  | S fuel' =>
      let p := 10 ^ e in
      let lo := x / p * p in
      let hi := lo + p in
      let reads_back c :=
        (0 <? c) && match nearest c with Some y => y =? x | None => false end in
      match reads_back lo, reads_back hi with
      | true, true =>
          if x - lo <? hi - x then lo
          else if hi - x <? x - lo then hi
          else if Z.even (lo / p) then lo else hi
      | true, false => lo
      | false, true => hi
      | false, false => shortest_from fuel' (e - 1) x
      end
  end.

Definition toString_integer (x : Z) : Z :=
  if x =? 0 then 0
  else Z.sgn x * shortest_from 21 20 (Z.abs x).

(** A string is truthy when it is present and not empty. *)
Definition truthy (o : option string) : bool :=
  match o with
  | Some s => negb (String.eqb s EmptyString)
  | None => false
  end.

(** [a || b] on optional strings. *)
Definition or_else (a b : option string) : option string :=
  if truthy a then a else b.

(** [n || null] on a number column: 0 and undefined both give null. *)
Definition nonzero_or_null (n : option Z) : option Z :=
  match n with
  | Some z => if z =? 0 then None else Some z
  | None => None
  end.

End JS.

(** ** PostgreSQL column types (entities/*.ts)

    What the storage engine of the TypeORM indexer does with a value
    written to a column of the given type. A string is the sequence of
    its characters, each of code below 256. *)

Module PG.

Fixpoint all_spaces (s : string) : bool :=
  match s with
  | EmptyString => true
  | String c s' => (Ascii.N_of_ascii c =? 32)%N && all_spaces s'
  end.

(** No text value holds the character of code 0. *)
Fixpoint text (s : string) : bool :=
  match s with
  | EmptyString => true
  | String c s' => negb (Ascii.N_of_ascii c =? 0)%N && text s'
  end.

(** [varchar(n)]: a longer string is refused, unless the characters
    in excess are all spaces, in which case it is cut to [n]
    characters. *)
Definition varchar (n : nat) (s : string) : option string :=
  if negb (text s) then None
  else if (String.length s <=? n)%nat then Some s
  else if all_spaces (String.substring n (String.length s - n) s)
       then Some (String.substring 0 n s)
       else None.

(** The same for a column that may be NULL. *)
Definition varchar_null (n : nat) (o : option string)
  : option (option string) :=
  match o with
  | Some s =>
      match varchar n s with
      | Some s' => Some (Some s')
      | None => None
      end
  | None => Some None
  end.


(** A value of a [numeric] column. *)
Inductive numeric : Type :=
| Num (z : Z)
| NaN.

(** [numeric(20,0)] applied to the decimal expansion of a Number,
    which is what the driver sends for [x.toString()]: NaN is stored
    as such, an infinity is refused, and a finite value is rounded to
    the nearest integer, ties away from zero, and refused when that
    has more than 20 digits. The expansion of a Number with a
    fractional part lies on the same side of every half-integer as
    the Number itself, so it is the Number that is rounded here; the
    expansion of an integer-valued Number is [JS.toString_integer]. *)
Definition numeric_20_0 (x : JS.number) : option numeric :=
  match Prim2SF x with
  | S754_nan => Some NaN
  | S754_infinity _ => None
  | S754_zero _ => Some (Num 0)
  | S754_finite s m e =>
      let sign := if s then -1 else 1 in
      if 0 <=? e then
        let v := Z.pos m * 2 ^ e in
        if 10 ^ 20 <=? v then None
        else Some (Num (sign * JS.toString_integer v))
      else
        let d := 2 ^ (- e) in
        Some (Num (sign * ((2 * Z.pos m + d) / (2 * d))))
  end.

End PG.

(** ** Errors and the state-and-exception monad

    An [async] method is a state transformer over the store that
    either returns or throws; the store survives a throw, which is what
    makes partial writes observable. *)

Inductive error : Type :=
| RpcError (code : Z)   (* rejected by the chain node, with its [error.code] *)
| RangeError            (* [BigInt] applied to a Number that is not an integer *)
| DbError.              (* the storage engine rejected a statement *)

Inductive result (A : Type) : Type :=
| Ok (a : A)
| Throw (e : error).
Arguments Ok {A} a.
Arguments Throw {A} e.

Definition M (S A : Type) : Type := S -> result A * S.

Definition ret {S A} (a : A) : M S A := fun s => (Ok a, s).

Definition throw {S A} (e : error) : M S A := fun s => (Throw e, s).

Definition bind {S A B} (m : M S A) (k : A -> M S B) : M S B :=
  fun s =>
    match m s with
    | (Ok a, s') => k a s'
    | (Throw e, s') => (Throw e, s')
    end.

(** [try { m } catch (error) { h error }] *)
Definition try_catch {S A} (m : M S A) (h : error -> M S A) : M S A :=
  fun s =>
    match m s with
    | (Ok a, s') => (Ok a, s')
    | (Throw e, s') => h e s'
    end.

Definition gets {S A} (f : S -> A) : M S A := fun s => (Ok (f s), s).

Definition modify {S} (f : S -> S) : M S unit := fun s => (Ok tt, f s).

(** An awaited call whose outcome does not depend on the store. *)
Definition lift {S A} (r : result A) : M S A := fun s => (r, s).

(** [BigInt(x)] of a Number: a RangeError unless [x] is an integer. *)
Definition BigInt (x : JS.number) : result Z :=
  match JS.integer_value x with
  | Some z => Ok z
  | None => Throw RangeError
  end.

Declare Scope js_scope.
Delimit Scope js_scope with js.
Notation "'let*' x ':=' m 'in' k" := (bind m (fun x => k))
  (at level 10, x pattern, m at level 200, k at level 200) : js_scope.
#[local] Open Scope js_scope.

(** [for (const x of l) { await body x }] *)
Fixpoint for_of {S A} (l : list A) (body : A -> M S unit) : M S unit :=
  match l with
  | [] => ret tt
  | x :: l' => let* _ := body x in for_of l' body
  end.

(** The same loop threading a local accumulator (a [let] variable
    updated in the body). *)
Fixpoint for_acc {S A B} (l : list A) (acc : B) (body : B -> A -> M S B)
  : M S B :=
  match l with
  | [] => ret acc
  | x :: l' => let* acc' := body acc x in for_acc l' acc' body
  end.

(** [for (let h = lo; h <= hi; h++)]: the loop variable is not
    assigned in any body, so the heights visited are fixed on entry. *)
Definition heights (lo hi : Z) : list Z := seqZ lo (hi - lo + 1).

(** ** What the chain node returns (types/bitcoin.ts)

    The fields that the methods only copy into a column (version,
    sizes, merkle root, nonce, bits, difficulty, chainwork, sequence,
    script assembly and type) are left out; whether the storage
    engine takes them is part of the environment of a run
    ([TypeORM.Env]). *)

Record ScriptPubKey := {
  spk_hex : string;
  spk_addresses : option (list string);
  spk_address : option string
}.

Record BitcoinOutput := {
  out_value : JS.number;
  out_n : Z;
  out_scriptPubKey : ScriptPubKey
}.

Record BitcoinInput := {
  in_txid : option string;
  in_vout : option Z;
  in_scriptSig_hex : option string;
  in_coinbase : option string
}.

Record BitcoinTransaction := {
  tx_txid : string;
  tx_hash : string;
  tx_vin : list BitcoinInput;
  tx_vout : list BitcoinOutput;
  tx_blockhash : option string;
  tx_blockheight : option Z;
  tx_blocktime : option Z;
  tx_confirmations : option Z;
  tx_fee : option Z
}.

Record BitcoinBlock := {
  blk_hash : string;
  blk_height : Z;
  blk_time : Z;
  blk_tx : list string;
  blk_previousblockhash : option string;
  blk_nextblockhash : option string;
  blk_confirmations : Z
}.

(** [tx.vin[0]?.coinbase] as a condition. *)
Definition vin0_coinbase (tx : BitcoinTransaction) : bool :=
  match tx_vin tx with
  | i :: _ => JS.truthy (in_coinbase i)
  | [] => false
  end.

(** [scriptPubKey?.addresses?.[0]] *)
Definition addresses0 (spk : ScriptPubKey) : option string :=
  match spk_addresses spk with
  | Some (a :: _) => Some a
  | _ => None
  end.

(** [input.txid && input.vout !== undefined] *)
Definition references_output (i : BitcoinInput) : option (string * Z) :=
  match in_txid i, in_vout i with
  | Some t, Some v => if JS.truthy (Some t) then Some (t, v) else None
  | _, _ => None
  end.

(** The chain node and the clock, as the indexers see them. *)
Record Rpc := {
  getBlockHash : Z -> result string;
  getBlock : string -> result BitcoinBlock;
  getTransaction : string -> result BitcoinTransaction
}.

(** [BitcoinRpcClient.getBlockByHeight] *)
Definition getBlockByHeight_rpc (rpc : Rpc) (h : Z) : result BitcoinBlock :=
  match getBlockHash rpc h with
  | Ok hash => getBlock rpc hash
  | Throw e => Throw e
  end.

(** ** The TypeORM indexer: DatabaseService and TypeORMIndexerAdapter *)

Module TypeORM.

(** *** Entities (entities/*.ts)

    The records keep the columns that the methods below read or
    write; of the [created_at] and [updated_at] of the entities,
    which no method reads, the model keeps the [updated_at] of a UTXO
    row. [numeric(20,0)] columns hold decimal strings that the code
    reads back with [BigInt]; they are [Z] here.
    [TransactionOutput.value] is a string too: in the entity that the
    code builds it is [(value * 100000000).toString()], the decimal
    expansion of a Number, and in a row of the table it is what the
    column made of that. *)

Inductive decimal_text : Type :=
| OfNumber (x : JS.number)    (* the decimal expansion of [x] *)
| OfColumn (v : PG.numeric).  (* the text of a numeric column *)

Record Block := {
  block_hash : string;
  block_height : Z;
  block_previousblockhash : option string;
  block_nextblockhash : option string;
  block_time : Z;
  block_nTx : Z
}.

Record Transaction := {
  txn_txid : string;
  txn_hash : string;
  txn_block_hash : option string;
  txn_block_height : option Z;
  txn_block_time : option Z;
  txn_is_coinbase : bool;
  txn_total_input_value : Z;
  txn_total_output_value : Z;
  txn_fee : Z
}.

Record TransactionInput := {
  txin_transaction_id : string;
  txin_input_index : Z;
  txin_previous_output_txid : option string;
  txin_previous_output_index : option Z;
  txin_script_sig : option string;
  txin_coinbase : option string
}.

Record TransactionOutput := {
  txout_transaction_id : string;
  txout_output_index : Z;
  txout_value : decimal_text;
  txout_script_pub_key : string;
  txout_address : option string;
  txout_is_spent : bool
}.

Record Address := {
  addr_balance : Z;
  addr_total_received : Z;
  addr_total_sent : Z;
  addr_transaction_count : Z;
  addr_utxo_count : Z
}.

Record UTXO := {
  utxo_address : string;
  utxo_value : Z;
  utxo_script_pub_key : string;
  utxo_block_height : Z;
  utxo_block_time : Z;
  utxo_is_spent : bool;
  utxo_spent_by_txid : option string;
  utxo_spent_by_input_index : option Z;
  utxo_spent_at_height : option Z;
  utxo_spent_at_time : option Z;
  utxo_updated_at : Z
}.

(** *** The store

    Every entity has a generated [id]; rows are found with
    [findOne({where})]. Tables without a unique index on the columns
    searched are lists in insertion order ([findOne] takes the first
    match); [addresses] (unique [address]) and [utxos] (unique
    [(transaction_id, output_index)]) are finite maps on that key,
    and their rows do not repeat it. *)

Record Store := {
  blocks : list Block;
  transactions : list Transaction;
  inputs : list TransactionInput;
  outputs : list TransactionOutput;
  addresses : gmap string Address;
  utxos : gmap (string * Z) UTXO;
  state : gmap string string
}.

Definition empty_store : Store :=
  {| blocks := []; transactions := []; inputs := []; outputs := [];
     addresses := ∅; utxos := ∅; state := ∅ |}.

Definition with_blocks (f : list Block -> list Block) (s : Store) : Store :=
  {| blocks := f (blocks s); transactions := transactions s;
     inputs := inputs s; outputs := outputs s; addresses := addresses s;
     utxos := utxos s; state := state s |}.

Definition with_transactions (f : list Transaction -> list Transaction)
  (s : Store) : Store :=
  {| blocks := blocks s; transactions := f (transactions s);
     inputs := inputs s; outputs := outputs s; addresses := addresses s;
     utxos := utxos s; state := state s |}.

Definition with_inputs (f : list TransactionInput -> list TransactionInput)
  (s : Store) : Store :=
  {| blocks := blocks s; transactions := transactions s;
     inputs := f (inputs s); outputs := outputs s; addresses := addresses s;
     utxos := utxos s; state := state s |}.

Definition with_outputs (f : list TransactionOutput -> list TransactionOutput)
  (s : Store) : Store :=
  {| blocks := blocks s; transactions := transactions s;
     inputs := inputs s; outputs := f (outputs s); addresses := addresses s;
     utxos := utxos s; state := state s |}.

Definition with_addresses (f : gmap string Address -> gmap string Address)
  (s : Store) : Store :=
  {| blocks := blocks s; transactions := transactions s;
     inputs := inputs s; outputs := outputs s; addresses := f (addresses s);
     utxos := utxos s; state := state s |}.

Definition with_utxos (f : gmap (string * Z) UTXO -> gmap (string * Z) UTXO)
  (s : Store) : Store :=
  {| blocks := blocks s; transactions := transactions s;
     inputs := inputs s; outputs := outputs s; addresses := addresses s;
     utxos := f (utxos s); state := state s |}.

Definition with_state (f : gmap string string -> gmap string string)
  (s : Store) : Store :=
  {| blocks := blocks s; transactions := transactions s;
     inputs := inputs s; outputs := outputs s; addresses := addresses s;
     utxos := utxos s; state := f (state s) |}.

(** The environment of one run: the chain node, the clock read by
    [Date.now()], what CURRENT_TIMESTAMP is for the storage engine
    (it is not advanced during the run), and the writes that the
    engine refuses. An address row is refused when the pooled
    connection is lost or a value does not fit its column. For a row
    of blocks, transactions, transaction_inputs and
    transaction_outputs the refusal stands for what the engine
    answers to the INSERT of the row built from the data given, as
    far as the types of its columns go: it covers the columns that
    the records above do not keep (a version, nonce, size, weight or
    locktime beyond int4, a merkle root or chainwork longer than 64
    characters, bits longer than 8, a script type longer than 20) and
    a hash, txid or address longer than 64. What depends on the rows
    already stored (unique indexes, foreign keys), and the columns
    whose type decides a property below (the coinbase of an input,
    the value of an output, the key of a state row), are spelled out
    in the methods. *)
Record Env := {
  rpc : Rpc;
  now : Z;
  timestamp : Z;
  address_write_fails : string -> bool;
  block_row_refused : BitcoinBlock -> bool;
  transaction_row_refused : BitcoinTransaction -> option Z -> option Z -> bool;
  input_row_refused : BitcoinInput -> string -> bool;
  output_row_refused : BitcoinOutput -> string -> bool
}.

Section DatabaseService.

Variable env : Env.

(** The [catch (error) { logger.error(...); throw error; }] that
    wraps most methods rethrows, so it does not appear below. *)

(** The INSERT fails when a value does not fit its column (the nonce
    of a block, an unsigned 32-bit number, often exceeds [int4]) or
    when another row holds the height. *)
Definition saveBlock (blockData : BitcoinBlock) : M Store Block :=
  let* existingBlock :=
    gets (fun s => find (fun b => String.eqb (block_hash b) (blk_hash blockData))
                     (blocks s)) in
  match existingBlock with
  | Some b => ret b
  | None =>
      let block :=
        {| block_hash := blk_hash blockData;
           block_height := blk_height blockData;
           block_previousblockhash :=
             JS.or_else (blk_previousblockhash blockData) None;
           block_nextblockhash :=
             JS.or_else (blk_nextblockhash blockData) None;
           block_time := blk_time blockData;
           block_nTx := Z.of_nat (length (blk_tx blockData)) |} in
      if block_row_refused env blockData then throw DbError
      else
        let* clash :=
          gets (fun s => find (fun b => block_height b =? blk_height blockData)
                           (blocks s)) in
        match clash with
        | Some _ => throw DbError   (* unique index on height *)
        | None =>
            let* _ := modify (with_blocks (fun l => l ++ [block])) in
            ret block
        end
  end.

Definition getBlockByHeight (height : Z) : M Store (option Block) :=
  gets (fun s => find (fun b => block_height b =? height) (blocks s)).

(** The INSERT fails when a value does not fit its column or when
    the block named by [txData.blockhash] has no row. *)
Definition saveTransaction (txData : BitcoinTransaction)
  (blockHeight blockTime : option Z) : M Store Transaction :=
  let* existingTx :=
    gets (fun s => find (fun t => String.eqb (txn_txid t) (tx_txid txData))
                     (transactions s)) in
  match existingTx with
  | Some t => ret t
  | None =>
      let transaction :=
        {| txn_txid := tx_txid txData;
           txn_hash := tx_hash txData;
           txn_block_hash := JS.or_else (tx_blockhash txData) None;
           txn_block_height := JS.nonzero_or_null blockHeight;
           txn_block_time := JS.nonzero_or_null blockTime;
           txn_is_coinbase := vin0_coinbase txData;
           txn_total_input_value := 0;
           txn_total_output_value := 0;
           txn_fee := 0 |} in
      if transaction_row_refused env txData blockHeight blockTime
      then throw DbError
      else
        (* block_hash references blocks.hash *)
        let* parent :=
          gets (fun s =>
                  match txn_block_hash transaction with
                  | Some h => existsb (fun b => String.eqb (block_hash b) h)
                                (blocks s)
                  | None => true
                  end) in
        if parent then
          let* _ := modify (with_transactions (fun l => l ++ [transaction])) in
          ret transaction
        else throw DbError
  end.

(** [transaction_id] references transactions.txid. *)
Definition has_transaction (txid : string) (s : Store) : bool :=
  existsb (fun t => String.eqb (txn_txid t) txid) (transactions s).

(** [BitcoinInput] declares no field [n], so [inputData.n || 0] is 0.
    [coinbase] is a [varchar(64)]: the INSERT fails for a coinbase
    script of more than 32 bytes, as it does when a value does not
    fit another column or the transaction has no row. *)
Definition saveTransactionInput (inputData : BitcoinInput)
  (transactionId : string) : M Store TransactionInput :=
  let* existingInput :=
    gets (fun s => find (fun i => String.eqb (txin_transaction_id i) transactionId
                                  && (txin_input_index i =? 0))
                     (inputs s)) in
  match existingInput with
  | Some i => ret i
  | None =>
      match PG.varchar_null 64 (in_coinbase inputData) with
      | None => throw DbError
      | Some coinbase =>
          let input :=
            {| txin_transaction_id := transactionId;
               txin_input_index := 0;
               txin_previous_output_txid := in_txid inputData;
               txin_previous_output_index := in_vout inputData;
               txin_script_sig := in_scriptSig_hex inputData;
               txin_coinbase := coinbase |} in
          if input_row_refused env inputData transactionId then throw DbError
          else
            let* parent := gets (has_transaction transactionId) in
            if parent then
              let* _ := modify (with_inputs (fun l => l ++ [input])) in
              ret input
            else throw DbError
      end
  end.

(** The row that the table keeps for an entity. *)
Definition stored_as (value : PG.numeric) (o : TransactionOutput)
  : TransactionOutput :=
  {| txout_transaction_id := txout_transaction_id o;
     txout_output_index := txout_output_index o;
     txout_value := OfColumn value;
     txout_script_pub_key := txout_script_pub_key o;
     txout_address := txout_address o;
     txout_is_spent := txout_is_spent o |}.

(** [value] is a [numeric(20,0)]; [save] returns the entity it was
    given, whose [value] is still the string the code wrote. The
    INSERT fails when the amount does not fit, when a value does not
    fit another column, and when the transaction has no row. *)
Definition saveTransactionOutput (outputData : BitcoinOutput)
  (transactionId : string) : M Store TransactionOutput :=
  let* existingOutput :=
    gets (fun s => find (fun o => String.eqb (txout_transaction_id o) transactionId
                                  && (txout_output_index o =? out_n outputData))
                     (outputs s)) in
  match existingOutput with
  | Some o => ret o
  | None =>
      let output :=
        {| txout_transaction_id := transactionId;
           txout_output_index := out_n outputData;
           txout_value := OfNumber (out_value outputData * 100000000)%float;
           txout_script_pub_key := spk_hex (out_scriptPubKey outputData);
           txout_address :=
             JS.or_else (spk_address (out_scriptPubKey outputData))
                        (addresses0 (out_scriptPubKey outputData));
           txout_is_spent := false |} in
      match PG.numeric_20_0 (out_value outputData * 100000000)%float with
      | None => throw DbError
      | Some value =>
          if output_row_refused env outputData transactionId then throw DbError
          else
            let* parent := gets (has_transaction transactionId) in
            if parent then
              let* _ :=
                modify (with_outputs (fun l => l ++ [stored_as value output])) in
              ret output
            else throw DbError
      end
  end.

(** [addressRepo.manager.transaction(cb)]: the writes of [cb] are
    kept when it returns and undone when it throws. *)
Definition transaction {A} (cb : M Store A) : M Store A :=
  fun s =>
    match cb s with
    | (Ok a, s') => (Ok a, s')
    | (Throw e, _) => (Throw e, s)
    end.

(** [addressRepo.save(address)] for the row of [addressStr]. *)
Definition addressRepo_save (addressStr : string) (address : Address)
  : M Store unit :=
  if address_write_fails env addressStr
  then throw DbError
  else modify (with_addresses (fun m => <[addressStr := address]> m)).

Definition new_address : Address :=
  {| addr_balance := 0;
     addr_total_received := 0; addr_total_sent := 0;
     addr_transaction_count := 0; addr_utxo_count := 0 |}.

Definition apply_change (address : Address) (balanceChange : Z)
  (isReceived : bool) : Address :=
  let currentBalance := addr_balance address in
  let currentReceived := addr_total_received address in
  let currentSent := addr_total_sent address in
  {| addr_balance :=
       if isReceived then currentBalance + balanceChange
       else currentBalance - balanceChange;
     addr_total_received :=
       if isReceived then currentReceived + balanceChange
       else currentReceived;
     addr_total_sent :=
       if isReceived then currentSent else currentSent + balanceChange;
     addr_transaction_count := addr_transaction_count address + 1;
     addr_utxo_count := addr_utxo_count address |}.

(** The [txid] argument is only logged. The outer [catch] logs and
    returns: "Don't throw - this is not critical for basic
    functionality". *)
Definition updateAddressBalance (addressStr : string) (balanceChange : Z)
  (isReceived : bool) : M Store unit :=
  try_catch
    (transaction
       (let* found := gets (fun s => addresses s !! addressStr) in
        let address :=
          match found with
          | Some a => a
          | None => new_address
          end in
        addressRepo_save addressStr
          (apply_change address balanceChange isReceived)))
    (fun _ => ret tt).

Definition saveUTXO (txid : string) (outputIndex : Z) (addressStr : string)
  (value : Z) (scriptPubKey : string) (blockHeight blockTime : Z)
  : M Store UTXO :=
  let* existingUTXO := gets (fun s => utxos s !! (txid, outputIndex)) in
  match existingUTXO with
  | Some u => ret u
  | None =>
      let utxo :=
        {| utxo_address := addressStr;
           utxo_value := value;
           utxo_script_pub_key := scriptPubKey;
           utxo_block_height := blockHeight;
           utxo_block_time := blockTime;
           utxo_is_spent := false;
           utxo_spent_by_txid := None;
           utxo_spent_by_input_index := None;
           utxo_spent_at_height := None;
           utxo_spent_at_time := None;
           utxo_updated_at := timestamp env |} in
      let* _ := modify (with_utxos (fun m => <[(txid, outputIndex) := utxo]> m)) in
      ret utxo
  end.

Definition mark_spent (spentByTxid : string) (spentByInputIndex : Z)
  (spentAtHeight : Z) (u : UTXO) : UTXO :=
  {| utxo_address := utxo_address u;
     utxo_value := utxo_value u;
     utxo_script_pub_key := utxo_script_pub_key u;
     utxo_block_height := utxo_block_height u;
     utxo_block_time := utxo_block_time u;
     utxo_is_spent := true;
     utxo_spent_by_txid := Some spentByTxid;
     utxo_spent_by_input_index := Some spentByInputIndex;
     utxo_spent_at_height := Some spentAtHeight;
     utxo_spent_at_time := Some (now env);
     utxo_updated_at := timestamp env |}.

(** [utxoRepo.update(criteria, fields)] touches the rows that match
    and is silent when none does; with the fields given it sets the
    [@UpdateDateColumn] of the entity. *)
Definition spendUTXO (txid : string) (outputIndex : Z) (spentByTxid : string)
  (spentByInputIndex : Z) (spentAtHeight : Z) : M Store unit :=
  modify (with_utxos
            (alter (mark_spent spentByTxid spentByInputIndex spentAtHeight)
                   (txid, outputIndex))).

Definition getUTXOByTxidAndIndex (txid : string) (outputIndex : Z)
  : M Store (option UTXO) :=
  gets (fun s => utxos s !! (txid, outputIndex)).

Definition getAddressInfo (addressStr : string) : M Store (option Address) :=
  gets (fun s => addresses s !! addressStr).

(** [utxoRepo.find({ where: { address, is_spent: false } })] *)
Definition getUTXOsByAddress (addressStr : string) : M Store (list UTXO) :=
  gets (fun s =>
          List.filter
            (fun u => String.eqb (utxo_address u) addressStr
                      && negb (utxo_is_spent u))
            (map_to_list (utxos s)).*2).

(** [key] is a [varchar(50)] with a unique index, [value] a [text].
    The row found is updated; a new row is inserted under the key as
    the column keeps it. The optional [description] is not modelled:
    the callers pass none or a constant. *)
Definition setState (key value : string) : M Store unit :=
  if negb (PG.text key && PG.text value) then throw DbError
  else
    let* found := gets (fun s => state s !! key) in
    match found with
    | Some _ => modify (with_state (fun m => <[key := value]> m))
    | None =>
        match PG.varchar 50 key with
        | None => throw DbError
        | Some k =>
            let* clash := gets (fun s => state s !! k) in
            match clash with
            | Some _ => throw DbError   (* unique index on key *)
            | None => modify (with_state (fun m => <[k := value]> m))
            end
        end
    end.

Definition setLastProcessedHeight (height : Z) : M Store unit :=
  setState "last_processed_height" (pretty height).

(** *** Maintenance: recounting balances from the UTXO table *)

Record Stats := {
  st_balance : Z;
  st_totalReceived : Z;
  st_totalSent : Z;
  st_utxoCount : Z;
  st_txCount : Z
}.

Definition zero_stats : Stats :=
  {| st_balance := 0; st_totalReceived := 0; st_totalSent := 0;
     st_utxoCount := 0; st_txCount := 0 |}.

(** [addressRepo.update(criteria, fields)] on the row of one address. *)
Definition addressRepo_update (addressStr : string) (f : Address -> Address)
  : M Store unit :=
  if address_write_fails env addressStr
  then throw DbError
  else modify (with_addresses (alter f addressStr)).

Definition reset_address (a : Address) : Address :=
  {| addr_balance := 0;
     addr_total_received := 0; addr_total_sent := 0;
     addr_transaction_count := 0; addr_utxo_count := 0 |}.

Definition set_stats (st : Stats) (a : Address) : Address :=
  {| addr_balance := st_balance st;
     addr_total_received := st_totalReceived st;
     addr_total_sent := st_totalSent st;
     addr_transaction_count := st_txCount st;
     addr_utxo_count := st_utxoCount st |}.

(** The bodies of the three loops over UTXO rows. [addressStats] is
    a JavaScript [Map]; [current] is the object stored in it, so
    the in-place [+=] of the second and third loop is an [alter]. *)
Definition add_received (stats : gmap string Stats) (u : UTXO)
  : gmap string Stats :=
  let current :=
    match stats !! utxo_address u with
    | Some c => c
    | None => zero_stats
    end in
  <[utxo_address u :=
      {| st_balance := st_balance current;
         st_totalReceived := st_totalReceived current + utxo_value u;
         st_totalSent := st_totalSent current;
         st_utxoCount := st_utxoCount current;
         st_txCount := st_txCount current + 1 |}]> stats.

Definition add_sent (stats : gmap string Stats) (u : UTXO)
  : gmap string Stats :=
  alter (fun current =>
           {| st_balance := st_balance current;
              st_totalReceived := st_totalReceived current;
              st_totalSent := st_totalSent current + utxo_value u;
              st_utxoCount := st_utxoCount current;
              st_txCount := st_txCount current |})
        (utxo_address u) stats.

Definition add_balance (stats : gmap string Stats) (u : UTXO)
  : gmap string Stats :=
  alter (fun current =>
           {| st_balance := st_balance current + utxo_value u;
              st_totalReceived := st_totalReceived current;
              st_totalSent := st_totalSent current;
              st_utxoCount := st_utxoCount current + 1;
              st_txCount := st_txCount current |})
        (utxo_address u) stats.

Definition addressStats_of (allUtxos : list UTXO) : gmap string Stats :=
  let spentUtxos := List.filter utxo_is_spent allUtxos in
  let unspentUtxos := List.filter (fun u => negb (utxo_is_spent u)) allUtxos in
  fold_left add_balance unspentUtxos
    (fold_left add_sent spentUtxos
       (fold_left add_received allUtxos ∅)).

(** The three [utxoRepo.find] calls read the same table, no write
    lies between them. Rows and [Map] entries are visited in the
    order of [map_to_list]; the statements of the last loop touch
    pairwise different rows. The outer [catch] logs and returns. *)
Definition recalculateAddressBalances : M Store unit :=
  try_catch
    (let* allAddresses := gets (fun s => (map_to_list (addresses s)).*1) in
     let* _ :=
       for_of allAddresses
         (fun addr => addressRepo_update addr reset_address) in
     let* allUtxos := gets (fun s => (map_to_list (utxos s)).*2) in
     for_of (map_to_list (addressStats_of allUtxos))
       (fun '(address, stats) => addressRepo_update address (set_stats stats)))
    (fun _ => ret tt).

End DatabaseService.

(** *** TypeORMIndexerAdapter *)

Section Adapter.

Variable env : Env.

(** Only called under [input.txid && input.vout !== undefined]; the
    last branch is not reached. The [catch] logs and returns:
    "Don't throw - continue processing other inputs". *)
Definition processInputSpending (input : BitcoinInput) (spendingTxid : string)
  (blockHeight : Z) : M Store unit :=
  try_catch
    (match in_txid input, in_vout input with
     | Some previousTxid, Some previousVout =>
         let* utxo := getUTXOByTxidAndIndex previousTxid previousVout in
         match utxo with
         | Some u =>
             if utxo_is_spent u then ret tt
             else
               let* _ := spendUTXO env previousTxid previousVout
                           spendingTxid 0 blockHeight in
               updateAddressBalance env (utxo_address u) (utxo_value u) false
         | None => ret tt
         end
     | _, _ => ret tt
     end)
    (fun _ => ret tt).

(** The body of [if (address) { ... }] in the output loops. *)
Definition credit_output (txid : string) (blockHeight blockTime : Z)
  (address : option string) (output : BitcoinOutput) : M Store unit :=
  match address with
  | Some a =>
      if JS.truthy (Some a) then
        let* valueSatoshis :=
          lift (BigInt (JS.Math_round (out_value output * 100000000)%float)) in
        let* _ := updateAddressBalance env a valueSatoshis true in
        let* _ := saveUTXO env txid (out_n output) a valueSatoshis
                    (spk_hex (out_scriptPubKey output)) blockHeight blockTime in
        ret tt
      else ret tt
  | None => ret tt
  end.

(** One turn of an output loop; the two loops differ in the
    expression that picks [address]. *)
Definition process_output (txid : string) (blockHeight blockTime : Z)
  (address : option string) (output : BitcoinOutput) : M Store unit :=
  let* _ := saveTransactionOutput env output txid in
  credit_output txid blockHeight blockTime address output.

Definition processTransaction (txid : string) (blockHeight blockTime : Z)
  : M Store unit :=
  let* txData := lift (getTransaction (rpc env) txid) in
  let* _ := saveTransaction env txData (Some blockHeight) (Some blockTime) in
  let* _ :=
    for_of (tx_vin txData)
      (fun input =>
         let* _ := saveTransactionInput env input txid in
         match references_output input with
         | Some _ => processInputSpending input txid blockHeight
         | None => ret tt
         end) in
  for_of (tx_vout txData)
    (fun output =>
       process_output txid blockHeight blockTime
         (JS.or_else (spk_address (out_scriptPubKey output))
                     (addresses0 (out_scriptPubKey output)))
         output).

(** The descriptor built for the genesis coinbase. *)
Definition genesisTx (txid : string) : BitcoinTransaction :=
  {| tx_txid := txid;
     tx_hash := txid;
     tx_vin :=
       [ {| in_txid := None; in_vout := None; in_scriptSig_hex := None;
            in_coinbase :=
              Some "04ffff001d0104455468652054696d65732030332f4a616e2f32303039204368616e63656c6c6f72206f6e206272696e6b206f66207365636f6e64206261696c6f757420666f722062616e6b73" |} ];
     tx_vout :=
       [ {| out_value := 50.0%float;
            out_n := 0;
            out_scriptPubKey :=
              {| spk_hex := "4104678afdb0fe5548271967f1a67130b7105cd6a828e03909a67962e0ea1f61deb649f6bc3f4cef38c4f35504e51ec112de5c384df7ba0b8d578a4c702b6bf11d5fac";
                 spk_addresses := Some ["1A1zP1eP5QGefi2DMPTfTL5SLmv7DivfNa"];
                 spk_address := None |} |} ];
     tx_blockhash := None;
     tx_blockheight := None;
     tx_blocktime := None;
     tx_confirmations := None;
     tx_fee := None |}.

Definition processGenesisTransaction (txid : string)
  (blockHeight blockTime : Z) : M Store unit :=
  let* _ :=
    saveTransaction env (genesisTx txid) (Some blockHeight) (Some blockTime) in
  for_of (tx_vout (genesisTx txid))
    (fun output =>
       process_output txid blockHeight blockTime
         (addresses0 (out_scriptPubKey output)) output).

(** [error.code === -5]: an error of the chain node carries a number;
    the code of a storage error is a string and a RangeError has
    none. *)
Definition has_code (e : error) (c : Z) : bool :=
  match e with
  | RpcError code => code =? c
  | _ => false
  end.

Definition syncBlocks (fromHeight toHeight : Z) : M Store unit :=
  for_of (heights fromHeight toHeight)
    (fun height =>
       let* existingBlock := getBlockByHeight height in
       match existingBlock with
       | Some _ => setLastProcessedHeight height
       | None =>
           let* blockHash := lift (getBlockHash (rpc env) height) in
           let* blockData := lift (getBlock (rpc env) blockHash) in
           let* _ := saveBlock env blockData in
           let* _ :=
             for_of (blk_tx blockData)
               (fun txid =>
                  try_catch
                    (processTransaction txid height (blk_time blockData))
                    (fun error =>
                       if has_code error (-5) && (height =? 0)
                       then processGenesisTransaction txid height
                              (blk_time blockData)
                       else ret tt)) in
           setLastProcessedHeight height
       end).

End Adapter.

End TypeORM.

(** ** The SQLite indexers: DatabaseConnection, BitcoinIndexer, SimpleIndexer *)

Module Sqlite.

(** *** Tables (database/schema.ts)

    Each table is a finite map on its PRIMARY KEY or UNIQUE columns,
    which is what INSERT OR REPLACE and INSERT OR IGNORE resolve
    against. Numbers bound to BIGINT and INTEGER columns are integers
    by construction and are [Z]. Of the columns [created_at] and
    [updated_at], which no statement reads, the model keeps
    [transaction_outputs.updated_at]; [clock] is what
    CURRENT_TIMESTAMP gives to the statements run on the tables. *)

Record BlockRow := {
  b_height : Z;
  b_timestamp : Z;
  b_tx_count : Z;
  b_previous_block_hash : option string;
  b_next_block_hash : option string;
  b_confirmations : Z
}.

Record TransactionRow := {
  t_hash : string;
  t_block_hash : option string;
  t_block_height : option Z;
  t_block_time : option Z;
  t_confirmations : Z;
  t_fee : option Z
}.

Record InputRow := {
  i_script_sig : option string;
  i_prev_txid : option string;
  i_prev_vout : option Z;
  i_prev_value : option Z;
  i_prev_address : option string
}.

Record OutputRow := {
  o_value : Z;
  o_script_pub_key : string;
  o_address : option string;
  o_spent_txid : option string;
  o_spent_vout : option Z;
  o_is_spent : bool;
  o_updated_at : Z
}.

Record AddressRow := {
  a_received_count : Z;
  a_sent_count : Z;
  a_balance : Z;
  a_total_received : Z;
  a_total_sent : Z;
  a_first_seen_block : option Z;
  a_last_seen_block : option Z
}.

Record UtxoRow := {
  u_address : string;
  u_value : Z;
  u_script_pub_key : string;
  u_block_height : Z;
  u_is_coinbase : bool
}.

Record Tables := {
  blocks : gmap string BlockRow;                      (* hash *)
  transactions : gmap string TransactionRow;          (* txid *)
  transaction_inputs : gmap (string * Z) InputRow;    (* txid, vout *)
  transaction_outputs : gmap (string * Z) OutputRow;  (* txid, vout *)
  addresses : gmap string AddressRow;                 (* address *)
  utxos : gmap (string * Z) UtxoRow;                  (* txid, vout *)
  indexer_state : gmap string string;                 (* key *)
  clock : Z
}.

Definition empty_tables : Tables :=
  {| blocks := ∅; transactions := ∅; transaction_inputs := ∅;
     transaction_outputs := ∅; addresses := ∅; utxos := ∅;
     indexer_state := ∅; clock := 0 |}.

(** The connection: the tables as the statements of this connection
    see them, and, while a transaction is open, the tables as they
    were at BEGIN (what ROLLBACK restores and other readers see). *)
Record Db := {
  tables : Tables;
  snapshot : option Tables
}.

Definition committed (db : Db) : Tables :=
  match snapshot db with
  | Some t => t
  | None => tables db
  end.

Definition open (t : Tables) : Db := {| tables := t; snapshot := None |}.

Definition on_tables (f : Tables -> Tables) (db : Db) : Db :=
  {| tables := f (tables db); snapshot := snapshot db |}.

Definition with_blocks f (t : Tables) : Tables :=
  {| blocks := f (blocks t); transactions := transactions t;
     transaction_inputs := transaction_inputs t;
     transaction_outputs := transaction_outputs t;
     addresses := addresses t; utxos := utxos t;
     indexer_state := indexer_state t; clock := clock t |}.

Definition with_transactions f (t : Tables) : Tables :=
  {| blocks := blocks t; transactions := f (transactions t);
     transaction_inputs := transaction_inputs t;
     transaction_outputs := transaction_outputs t;
     addresses := addresses t; utxos := utxos t;
     indexer_state := indexer_state t; clock := clock t |}.

Definition with_inputs f (t : Tables) : Tables :=
  {| blocks := blocks t; transactions := transactions t;
     transaction_inputs := f (transaction_inputs t);
     transaction_outputs := transaction_outputs t;
     addresses := addresses t; utxos := utxos t;
     indexer_state := indexer_state t; clock := clock t |}.

Definition with_outputs f (t : Tables) : Tables :=
  {| blocks := blocks t; transactions := transactions t;
     transaction_inputs := transaction_inputs t;
     transaction_outputs := f (transaction_outputs t);
     addresses := addresses t; utxos := utxos t;
     indexer_state := indexer_state t; clock := clock t |}.

Definition with_addresses f (t : Tables) : Tables :=
  {| blocks := blocks t; transactions := transactions t;
     transaction_inputs := transaction_inputs t;
     transaction_outputs := transaction_outputs t;
     addresses := f (addresses t); utxos := utxos t;
     indexer_state := indexer_state t; clock := clock t |}.

Definition with_utxos f (t : Tables) : Tables :=
  {| blocks := blocks t; transactions := transactions t;
     transaction_inputs := transaction_inputs t;
     transaction_outputs := transaction_outputs t;
     addresses := addresses t; utxos := f (utxos t);
     indexer_state := indexer_state t; clock := clock t |}.

Definition with_indexer_state f (t : Tables) : Tables :=
  {| blocks := blocks t; transactions := transactions t;
     transaction_inputs := transaction_inputs t;
     transaction_outputs := transaction_outputs t;
     addresses := addresses t; utxos := utxos t;
     indexer_state := f (indexer_state t); clock := clock t |}.

(** *** DatabaseConnection: transactions *)

(** BEGIN inside a transaction is an error of the engine. *)
Definition beginTransaction : M Db unit :=
  fun db =>
    match snapshot db with
    | Some _ => (Throw DbError, db)
    | None => (Ok tt, {| tables := tables db; snapshot := Some (tables db) |})
    end.

Definition commit : M Db unit :=
  fun db =>
    match snapshot db with
    | Some _ => (Ok tt, {| tables := tables db; snapshot := None |})
    | None => (Throw DbError, db)
    end.

Definition rollback : M Db unit :=
  fun db =>
    match snapshot db with
    | Some t => (Ok tt, {| tables := t; snapshot := None |})
    | None => (Throw DbError, db)
    end.

(** *** Statements

    [connection.ts] turns on [PRAGMA foreign_keys], so a statement
    that leaves a child row without its parent fails as a whole. The
    keys declared are transactions.block_hash -> blocks,
    transaction_inputs.txid and transaction_outputs.txid ->
    transactions, utxos.txid -> transactions and utxos.address ->
    addresses; they carry no ON DELETE action, so a parent row may be
    replaced under its own key. *)

Definition has_key `{Countable K} {V} (m : gmap K V) (k : K) : bool :=
  match m !! k with Some _ => true | None => false end.

Definition statement (check : Tables -> bool) (f : Tables -> Tables)
  : M Db unit :=
  fun db =>
    if check (tables db) then (Ok tt, on_tables f db) else (Throw DbError, db).

(** INSERT OR REPLACE INTO blocks: rows with the same hash or the
    same height give way; a displaced block of another hash must not
    leave transactions behind. *)
Definition replace_block (hash : string) (row : BlockRow)
  (m : gmap string BlockRow) : gmap string BlockRow :=
  <[hash := row]>
    (filter (fun kv => negb (b_height kv.2 =? b_height row) = true) m).

Definition insert_or_replace_block (hash : string) (row : BlockRow)
  : M Db unit :=
  statement
    (fun t =>
       forallb
         (fun kt =>
            match t_block_hash kt.2 with
            | Some h => has_key (replace_block hash row (blocks t)) h
            | None => true
            end)
         (map_to_list (transactions t)))
    (with_blocks (replace_block hash row)).

Definition insert_or_replace_transaction (txid : string) (row : TransactionRow)
  : M Db unit :=
  statement
    (fun t =>
       match t_block_hash row with
       | Some h => has_key (blocks t) h
       | None => true
       end)
    (with_transactions (fun m => <[txid := row]> m)).

Definition insert_or_replace_input (txid : string) (vout : Z) (row : InputRow)
  : M Db unit :=
  statement (fun t => has_key (transactions t) txid)
    (with_inputs (fun m => <[(txid, vout) := row]> m)).

(** The columns that the INSERT does not name take their defaults,
    [updated_at] the time of the statement: [row] is the row as a
    function of that time. *)
Definition insert_or_replace_output (txid : string) (vout : Z)
  (row : Z -> OutputRow) : M Db unit :=
  statement (fun t => has_key (transactions t) txid)
    (fun t => with_outputs (fun m => <[(txid, vout) := row (clock t)]> m) t).

Definition insert_or_replace_utxo (txid : string) (vout : Z) (row : UtxoRow)
  : M Db unit :=
  statement
    (fun t => has_key (transactions t) txid && has_key (addresses t) (u_address row))
    (with_utxos (fun m => <[(txid, vout) := row]> m)).

(** A Number bound to a BIGINT NOT NULL column. NaN is bound as NULL
    and refused. An infinity, which SQLite would keep as a REAL, has
    no place in this model of the column, where it is refused as
    well: what is proved of a run that returns is proved for finite
    amounts. *)
Definition bind_integer (x : JS.number) : M Db Z :=
  match JS.integer_value x with
  | Some z => ret z
  | None => throw DbError
  end.

(** *** Private methods that BitcoinIndexer and SimpleIndexer both
    define, with the same text *)

Definition extractAddress (output : BitcoinOutput) : option string :=
  if JS.truthy (spk_address (out_scriptPubKey output))
  then spk_address (out_scriptPubKey output)
  else
    match spk_addresses (out_scriptPubKey output) with
    | Some (a :: _) => Some a
    | _ => None
    end.

Definition getPreviousOutput (txid : string) (vout : Z)
  : M Db (option (Z * option string)) :=
  gets (fun db =>
          match transaction_outputs (tables db) !! (txid, vout) with
          | Some o => Some (o_value o, o_address o)
          | None => None
          end).

(** [SET is_spent = true, spent_txid = ?, spent_vout = ?,
    updated_at = CURRENT_TIMESTAMP] *)
Definition set_spent (now : Z) (spentTxid : string) (spentVout : Z)
  (o : OutputRow) : OutputRow :=
  {| o_value := o_value o; o_script_pub_key := o_script_pub_key o;
     o_address := o_address o; o_spent_txid := Some spentTxid;
     o_spent_vout := Some spentVout; o_is_spent := true;
     o_updated_at := now |}.

Definition markOutputAsSpent (txid : string) (vout : Z) (spentTxid : string)
  (spentVout : Z) : M Db unit :=
  let* _ :=
    statement (fun _ => true)
      (fun t =>
         with_outputs
           (alter (set_spent (clock t) spentTxid spentVout) (txid, vout)) t) in
  statement (fun _ => true) (with_utxos (delete (txid, vout))).

Definition addUTXO (txid : string) (vout : Z) (row : UtxoRow) : M Db unit :=
  insert_or_replace_utxo txid vout row.

Definition fresh_address (blockHeight : option Z) : AddressRow :=
  {| a_received_count := 0; a_sent_count := 0; a_balance := 0;
     a_total_received := 0; a_total_sent := 0;
     a_first_seen_block := blockHeight; a_last_seen_block := None |}.

(** COALESCE(?, last_seen_block) *)
Definition coalesce (a b : option Z) : option Z :=
  match a with Some _ => a | None => b end.

(** The SET clauses of the two UPDATE statements. The sums are those
    of the integers: that is what SQLite computes on integers, and
    also when the driver has bound [value] as a double (it does for a
    Number beyond 32 bits) as long as the operands and the result are
    below 2^53 in magnitude. *)
Definition receive (value : Z) (blockHeight : option Z) (a : AddressRow)
  : AddressRow :=
  {| a_received_count := a_received_count a + 1;
     a_sent_count := a_sent_count a;
     a_balance := a_balance a + value;
     a_total_received := a_total_received a + value;
     a_total_sent := a_total_sent a;
     a_first_seen_block := a_first_seen_block a;
     a_last_seen_block := coalesce blockHeight (a_last_seen_block a) |}.

Definition send (value : Z) (blockHeight : option Z) (a : AddressRow)
  : AddressRow :=
  {| a_received_count := a_received_count a;
     a_sent_count := a_sent_count a + 1;
     a_balance := a_balance a - value;
     a_total_received := a_total_received a;
     a_total_sent := a_total_sent a + value;
     a_first_seen_block := a_first_seen_block a;
     a_last_seen_block := coalesce blockHeight (a_last_seen_block a) |}.

Definition updateAddressInfo (address : string) (value : Z) (isReceived : bool)
  (blockHeight : option Z) : M Db unit :=
  let* _ :=
    statement (fun _ => true)
      (with_addresses
         (fun m =>
            match m !! address with
            | Some _ => m
            | None => <[address := fresh_address blockHeight]> m
            end)) in
  if isReceived
  then statement (fun _ => true)
         (with_addresses (alter (receive value blockHeight) address))
  else statement (fun _ => true)
         (with_addresses (alter (send value blockHeight) address)).

Definition setIndexerState (key value : string) : M Db unit :=
  statement (fun _ => true) (with_indexer_state (fun m => <[key := value]> m)).

(** [for (let i = 0; i < l.length; i++)] with [l[i]] *)
Fixpoint enumerate_from {A} (i : Z) (l : list A) : list (Z * A) :=
  match l with
  | [] => []
  | x :: l' => (i, x) :: enumerate_from (i + 1) l'
  end.

(** The transaction row that [indexBlock] falls back to:
    [1, 0, 0, 0, 0, null] for version, sizes, locktime and fee. *)
Definition basic_transaction (txid : string) (block : BitcoinBlock)
  : TransactionRow :=
  {| t_hash := txid; t_block_hash := Some (blk_hash block);
     t_block_height := Some (blk_height block);
     t_block_time := Some (blk_time block);
     t_confirmations := blk_confirmations block; t_fee := None |}.

Definition block_row (block : BitcoinBlock) : BlockRow :=
  {| b_height := blk_height block; b_timestamp := blk_time block;
     b_tx_count := Z.of_nat (length (blk_tx block));
     b_previous_block_hash := JS.or_else (blk_previousblockhash block) None;
     b_next_block_hash := JS.or_else (blk_nextblockhash block) None;
     b_confirmations := blk_confirmations block |}.

(** [indexBlock] overwrites the block fields of the transaction it
    fetched before passing it on. *)
Definition in_block (block : BitcoinBlock) (tx : BitcoinTransaction)
  : BitcoinTransaction :=
  {| tx_txid := tx_txid tx; tx_hash := tx_hash tx; tx_vin := tx_vin tx;
     tx_vout := tx_vout tx; tx_blockhash := Some (blk_hash block);
     tx_blockheight := Some (blk_height block);
     tx_blocktime := Some (blk_time block);
     tx_confirmations := Some (blk_confirmations block);
     tx_fee := tx_fee tx |}.

Definition transaction_row (tx : BitcoinTransaction) : TransactionRow :=
  {| t_hash := tx_hash tx;
     t_block_hash := JS.or_else (tx_blockhash tx) None;
     t_block_height := JS.nonzero_or_null (tx_blockheight tx);
     t_block_time := JS.nonzero_or_null (tx_blocktime tx);
     t_confirmations :=
       match tx_confirmations tx with Some c => c | None => 0 end;
     t_fee := JS.nonzero_or_null (tx_fee tx) |}.

Definition set_fee (fee : Z) (t : TransactionRow) : TransactionRow :=
  {| t_hash := t_hash t; t_block_hash := t_block_hash t;
     t_block_height := t_block_height t; t_block_time := t_block_time t;
     t_confirmations := t_confirmations t; t_fee := Some fee |}.

(** *** syncBlocks, which both classes define with the same text

    [height += batchSize] need not advance, so the outer loop takes
    fuel; [None] is a run that has not finished within it. *)
Section SyncBlocks.

Variable rpc : Rpc.
Variable indexBlock : BitcoinBlock -> M Db unit.
Variable batchSize : Z.

Definition index_range (height endHeight : Z) : M Db unit :=
  for_of (heights height endHeight)
    (fun blockHeight =>
       let* block := lift (getBlockByHeight_rpc rpc blockHeight) in
       indexBlock block).

Fixpoint syncBlocks_from (fuel : nat) (height toHeight : Z) (db : Db)
  : option (result unit * Db) :=
  if height <=? toHeight then
    match fuel with
    | O => None
    | S fuel' =>
        let endHeight := Z.min (height + batchSize - 1) toHeight in
        match beginTransaction db with
        | (Throw e, db1) => Some (Throw e, db1)
        | (Ok _, db1) =>
            match (let* _ := index_range height endHeight in commit) db1 with
            | (Ok _, db2) =>
                syncBlocks_from fuel' (height + batchSize) toHeight db2
            | (Throw e, db2) =>
                match rollback db2 with
                | (Ok _, db3) => Some (Throw e, db3)
                | (Throw e', db3) => Some (Throw e', db3)
                end
            end
        end
    end
  else Some (Ok tt, db).

Definition syncBlocks (fuel : nat) (fromHeight toHeight : Z)
  : Db -> option (result unit * Db) :=
  syncBlocks_from fuel fromHeight toHeight.

End SyncBlocks.

End Sqlite.

(** *** BitcoinIndexer (services/indexer.ts) *)

Module BitcoinIndexer.
Import Sqlite.

Section Indexer.

Variable rpc : Rpc.
Variable batchSize : Z.

(** The body of the loop over [tx.vin]; [totalInput] is the
    running sum. *)
Definition index_input (tx : BitcoinTransaction) (totalInput : Z)
  (entry : Z * BitcoinInput) : M Db Z :=
  let '(i, input) := entry in
  if JS.truthy (in_coinbase input) then
    let* _ :=
      insert_or_replace_input (tx_txid tx) i
        {| i_script_sig := in_coinbase input; i_prev_txid := None;
           i_prev_vout := None; i_prev_value := None;
           i_prev_address := None |} in
    ret totalInput
  else
    match references_output input with
    | Some (prev_txid, prev_vout) =>
        let* prevOutput := getPreviousOutput prev_txid prev_vout in
        let* _ :=
          insert_or_replace_input (tx_txid tx) i
            {| i_script_sig := JS.or_else (in_scriptSig_hex input) None;
               i_prev_txid := Some prev_txid;
               i_prev_vout := Some prev_vout;
               i_prev_value := JS.nonzero_or_null (fst <$> prevOutput);
               i_prev_address := JS.or_else (prevOutput ≫= snd) None |} in
        let* _ := markOutputAsSpent prev_txid prev_vout (tx_txid tx) i in
        match JS.nonzero_or_null (fst <$> prevOutput) with
        | Some value => ret (totalInput + value)
        | None => ret totalInput
        end
    | None => ret totalInput
    end.

(** The body of the loop over [tx.vout]. *)
Definition index_output (tx : BitcoinTransaction) (totalOutput : Z)
  (output : BitcoinOutput) : M Db Z :=
  let address := extractAddress output in
  let* valueSatoshis :=
    bind_integer (JS.Math_round (out_value output * 100000000)%float) in
  let* _ :=
    insert_or_replace_output (tx_txid tx) (out_n output)
      (fun now =>
         {| o_value := valueSatoshis;
            o_script_pub_key := spk_hex (out_scriptPubKey output);
            o_address := address; o_spent_txid := None;
            o_spent_vout := None; o_is_spent := false;
            o_updated_at := now |}) in
  let* _ :=
    match address with
    | Some a =>
        if JS.truthy address
           && (negb (vin0_coinbase tx)
               || (100 <=? match tx_confirmations tx with
                           | Some c => c
                           | None => 0
                           end))
        then
          addUTXO (tx_txid tx) (out_n output)
            {| u_address := a; u_value := valueSatoshis;
               u_script_pub_key := spk_hex (out_scriptPubKey output);
               u_block_height :=
                 match tx_blockheight tx with Some h => h | None => 0 end;
               u_is_coinbase := vin0_coinbase tx |}
        else ret tt
    | None => ret tt
    end in
  let* _ :=
    match address with
    | Some a =>
        if JS.truthy address
        then updateAddressInfo a valueSatoshis true (tx_blockheight tx)
        else ret tt
    | None => ret tt
    end in
  ret (totalOutput + valueSatoshis).

(** The closing [if (!tx.vin[0]?.coinbase && totalInput > 0)]. *)
Definition update_fee (tx : BitcoinTransaction) (totalInput totalOutput : Z)
  : M Db unit :=
  if negb (vin0_coinbase tx) && (0 <? totalInput) then
    statement (fun _ => true)
      (with_transactions
         (alter (set_fee (totalInput - totalOutput)) (tx_txid tx)))
  else ret tt.

Definition indexTransaction (tx : BitcoinTransaction) : M Db unit :=
  let* _ := insert_or_replace_transaction (tx_txid tx) (transaction_row tx) in
  let* totalInput := for_acc (enumerate_from 0 (tx_vin tx)) 0 (index_input tx) in
  let* totalOutput := for_acc (tx_vout tx) 0 (index_output tx) in
  update_fee tx totalInput totalOutput.

Definition indexBlock (block : BitcoinBlock) : M Db unit :=
  let* _ := insert_or_replace_block (blk_hash block) (block_row block) in
  for_of (blk_tx block)
    (fun txid =>
       let* transaction := lift (getTransaction rpc txid) in
       indexTransaction (in_block block transaction)).

Definition syncBlocks := Sqlite.syncBlocks rpc indexBlock batchSize.

(** [handleNewBlock], once [isSyncing] is false: a failure is
    logged after the ROLLBACK, and the ROLLBACK itself fails when
    no transaction was opened. *)
Definition handleNewBlock (hash : string) : M Db unit :=
  try_catch
    (let* block := lift (getBlock rpc hash) in
     let* _ := beginTransaction in
     let* _ := indexBlock block in
     let* _ := setIndexerState "lastIndexedBlock" (pretty (blk_height block)) in
     commit)
    (fun _ => rollback).

End Indexer.

End BitcoinIndexer.

(** *** SimpleIndexer (index-simple.ts) *)

Module SimpleIndexer.
Import Sqlite.

Section Indexer.

Variable rpc : Rpc.
Variable batchSize : Z.

(** The body of the loop over [tx.vin]; it differs from
    BitcoinIndexer's in the debit of the spending address. *)
Definition index_input (tx : BitcoinTransaction) (totalInput : Z)
  (entry : Z * BitcoinInput) : M Db Z :=
  let '(i, input) := entry in
  if JS.truthy (in_coinbase input) then
    let* _ :=
      insert_or_replace_input (tx_txid tx) i
        {| i_script_sig := in_coinbase input; i_prev_txid := None;
           i_prev_vout := None; i_prev_value := None;
           i_prev_address := None |} in
    ret totalInput
  else
    match references_output input with
    | Some (prev_txid, prev_vout) =>
        let* prevOutput := getPreviousOutput prev_txid prev_vout in
        let* _ :=
          insert_or_replace_input (tx_txid tx) i
            {| i_script_sig := JS.or_else (in_scriptSig_hex input) None;
               i_prev_txid := Some prev_txid;
               i_prev_vout := Some prev_vout;
               i_prev_value := JS.nonzero_or_null (fst <$> prevOutput);
               i_prev_address := JS.or_else (prevOutput ≫= snd) None |} in
        let* _ := markOutputAsSpent prev_txid prev_vout (tx_txid tx) i in
        match JS.nonzero_or_null (fst <$> prevOutput) with
        | Some value =>
            let* _ :=
              match prevOutput ≫= snd with
              | Some a =>
                  if JS.truthy (Some a)
                  then updateAddressInfo a value false (tx_blockheight tx)
                  else ret tt
              | None => ret tt
              end in
            ret (totalInput + value)
        | None => ret totalInput
        end
    | None => ret totalInput
    end.

(** The body of the loop over [tx.vout]: every output with an
    address is added to the UTXO table. *)
Definition index_output (tx : BitcoinTransaction) (totalOutput : Z)
  (output : BitcoinOutput) : M Db Z :=
  let address := extractAddress output in
  let* valueSatoshis :=
    bind_integer (JS.Math_round (out_value output * 100000000)%float) in
  let* _ :=
    insert_or_replace_output (tx_txid tx) (out_n output)
      (fun now =>
         {| o_value := valueSatoshis;
            o_script_pub_key := spk_hex (out_scriptPubKey output);
            o_address := address; o_spent_txid := None;
            o_spent_vout := None; o_is_spent := false;
            o_updated_at := now |}) in
  let* _ :=
    match address with
    | Some a =>
        if JS.truthy address then
          let* _ :=
            addUTXO (tx_txid tx) (out_n output)
              {| u_address := a; u_value := valueSatoshis;
                 u_script_pub_key := spk_hex (out_scriptPubKey output);
                 u_block_height :=
                   match tx_blockheight tx with Some h => h | None => 0 end;
                 u_is_coinbase := vin0_coinbase tx |} in
          updateAddressInfo a valueSatoshis true (tx_blockheight tx)
        else ret tt
    | None => ret tt
    end in
  ret (totalOutput + valueSatoshis).

Definition update_fee (tx : BitcoinTransaction) (totalInput totalOutput : Z)
  : M Db unit :=
  if negb (vin0_coinbase tx) && (0 <? totalInput) then
    statement (fun _ => true)
      (with_transactions
         (alter (set_fee (totalInput - totalOutput)) (tx_txid tx)))
  else ret tt.

Definition indexTransaction (tx : BitcoinTransaction) : M Db unit :=
  let* _ := insert_or_replace_transaction (tx_txid tx) (transaction_row tx) in
  let* totalInput := for_acc (enumerate_from 0 (tx_vin tx)) 0 (index_input tx) in
  let* totalOutput := for_acc (tx_vout tx) 0 (index_output tx) in
  update_fee tx totalInput totalOutput.

(** The [try] covers the fetch and [indexTransaction]; the fallback
    insert in the [catch] is not itself protected. *)
Definition indexBlock (block : BitcoinBlock) : M Db unit :=
  let* _ := insert_or_replace_block (blk_hash block) (block_row block) in
  for_of (enumerate_from 0 (blk_tx block))
    (fun '(i, txid) =>
       try_catch
         (if (blk_height block =? 0) && (i =? 0) then
            insert_or_replace_transaction txid (basic_transaction txid block)
          else
            let* transaction := lift (getTransaction rpc txid) in
            indexTransaction (in_block block transaction))
         (fun _ =>
            insert_or_replace_transaction txid (basic_transaction txid block))).

Definition syncBlocks := Sqlite.syncBlocks rpc indexBlock batchSize.

End Indexer.

End SimpleIndexer.

(** ** Concrete chains and stores used to run the model *)

Module Scenario.

Definition pay_to (a : string) : ScriptPubKey :=
  {| spk_hex := "76a914"; spk_addresses := None; spk_address := Some a |}.

(** An output script without a decodable address. *)
Definition nonstandard : ScriptPubKey :=
  {| spk_hex := "6a"; spk_addresses := None; spk_address := None |}.

Definition coinbase_input : BitcoinInput :=
  {| in_txid := None; in_vout := None; in_scriptSig_hex := None;
     in_coinbase := Some "5101" |}.

Definition spend (txid : string) (vout : Z) : BitcoinInput :=
  {| in_txid := Some txid; in_vout := Some vout;
     in_scriptSig_hex := Some "47"; in_coinbase := None |}.

Definition mk_tx (txid : string) (vin : list BitcoinInput)
  (vout : list BitcoinOutput) : BitcoinTransaction :=
  {| tx_txid := txid; tx_hash := txid; tx_vin := vin; tx_vout := vout;
     tx_blockhash := None; tx_blockheight := None; tx_blocktime := None;
     tx_confirmations := None; tx_fee := None |}.

Definition mk_block (hash : string) (height : Z) (prev : option string)
  (txs : list string) : BitcoinBlock :=
  {| blk_hash := hash; blk_height := height; blk_time := 1231006505 + height;
     blk_tx := txs; blk_previousblockhash := prev; blk_nextblockhash := None;
     blk_confirmations := 1 |}.

(** A chain node serving the given blocks and transactions; what it
    does not know it rejects with the codes bitcoind uses. *)
Definition node (chain : list BitcoinBlock) (txs : list BitcoinTransaction)
  : Rpc :=
  {| getBlockHash := fun h =>
       match find (fun b => blk_height b =? h) chain with
       | Some b => Ok (blk_hash b)
       | None => Throw (RpcError (-8))
       end;
     getBlock := fun hash =>
       match find (fun b => String.eqb (blk_hash b) hash) chain with
       | Some b => Ok b
       | None => Throw (RpcError (-5))
       end;
     getTransaction := fun txid =>
       match find (fun t => String.eqb (tx_txid t) txid) txs with
       | Some t => Ok t
       | None => Throw (RpcError (-5))
       end |}.

Definition env_of (r : Rpc) (fails : string -> bool) : TypeORM.Env :=
  {| TypeORM.rpc := r; TypeORM.now := 1700000000000;
     TypeORM.timestamp := 1700000000;
     TypeORM.address_write_fails := fails;
     TypeORM.block_row_refused := fun _ => false;
     TypeORM.transaction_row_refused := fun _ _ _ => false;
     TypeORM.input_row_refused := fun _ _ => false;
     TypeORM.output_row_refused := fun _ _ => false |}.

Definition never : string -> bool := fun _ => false.

(** Height 0: the genesis block, whose coinbase the node cannot serve. *)
Definition genesis_txid : string :=
  "4a5e1e4baab89f3a32518a88c31bc87f618f76673e2cc77ab2127b7afdeda33b".
Definition genesis : BitcoinBlock :=
  mk_block "000000000019d6689c085ae165831e934ff763ae46a2a6c172b3f1b60a8ce26f"
    0 None [genesis_txid].

(** Height 1: a coinbase paying 50 coins to X. *)
Definition cb1 : BitcoinTransaction :=
  mk_tx "c1" [coinbase_input]
    [ {| out_value := 50.0%float; out_n := 0; out_scriptPubKey := pay_to "X" |} ].
Definition block1 : BitcoinBlock := mk_block "h1" 1 (Some "h0") ["c1"].

(** Height 2: a transaction spending an output that was never
    indexed, paying to a script without address. *)
Definition orphan_spend : BitcoinTransaction :=
  mk_tx "t2" [spend "aa" 3]
    [ {| out_value := 0.5%float; out_n := 0; out_scriptPubKey := nonstandard |} ].
Definition block2 : BitcoinBlock := mk_block "h2" 2 (Some "h1") ["t2"].

Definition chain : Rpc := node [genesis; block1; block2] [cb1; orphan_spend].

(** A run in which the storage engine refuses every write to the
    address row of X. *)
Definition env_refusing_X : TypeORM.Env := env_of chain (String.eqb "X").

(** A store in which X holds 5 units. *)
Definition x_has_5 : TypeORM.Store :=
  TypeORM.with_addresses
    (fun m =>
       <["X" := {| TypeORM.addr_balance := 5; TypeORM.addr_total_received := 5;
                   TypeORM.addr_total_sent := 0;
                   TypeORM.addr_transaction_count := 1;
                   TypeORM.addr_utxo_count := 0 |}]> m)
    TypeORM.empty_store.

Definition sqlite_x_has_5 : Sqlite.Db :=
  Sqlite.open
    (Sqlite.with_addresses
       (fun m =>
          <["X" := {| Sqlite.a_received_count := 1; Sqlite.a_sent_count := 0;
                      Sqlite.a_balance := 5; Sqlite.a_total_received := 5;
                      Sqlite.a_total_sent := 0;
                      Sqlite.a_first_seen_block := Some 1;
                      Sqlite.a_last_seen_block := Some 1 |}]> m)
       Sqlite.empty_tables).

(** SQLite tables after block 1 when X was already known: the coinbase
    output of c1 is recorded and listed in the UTXO table. *)
Definition sqlite_after_block1 : Sqlite.Db :=
  Sqlite.open
    {| Sqlite.blocks := {[ "h1" := Sqlite.block_row block1 ]};
       Sqlite.transactions :=
         {[ "c1" := Sqlite.transaction_row (Sqlite.in_block block1 cb1) ]};
       Sqlite.transaction_inputs := ∅;
       Sqlite.transaction_outputs :=
         {[ ("c1", 0) :=
              {| Sqlite.o_value := 5000000000; Sqlite.o_script_pub_key := "76a914";
                 Sqlite.o_address := Some "X"; Sqlite.o_spent_txid := None;
                 Sqlite.o_spent_vout := None; Sqlite.o_is_spent := false;
                 Sqlite.o_updated_at := 1700000000 |} ]};
       Sqlite.addresses :=
         {[ "X" := Sqlite.receive 5000000000 (Some 1)
                     (Sqlite.fresh_address (Some 1)) ]};
       Sqlite.utxos :=
         {[ ("c1", 0) :=
              {| Sqlite.u_address := "X"; Sqlite.u_value := 5000000000;
                 Sqlite.u_script_pub_key := "76a914"; Sqlite.u_block_height := 1;
                 Sqlite.u_is_coinbase := true |} ]};
       Sqlite.indexer_state := ∅;
       Sqlite.clock := 1700000600 |}.

(** A transaction that spends the 50 coins of c1 and pays out 60, to a
    script without address, and the block at height 2 that holds it. *)
Definition overspend : BitcoinTransaction :=
  mk_tx "t9" [spend "c1" 0]
    [ {| out_value := 60.0%float; out_n := 0; out_scriptPubKey := nonstandard |} ].
Definition block2_overspend : BitcoinBlock := mk_block "h2" 2 (Some "h1") ["t9"].
Definition chain_overspend : Rpc :=
  node [block1; block2_overspend] [cb1; overspend].

(** An output of 0.07 coins. *)
Definition seven_cents : BitcoinOutput :=
  {| out_value := 0.07%float; out_n := 0; out_scriptPubKey := pay_to "X" |}.

End Scenario.

(** * Properties *)

(** ** The monad *)

Lemma bind_ok {S A B} (m : M S A) (k : A -> M S B) s a s' :
  m s = (Ok a, s') -> bind m k s = k a s'.
Proof. intros H. unfold bind. now rewrite H. Qed.

Lemma bind_unfold {S A B} (m : M S A) (k : A -> M S B) s :
  bind m k s
  = match m s with
    | (Ok a, s') => k a s'
    | (Throw e, s') => (Throw e, s')
    end.
Proof. reflexivity. Qed.

Lemma bind_lift {S A B} (r : result A) (k : A -> M S B) s :
  bind (lift r) k s
  = match r with
    | Ok a => k a s
    | Throw e => (Throw e, s)
    end.
Proof. unfold bind, lift. now destruct r. Qed.

(** In a hypothesis saying that a sequence returned, take the first
    step, which returned as well. *)
Ltac run_bind_as H E :=
  rewrite bind_unfold in H;
  lazymatch type of H with
  | match ?m ?s with _ => _ end = _ =>
      destruct (m s) as [[?|?] ?] eqn:E; [|discriminate H]
  end.

Ltac run_bind H := let E := fresh "Hrun" in run_bind_as H E.

Lemma bind_throw {S A B} (m : M S A) (k : A -> M S B) s e s' :
  m s = (Throw e, s') -> bind m k s = (Throw e, s').
Proof. intros H. unfold bind. now rewrite H. Qed.

(** ** The state table and the progress mark *)

Lemma text_pretty_N_go x : forall s,
  PG.text s = true -> PG.text (pretty_N_go x s) = true.
Proof.
  induction (N.lt_wf_0 x) as [x _ IH]. intros s Hs.
  destruct (N.eq_dec x 0%N) as [->|Hx].
  - now rewrite pretty_N_go_0.
  - rewrite pretty_N_go_step by lia.
    apply IH; [apply N.div_lt; lia|].
    cbn [PG.text]. rewrite Hs, andb_true_r.
    unfold pretty_N_char. now repeat case_match.
Qed.

Lemma text_pretty (z : Z) : PG.text (pretty z) = true.
Proof.
  destruct z as [|p|p]; [reflexivity| |].
  - now apply (text_pretty_N_go (N.pos p)).
  - change (pretty (Z.neg p)) with ("-" +:+ pretty_N_go (N.pos p) "").
    cbn [String.app PG.text]. now apply (text_pretty_N_go (N.pos p)).
Qed.

(** A key of at most 50 characters: the row is written, found or
    not. *)
Lemma setState_writes key value s :
  PG.text key = true -> PG.text value = true ->
  (String.length key <= 50)%nat ->
  TypeORM.setState key value s
  = (Ok tt, TypeORM.with_state (fun m => <[key := value]> m) s).
Proof.
  intros Hk Hv Hlen. unfold TypeORM.setState. rewrite Hk, Hv. cbn [andb negb].
  rewrite bind_unfold. unfold gets at 1. cbn beta iota.
  destruct (TypeORM.state s !! key) eqn:Hfound; [reflexivity|].
  unfold PG.varchar. rewrite Hk. cbn [negb].
  replace (String.length key <=? 50)%nat with true
    by (symmetry; apply Nat.leb_le; exact Hlen).
  rewrite bind_unfold. unfold gets at 1. cbn beta iota. now rewrite Hfound.
Qed.

Lemma setLastProcessedHeight_writes h s :
  TypeORM.setLastProcessedHeight h s
  = (Ok tt,
     TypeORM.with_state (fun m => <["last_processed_height" := pretty h]> m) s).
Proof.
  unfold TypeORM.setLastProcessedHeight.
  apply setState_writes; [reflexivity|apply text_pretty|cbn; lia].
Qed.

(** ** DatabaseService.updateAddressBalance *)

Section UpdateAddressBalance.
Import TypeORM.
Variable env : Env.

(** The address row an update starts from. *)
Definition row_or_new (s : Store) (a : string) : Address :=
  match addresses s !! a with
  | Some r => r
  | None => new_address
  end.

Lemma updateAddressBalance_fails a v r s :
  address_write_fails env a = true ->
  updateAddressBalance env a v r s = (Ok tt, s).
Proof.
  intros Hf. unfold updateAddressBalance, try_catch, transaction, bind, gets.
  unfold addressRepo_save. rewrite Hf. reflexivity.
Qed.

Lemma updateAddressBalance_writes a v r s :
  address_write_fails env a = false ->
  updateAddressBalance env a v r s =
  (Ok tt, with_addresses (fun m => <[a := apply_change (row_or_new s a) v r]> m) s).
Proof.
  intros Hf. unfold updateAddressBalance, try_catch, transaction, bind, gets.
  unfold addressRepo_save. rewrite Hf. reflexivity.
Qed.

Lemma updateAddressBalance_returns a v r s :
  exists s', updateAddressBalance env a v r s = (Ok tt, s').
Proof.
  destruct (address_write_fails env a) eqn:Hf.
  - eexists. now apply updateAddressBalance_fails.
  - eexists. now apply updateAddressBalance_writes.
Qed.

Lemma saveUTXO_fresh txid n a v spk h t s :
  utxos s !! (txid, n) = None ->
  exists u,
    saveUTXO env txid n a v spk h t s =
      (Ok u, with_utxos (fun m => <[(txid, n) := u]> m) s)
    /\ utxo_address u = a /\ utxo_value u = v /\ utxo_is_spent u = false.
Proof.
  intros Hn. unfold saveUTXO, bind, gets. rewrite Hn. cbn.
  eexists. split; [reflexivity|]. now cbn.
Qed.

Lemma credit_output_when_write_fails txid h t a output v s :
  address_write_fails env a = true ->
  JS.truthy (Some a) = true ->
  BigInt (JS.Math_round (out_value output * 100000000)%float) = Ok v ->
  utxos s !! (txid, out_n output) = None ->
  exists u,
    credit_output env txid h t (Some a) output s =
      (Ok tt, with_utxos (fun m => <[(txid, out_n output) := u]> m) s)
    /\ utxo_address u = a /\ utxo_value u = v /\ utxo_is_spent u = false.
Proof.
  intros Hf Ht Hv Hn. unfold credit_output. rewrite Ht.
  unfold bind at 1. unfold lift. rewrite Hv.
  unfold bind at 1. rewrite (updateAddressBalance_fails _ _ _ _ Hf).
  destruct (saveUTXO_fresh txid (out_n output) a v
              (spk_hex (out_scriptPubKey output)) h t s Hn) as (u & Hu & Hp).
  exists u. split; [|exact Hp].
  unfold bind. rewrite Hu. reflexivity.
Qed.

End UpdateAddressBalance.

(** C10. [DatabaseService.updateAddressBalance] never propagates an
    error: whatever happens inside, the call returns, and when the
    write of the address row is refused the store is left as it was.
    The caller goes on: the output loop still saves the UTXO of the
    output it could not credit, and in the run below, where every
    write to the row of X is refused, height 1 is recorded as
    processed with the UTXO stored and no address row at all. *)
Theorem updateAddressBalance_swallows_failures :
  (forall env addressStr balanceChange isReceived s,
      exists s',
        TypeORM.updateAddressBalance env addressStr balanceChange isReceived s
        = (Ok tt, s')
        /\ (TypeORM.address_write_fails env addressStr = true -> s' = s))
  /\ (forall env txid blockHeight blockTime a output v s,
         TypeORM.address_write_fails env a = true ->
         JS.truthy (Some a) = true ->
         BigInt (JS.Math_round (out_value output * 100000000)%float) = Ok v ->
         TypeORM.utxos s !! (txid, out_n output) = None ->
         exists u,
           TypeORM.credit_output env txid blockHeight blockTime (Some a) output s
           = (Ok tt,
              TypeORM.with_utxos (fun m => <[(txid, out_n output) := u]> m) s)
           /\ TypeORM.utxo_value u = v)
  /\ (exists s',
         TypeORM.syncBlocks Scenario.env_refusing_X 1 1 TypeORM.empty_store
         = (Ok tt, s')
         /\ TypeORM.addresses s' = ∅
         /\ TypeORM.utxo_value <$> TypeORM.utxos s' !! ("c1", 0) = Some 5000000000
         /\ TypeORM.state s' !! "last_processed_height" = Some "1").
Proof.
  split; [|split].
  - intros env a v r s.
    destruct (TypeORM.address_write_fails env a) eqn:Hf.
    + exists s. split; [now apply updateAddressBalance_fails|reflexivity].
    + eexists. split; [now apply updateAddressBalance_writes|discriminate].
  - intros env txid h t a output v s Hf Ht Hv Hn.
    destruct (credit_output_when_write_fails env txid h t a output v s Hf Ht Hv Hn)
      as (u & Hu & _ & Hval & _).
    exists u. now split.
  - eexists. split; [vm_compute; reflexivity|].
    repeat split; vm_compute; reflexivity.
Qed.

(** C10 on the run that refuses X: crediting 0.07 coins to X returns
    with the store unchanged, and the output loop stores the UTXO of
    7,000,000 that was not credited. *)
Lemma updateAddressBalance_swallows_failures_witness :
  TypeORM.address_write_fails Scenario.env_refusing_X "X" = true
  /\ TypeORM.updateAddressBalance Scenario.env_refusing_X "X" 7000000 true
       TypeORM.empty_store = (Ok tt, TypeORM.empty_store)
  /\ exists u,
      TypeORM.credit_output Scenario.env_refusing_X "t" 1 0 (Some "X")
        Scenario.seven_cents TypeORM.empty_store
      = (Ok tt,
         TypeORM.with_utxos (fun m => <[("t", 0) := u]> m) TypeORM.empty_store)
      /\ TypeORM.utxo_value u = 7000000.
Proof.
  split; [reflexivity|]. split.
  - destruct (proj1 updateAddressBalance_swallows_failures
                Scenario.env_refusing_X "X" 7000000 true TypeORM.empty_store)
      as (s' & Hrun & Hsame).
    rewrite Hrun. f_equal. apply Hsame. reflexivity.
  - apply (proj1 (proj2 updateAddressBalance_swallows_failures)
             Scenario.env_refusing_X "t" 1 0 "X" Scenario.seven_cents 7000000
             TypeORM.empty_store).
    + reflexivity.
    + reflexivity.
    + vm_compute. reflexivity.
    + apply lookup_empty.
Defined.

(** ** Debits *)

Lemma updateAddressInfo_row address value isReceived blockHeight db row :
  Sqlite.addresses (Sqlite.tables db) !! address = Some row ->
  exists db',
    Sqlite.updateAddressInfo address value isReceived blockHeight db = (Ok tt, db')
    /\ Sqlite.addresses (Sqlite.tables db') !! address
       = Some (if isReceived then Sqlite.receive value blockHeight row
               else Sqlite.send value blockHeight row)
    /\ Sqlite.snapshot db' = Sqlite.snapshot db.
Proof.
  intros Hrow.
  unfold Sqlite.updateAddressInfo, bind, Sqlite.statement. cbn.
  destruct isReceived; eexists; (split; [reflexivity|]); cbn;
    rewrite Hrow, lookup_alter_eq, Hrow; now split.
Qed.

(** C6, as the code has it. A debit is applied whatever the balance:
    [updateAddressBalance] with [isReceived = false] subtracts the
    amount from the balance of the row (a fresh zero row when the
    address is unknown) and adds it to [total_sent], and the debit
    branch of [updateAddressInfo] does the same on the SQLite side;
    neither compares the amount with the balance nor fails. *)
Theorem debit_is_applied_unconditionally :
  (forall env addressStr balanceChange s,
      TypeORM.address_write_fails env addressStr = false ->
      exists s' row',
        TypeORM.updateAddressBalance env addressStr balanceChange false s
        = (Ok tt, s')
        /\ TypeORM.addresses s' !! addressStr = Some row'
        /\ TypeORM.addr_balance row'
           = TypeORM.addr_balance (row_or_new s addressStr) - balanceChange
        /\ TypeORM.addr_total_sent row'
           = TypeORM.addr_total_sent (row_or_new s addressStr) + balanceChange)
  /\ (forall address value blockHeight db row,
         Sqlite.addresses (Sqlite.tables db) !! address = Some row ->
         exists db' row',
           Sqlite.updateAddressInfo address value false blockHeight db
           = (Ok tt, db')
           /\ Sqlite.addresses (Sqlite.tables db') !! address = Some row'
           /\ Sqlite.a_balance row' = Sqlite.a_balance row - value
           /\ Sqlite.a_total_sent row' = Sqlite.a_total_sent row + value).
Proof.
  split.
  - intros env a v s Hf.
    exists (TypeORM.with_addresses
              (fun m => <[a := TypeORM.apply_change (row_or_new s a) v false]> m) s),
           (TypeORM.apply_change (row_or_new s a) v false).
    split; [now apply updateAddressBalance_writes|].
    split; [cbn; apply lookup_insert_eq|]. now split.
  - intros a v h db row Hrow.
    destruct (updateAddressInfo_row a v false h db row Hrow) as (db' & Hrun & Hlk & _).
    exists db', (Sqlite.send v h row). now repeat split.
Qed.

(** The amended C6 at a balance of 5 and a debit of 10, on both stores. *)
Lemma debit_is_applied_unconditionally_witness :
  (exists s' row',
      TypeORM.updateAddressBalance (Scenario.env_of Scenario.chain Scenario.never)
        "X" 10 false Scenario.x_has_5 = (Ok tt, s')
      /\ TypeORM.addresses s' !! "X" = Some row'
      /\ TypeORM.addr_balance row'
         = TypeORM.addr_balance (row_or_new Scenario.x_has_5 "X") - 10
      /\ TypeORM.addr_total_sent row'
         = TypeORM.addr_total_sent (row_or_new Scenario.x_has_5 "X") + 10)
  /\ (exists db' row',
         Sqlite.updateAddressInfo "X" 10 false (Some 2) Scenario.sqlite_x_has_5
         = (Ok tt, db')
         /\ Sqlite.addresses (Sqlite.tables db') !! "X" = Some row'
         /\ Sqlite.a_balance row' = 5 - 10
         /\ Sqlite.a_total_sent row' = 0 + 10).
Proof.
  split.
  - apply (proj1 debit_is_applied_unconditionally). reflexivity.
  - apply (proj2 debit_is_applied_unconditionally "X" 10 (Some 2)
             Scenario.sqlite_x_has_5
             {| Sqlite.a_received_count := 1; Sqlite.a_sent_count := 0;
                Sqlite.a_balance := 5; Sqlite.a_total_received := 5;
                Sqlite.a_total_sent := 0; Sqlite.a_first_seen_block := Some 1;
                Sqlite.a_last_seen_block := Some 1 |}).
    reflexivity.
Defined.

(** C6 as stated fails: X holds 5, a debit of 10 returns normally and
    leaves X with a balance of -5, in [DatabaseService] and in
    [SimpleIndexer] alike. *)
Lemma debit_beyond_balance_is_stored :
  (exists s',
      TypeORM.updateAddressBalance (Scenario.env_of Scenario.chain Scenario.never)
        "X" 10 false Scenario.x_has_5 = (Ok tt, s')
      /\ TypeORM.addr_balance <$> TypeORM.addresses s' !! "X" = Some (-5))
  /\ (exists db',
         Sqlite.updateAddressInfo "X" 10 false (Some 2) Scenario.sqlite_x_has_5
         = (Ok tt, db')
         /\ Sqlite.a_balance <$> Sqlite.addresses (Sqlite.tables db') !! "X"
            = Some (-5)).
Proof.
  split; eexists; (split; [vm_compute; reflexivity|]); vm_compute; reflexivity.
Qed.

(** ** Inputs whose output is not in the store *)

Lemma processInputSpending_returns env input spendingTxid blockHeight s :
  exists s',
    TypeORM.processInputSpending env input spendingTxid blockHeight s = (Ok tt, s').
Proof.
  unfold TypeORM.processInputSpending, try_catch.
  destruct (in_txid input) as [t|]; [|eexists; reflexivity].
  destruct (in_vout input) as [v|]; [|eexists; reflexivity].
  unfold bind at 1. unfold TypeORM.getUTXOByTxidAndIndex, gets.
  destruct (TypeORM.utxos s !! (t, v)) as [u|]; [|eexists; reflexivity].
  destruct (TypeORM.utxo_is_spent u); [eexists; reflexivity|].
  unfold bind, TypeORM.spendUTXO, modify.
  match goal with
  | |- context [TypeORM.updateAddressBalance ?e ?a ?b ?r ?st] =>
      destruct (updateAddressBalance_returns e a b r st) as [s' Hs']; rewrite Hs'
  end.
  eexists; reflexivity.
Qed.

Lemma processInputSpending_unresolved env input spendingTxid blockHeight s t v :
  in_txid input = Some t -> in_vout input = Some v ->
  TypeORM.utxos s !! (t, v) = None ->
  TypeORM.processInputSpending env input spendingTxid blockHeight s = (Ok tt, s).
Proof.
  intros Ht Hv Hn.
  unfold TypeORM.processInputSpending, try_catch. rewrite Ht, Hv.
  unfold bind, TypeORM.getUTXOByTxidAndIndex, gets. now rewrite Hn.
Qed.

Lemma alter_absent `{Countable K} {V} (f : V -> V) (k : K) (m : gmap K V) :
  m !! k = None -> alter f k m = m.
Proof.
  intros Hn. apply map_eq. intros j.
  destruct (decide (k = j)) as [->|Hne].
  - now rewrite lookup_alter_eq, Hn.
  - now rewrite lookup_alter_ne.
Qed.

Lemma simple_index_input_unresolved tx totalInput i input db t v :
  JS.truthy (in_coinbase input) = false ->
  references_output input = Some (t, v) ->
  Sqlite.transaction_outputs (Sqlite.tables db) !! (t, v) = None ->
  Sqlite.has_key (Sqlite.transactions (Sqlite.tables db)) (tx_txid tx) = true ->
  exists db',
    SimpleIndexer.index_input tx totalInput (i, input) db = (Ok totalInput, db')
    /\ Sqlite.transaction_outputs (Sqlite.tables db')
       = Sqlite.transaction_outputs (Sqlite.tables db)
    /\ Sqlite.addresses (Sqlite.tables db') = Sqlite.addresses (Sqlite.tables db)
    /\ (Sqlite.i_prev_value <$>
          Sqlite.transaction_inputs (Sqlite.tables db') !! (tx_txid tx, i))
       = Some None.
Proof.
  intros Hcb Href Hn Hk.
  unfold SimpleIndexer.index_input. rewrite Hcb, Href.
  unfold bind at 1. unfold Sqlite.getPreviousOutput, gets. rewrite Hn.
  unfold bind at 1. unfold Sqlite.insert_or_replace_input, Sqlite.statement.
  rewrite Hk.
  unfold bind, Sqlite.markOutputAsSpent, Sqlite.statement, bind. cbn.
  eexists. split; [reflexivity|]. cbn.
  split; [now apply alter_absent|]. split; [reflexivity|].
  now rewrite lookup_insert_eq.
Qed.

(** C3, as the code has it. An input whose referenced output is not in
    the store does not stop anything. [processInputSpending] returns
    normally for every input and every store, and when the UTXO is
    absent it leaves the store as it was: nothing is marked spent, no
    address is debited. [SimpleIndexer] records the input with a null
    previous value, leaves outputs and addresses alone, adds nothing to
    [totalInput], and goes on with the next input. *)
Theorem unresolved_input_is_skipped :
  (forall env input spendingTxid blockHeight s,
      exists s',
        TypeORM.processInputSpending env input spendingTxid blockHeight s
        = (Ok tt, s'))
  /\ (forall env input spendingTxid blockHeight s t v,
         in_txid input = Some t -> in_vout input = Some v ->
         TypeORM.utxos s !! (t, v) = None ->
         TypeORM.processInputSpending env input spendingTxid blockHeight s
         = (Ok tt, s))
  /\ (forall tx totalInput i input db t v,
         JS.truthy (in_coinbase input) = false ->
         references_output input = Some (t, v) ->
         Sqlite.transaction_outputs (Sqlite.tables db) !! (t, v) = None ->
         Sqlite.has_key (Sqlite.transactions (Sqlite.tables db)) (tx_txid tx) = true ->
         exists db',
           SimpleIndexer.index_input tx totalInput (i, input) db
           = (Ok totalInput, db')
           /\ Sqlite.transaction_outputs (Sqlite.tables db')
              = Sqlite.transaction_outputs (Sqlite.tables db)
           /\ Sqlite.addresses (Sqlite.tables db')
              = Sqlite.addresses (Sqlite.tables db)
           /\ (Sqlite.i_prev_value <$>
                 Sqlite.transaction_inputs (Sqlite.tables db') !! (tx_txid tx, i))
              = Some None).
Proof.
  split; [|split].
  - apply processInputSpending_returns.
  - apply processInputSpending_unresolved.
  - apply simple_index_input_unresolved.
Qed.

(** The amended C3 at the input of transaction t2, which spends output
    3 of a transaction "aa" that no store holds. *)
Lemma unresolved_input_is_skipped_witness :
  TypeORM.processInputSpending (Scenario.env_of Scenario.chain Scenario.never)
    (Scenario.spend "aa" 3) "t2" 2 TypeORM.empty_store
  = (Ok tt, TypeORM.empty_store).
Proof.
  apply (proj1 (proj2 unresolved_input_is_skipped)
           (Scenario.env_of Scenario.chain Scenario.never)
           (Scenario.spend "aa" 3) "t2" 2 TypeORM.empty_store "aa" 3);
    reflexivity.
Defined.

(** C3 as stated fails: block 2 holds a transaction whose only input
    refers to an output that is in no table, and both indexers process
    the block to the end, record it, and report no error. *)
Lemma unresolved_input_does_not_fail :
  references_output (Scenario.spend "aa" 3) = Some ("aa", 3)
  /\ (exists s',
         TypeORM.syncBlocks (Scenario.env_of Scenario.chain Scenario.never) 2 2
           TypeORM.empty_store = (Ok tt, s')
         /\ TypeORM.state s' !! "last_processed_height" = Some "2"
         /\ TypeORM.txn_txid <$> TypeORM.transactions s' = ["t2"]
         /\ TypeORM.utxos s' = ∅)
  /\ (exists db',
         SimpleIndexer.syncBlocks Scenario.chain 100 1 2 2
           (Sqlite.open Sqlite.empty_tables) = Some (Ok tt, db')
         /\ Sqlite.snapshot db' = None
         /\ Sqlite.has_key (Sqlite.blocks (Sqlite.tables db')) "h2" = true
         /\ Sqlite.i_prev_txid <$>
              Sqlite.transaction_inputs (Sqlite.tables db') !! ("t2", 0)
            = Some (Some "aa")
         /\ Sqlite.t_fee <$> Sqlite.transactions (Sqlite.tables db') !! "t2"
            = Some None).
Proof.
  split; [reflexivity|]. split.
  - eexists. split; [vm_compute; reflexivity|]. repeat split; vm_compute; reflexivity.
  - eexists. split; [vm_compute; reflexivity|]. repeat split; vm_compute; reflexivity.
Qed.

(** ** Marking an output as spent *)



(** ** Replay *)

Lemma heights_one h : heights h h = [h].
Proof.
  unfold heights. replace (h - h + 1) with 1 by lia.
  rewrite seqZ_cons by lia. now rewrite seqZ_nil by lia.
Qed.


(** C2 at the failing input. [BitcoinIndexer.syncBlocks] is run twice
    over height 1, whose coinbase pays 50 coins to X. Both runs commit.
    After the first X has received 5,000,000,000 once; after the second
    the row counts are the same but X has received twice and holds
    10,000,000,000. *)
Theorem replay_credits_the_address_again :
  exists db1 db2,
    BitcoinIndexer.syncBlocks Scenario.chain 100 1 1 1
      (Sqlite.open Sqlite.empty_tables) = Some (Ok tt, db1)
    /\ BitcoinIndexer.syncBlocks Scenario.chain 100 1 1 1 db1 = Some (Ok tt, db2)
    /\ Sqlite.has_key (Sqlite.blocks (Sqlite.committed db1)) "h1" = true
    /\ size (Sqlite.blocks (Sqlite.committed db2))
       = size (Sqlite.blocks (Sqlite.committed db1))
    /\ size (Sqlite.transactions (Sqlite.committed db2))
       = size (Sqlite.transactions (Sqlite.committed db1))
    /\ size (Sqlite.transaction_outputs (Sqlite.committed db2))
       = size (Sqlite.transaction_outputs (Sqlite.committed db1))
    /\ size (Sqlite.addresses (Sqlite.committed db2))
       = size (Sqlite.addresses (Sqlite.committed db1))
    /\ Sqlite.a_balance <$> Sqlite.addresses (Sqlite.committed db1) !! "X"
       = Some 5000000000
    /\ Sqlite.a_balance <$> Sqlite.addresses (Sqlite.committed db2) !! "X"
       = Some 10000000000
    /\ Sqlite.a_received_count <$> Sqlite.addresses (Sqlite.committed db2) !! "X"
       = Some 2.
Proof.
  eexists. eexists.
  split; [vm_compute; reflexivity|].
  split; [vm_compute; reflexivity|].
  repeat split; vm_compute; reflexivity.
Qed.

(** ** The genesis block *)

(** The recipient written into the descriptor of the genesis coinbase. *)
Definition genesis_address : string := "1A1zP1eP5QGefi2DMPTfTL5SLmv7DivfNa".

(** The only output of the descriptor. *)
Definition genesis_output : BitcoinOutput :=
  {| out_value := 50.0%float;
     out_n := 0;
     out_scriptPubKey :=
       {| spk_hex := "4104678afdb0fe5548271967f1a67130b7105cd6a828e03909a67962e0ea1f61deb649f6bc3f4cef38c4f35504e51ec112de5c384df7ba0b8d578a4c702b6bf11d5fac";
          spk_addresses := Some [genesis_address];
          spk_address := None |} |}.

Lemma genesis_value :
  BigInt (JS.Math_round (50.0 * 100000000)%float) = Ok 5000000000.
Proof. vm_compute. reflexivity. Qed.

Lemma genesis_column :
  PG.numeric_20_0 (50.0 * 100000000)%float = Some (PG.Num 5000000000).
Proof. vm_compute. reflexivity. Qed.

#[local] Arguments BigInt : simpl never.
#[local] Arguments JS.Math_round : simpl never.
#[local] Arguments PrimFloat.mul : simpl never.
#[local] Arguments PG.numeric_20_0 : simpl never.

(** On a store without transactions, outputs, addresses and UTXOs,
    whose engine accepts the three rows, the descriptor leaves one
    transaction, one output, one address and one UTXO, and no input. *)
Lemma processGenesisTransaction_fresh env txid h t s :
  TypeORM.transactions s = [] -> TypeORM.outputs s = [] ->
  TypeORM.addresses s = ∅ -> TypeORM.utxos s = ∅ ->
  TypeORM.transaction_row_refused env (TypeORM.genesisTx txid) (Some h) (Some t)
  = false ->
  TypeORM.output_row_refused env genesis_output txid = false ->
  TypeORM.address_write_fails env genesis_address = false ->
  exists s',
    TypeORM.processGenesisTransaction env txid h t s = (Ok tt, s')
    /\ TypeORM.blocks s' = TypeORM.blocks s
    /\ TypeORM.inputs s' = TypeORM.inputs s
    /\ TypeORM.state s' = TypeORM.state s
    /\ TypeORM.txn_txid <$> TypeORM.transactions s' = [txid]
    /\ TypeORM.outputs s'
       = [ {| TypeORM.txout_transaction_id := txid;
              TypeORM.txout_output_index := 0;
              TypeORM.txout_value := TypeORM.OfColumn (PG.Num 5000000000);
              TypeORM.txout_script_pub_key :=
                spk_hex (out_scriptPubKey genesis_output);
              TypeORM.txout_address := Some genesis_address;
              TypeORM.txout_is_spent := false |} ]
    /\ TypeORM.addresses s'
       = {[ genesis_address :=
              TypeORM.apply_change TypeORM.new_address 5000000000 true ]}
    /\ exists u,
        TypeORM.utxos s' = {[ (txid, 0) := u ]}
        /\ TypeORM.utxo_address u = genesis_address
        /\ TypeORM.utxo_value u = 5000000000
        /\ TypeORM.utxo_is_spent u = false.
Proof.
  intros Ht Ho Ha Hu Hrt Hro Hf.
  unfold TypeORM.processGenesisTransaction.
  rewrite bind_unfold.
  unfold TypeORM.saveTransaction at 1. rewrite bind_unfold. unfold gets at 1.
  rewrite Ht. cbn [find]. rewrite Hrt.
  rewrite bind_unfold. unfold gets at 1.
  cbn [TypeORM.txn_block_hash TypeORM.genesisTx tx_blockhash JS.or_else JS.truthy].
  rewrite bind_unfold. unfold modify at 1, ret at 1.
  cbn [tx_vout TypeORM.genesisTx for_of].
  change {| out_value := 50.0%float; out_n := 0; out_scriptPubKey := _ |}
    with genesis_output.
  rewrite bind_unfold. unfold TypeORM.process_output at 1.
  rewrite bind_unfold.
  unfold TypeORM.saveTransactionOutput at 1. rewrite bind_unfold. unfold gets at 1.
  cbn [TypeORM.outputs TypeORM.with_transactions]. rewrite Ho. cbn [find].
  cbn [out_value genesis_output]. rewrite genesis_column, Hro.
  rewrite bind_unfold. unfold gets at 1.
  unfold TypeORM.has_transaction at 1.
  cbn [TypeORM.transactions TypeORM.with_transactions]. rewrite Ht.
  cbn [app existsb TypeORM.txn_txid TypeORM.genesisTx tx_txid].
  rewrite String.eqb_refl. cbn [orb].
  rewrite bind_unfold. unfold modify at 1, ret at 1.
  unfold TypeORM.credit_output.
  cbn [addresses0 out_scriptPubKey spk_addresses JS.truthy String.eqb negb
       Ascii.eqb Bool.eqb out_value out_n spk_hex genesis_output genesis_address].
  rewrite bind_lift, genesis_value.
  rewrite bind_unfold.
  rewrite updateAddressBalance_writes by exact Hf.
  rewrite bind_unfold.
  match goal with
  | |- context [TypeORM.saveUTXO ?ev ?a ?b ?c ?d ?e ?f ?g ?st] =>
      destruct (saveUTXO_fresh ev a b c d e f g st) as (u & Hrun & Hua & Huv & Hus);
        [cbn; rewrite Hu; apply lookup_empty|rewrite Hrun]
  end.
  eexists. split; [reflexivity|]. cbn. unfold row_or_new. cbn.
  rewrite Ht, Ho, Ha, Hu, lookup_empty, !insert_empty.
  repeat split. exists u. now repeat split.
Qed.

Lemma processTransaction_rpc_throws env txid h t s e :
  getTransaction (TypeORM.rpc env) txid = Throw e ->
  TypeORM.processTransaction env txid h t s = (Throw e, s).
Proof.
  intros Hrpc. unfold TypeORM.processTransaction. now rewrite bind_lift, Hrpc.
Qed.

(** Two stores that agree on everything but the tables of transactions
    and inputs. *)
Definition same_ledger (s1 s2 : TypeORM.Store) : Prop :=
  TypeORM.blocks s1 = TypeORM.blocks s2
  /\ TypeORM.outputs s1 = TypeORM.outputs s2
  /\ TypeORM.addresses s1 = TypeORM.addresses s2
  /\ TypeORM.utxos s1 = TypeORM.utxos s2
  /\ TypeORM.state s1 = TypeORM.state s2.

(** The store with other rows in the tables of transactions and
    inputs. *)
Definition with_rows (txs : list TypeORM.Transaction)
  (ins : list TypeORM.TransactionInput) (s : TypeORM.Store) : TypeORM.Store :=
  TypeORM.with_inputs (fun _ => ins) (TypeORM.with_transactions (fun _ => txs) s).

Lemma saveTransaction_stored env tx h t s tr s' :
  TypeORM.saveTransaction env tx h t s = (Ok tr, s') ->
  TypeORM.has_transaction (tx_txid tx) s' = true
  /\ s' = with_rows (TypeORM.transactions s') (TypeORM.inputs s) s.
Proof.
  unfold TypeORM.saveTransaction, TypeORM.has_transaction.
  rewrite bind_unfold. unfold gets at 1. cbn beta iota.
  destruct (find _ (TypeORM.transactions s)) as [x|] eqn:Hf.
  - intros [= <- <-]. split; [|now destruct s].
    apply find_some in Hf as [Hin Heq]. apply existsb_exists. now exists x.
  - destruct (TypeORM.transaction_row_refused _ _ _ _); [discriminate|].
    rewrite bind_unfold. unfold gets at 1. cbn beta iota.
    match goal with
    | |- context [if ?c then _ else _] => destruct c; [|discriminate]
    end.
    intros [= <- <-]. cbn. split; [|reflexivity].
    rewrite existsb_app. cbn. now rewrite String.eqb_refl, orb_true_r.
Qed.

Lemma saveTransactionInput_stored env i txid s r s' :
  TypeORM.saveTransactionInput env i txid s = (Ok r, s') ->
  s' = with_rows (TypeORM.transactions s) (TypeORM.inputs s') s.
Proof.
  unfold TypeORM.saveTransactionInput.
  rewrite bind_unfold. unfold gets at 1. cbn beta iota.
  destruct (find _ (TypeORM.inputs s)) as [x|].
  - intros [= <- <-]. now destruct s.
  - destruct (PG.varchar_null 64 _); [|discriminate].
    destruct (TypeORM.input_row_refused _ _ _); [discriminate|].
    rewrite bind_unfold. unfold gets at 1. cbn beta iota.
    destruct (TypeORM.has_transaction _ _); [|discriminate].
    intros [= <- <-]. reflexivity.
Qed.

(** A step that commutes with a change of the store. *)
Definition commutes {S A} (w : S -> S) (m : M S A) (s : S) : Prop :=
  m (w s) = (fst (m s), w (snd (m s))).

Lemma commutes_bind {S A B} (w : S -> S) (m : M S A) (k : A -> M S B) s :
  commutes w m s -> (forall a st, commutes w (k a) st) ->
  commutes w (bind m k) s.
Proof.
  unfold commutes. intros Hm Hk. rewrite !bind_unfold, Hm.
  destruct (m s) as [[a|e] s1]; cbn; [apply Hk|reflexivity].
Qed.

Lemma credit_output_with_rows env txid h t address output txs ins s :
  commutes (with_rows txs ins)
    (TypeORM.credit_output env txid h t address output) s.
Proof.
  unfold commutes, TypeORM.credit_output.
  destruct address as [a|]; [|reflexivity].
  destruct (JS.truthy (Some a)); [|reflexivity].
  unfold bind, lift.
  destruct (BigInt _) as [v|e]; [|reflexivity].
  unfold TypeORM.updateAddressBalance, try_catch, TypeORM.transaction, bind,
    gets, TypeORM.addressRepo_save, ret, throw, modify.
  destruct (TypeORM.address_write_fails env a); cbn;
    unfold TypeORM.saveUTXO, bind, gets, modify, ret; cbn;
    destruct (TypeORM.utxos s !! (txid, out_n output)); reflexivity.
Qed.

Lemma saveTransactionOutput_with_rows env output txid txs ins s :
  TypeORM.has_transaction txid (with_rows txs ins s)
  = TypeORM.has_transaction txid s ->
  commutes (with_rows txs ins) (TypeORM.saveTransactionOutput env output txid) s.
Proof.
  intros Hfk.
  unfold commutes, TypeORM.saveTransactionOutput, bind, gets, modify, ret, throw.
  cbn beta iota.
  change (TypeORM.outputs (with_rows txs ins s)) with (TypeORM.outputs s).
  destruct (find _ (TypeORM.outputs s)) as [x|]; [reflexivity|].
  destruct (PG.numeric_20_0 _) as [v|]; [|reflexivity].
  destruct (TypeORM.output_row_refused env output txid); [reflexivity|].
  rewrite Hfk.
  destruct (TypeORM.has_transaction txid s); reflexivity.
Qed.

(** A turn of the output loop reads the table of transactions only to
    see whether the transaction of the output has a row, and does not
    read the table of inputs. *)
Lemma process_output_with_rows env txid h t address output txs ins s :
  TypeORM.has_transaction txid (with_rows txs ins s)
  = TypeORM.has_transaction txid s ->
  commutes (with_rows txs ins)
    (TypeORM.process_output env txid h t address output) s.
Proof.
  intros Hfk. unfold TypeORM.process_output.
  apply commutes_bind; [now apply saveTransactionOutput_with_rows|].
  intros _ st. apply credit_output_with_rows.
Qed.

Lemma same_ledger_with_rows txs ins s : same_ledger (with_rows txs ins s) s.
Proof. now repeat split. Qed.

(** A coinbase with the outputs of the descriptor, served by the node
    and indexed by [processTransaction], and the descriptor indexed by
    [processGenesisTransaction]: when both calls return they leave the
    same blocks, outputs, addresses, UTXOs and state. *)
Lemma genesis_same_path env txid h t txData input s s1 s2 :
  getTransaction (TypeORM.rpc env) txid = Ok txData ->
  tx_txid txData = txid ->
  tx_vin txData = [input] -> references_output input = None ->
  tx_vout txData = tx_vout (TypeORM.genesisTx txid) ->
  TypeORM.processTransaction env txid h t s = (Ok tt, s1) ->
  TypeORM.processGenesisTransaction env txid h t s = (Ok tt, s2) ->
  same_ledger s1 s2 /\ TypeORM.inputs s2 = TypeORM.inputs s.
Proof.
  intros Hrpc Hid Hvin Href Hvout H1 H2.
  unfold TypeORM.processTransaction in H1.
  rewrite bind_lift, Hrpc in H1.
  run_bind_as H1 Ha.
  apply saveTransaction_stored in Ha as [Hfa Ha]. rewrite Hid in Hfa.
  rewrite Hvin in H1. cbn [for_of] in H1.
  run_bind_as H1 Hb. run_bind_as Hb Hc. run_bind_as Hc Hi.
  apply saveTransactionInput_stored in Hi.
  rewrite Href in Hc.
  unfold TypeORM.processGenesisTransaction in H2.
  run_bind_as H2 Hg.
  apply saveTransaction_stored in Hg as [Hfg Hg].
  cbn [tx_txid TypeORM.genesisTx] in Hfg.
  rewrite Hvout in H1.
  cbn [tx_vout TypeORM.genesisTx for_of] in H1, H2.
  cbn [JS.or_else JS.truthy spk_address out_scriptPubKey addresses0
       spk_addresses] in H1, H2.
  injection Hc as _ <-. injection Hb as _ <-.
  assert (Hs5 : s5 = with_rows (TypeORM.transactions s0) (TypeORM.inputs s5) s6).
  { rewrite Hi, Ha, Hg. reflexivity. }
  assert (Hs6 : s6 = with_rows (TypeORM.transactions s6) (TypeORM.inputs s6) s6)
    by now destruct s6.
  assert (Hin : TypeORM.inputs s6 = TypeORM.inputs s) by now rewrite Hg.
  rewrite bind_unfold in H1, H2.
  match type of H2 with
  | context [TypeORM.process_output ?e ?x ?hh ?tt ?a ?o s6] =>
      pose proof (process_output_with_rows e x hh tt a o
                    (TypeORM.transactions s0) (TypeORM.inputs s5) s6) as Hrows;
      pose proof (process_output_with_rows e x hh tt a o
                    (TypeORM.transactions s6) (TypeORM.inputs s6) s6) as Hself;
      destruct (TypeORM.process_output e x hh tt a o s6) as [[[]|err] s7] eqn:Hp;
        [|discriminate H2]
  end.
  injection H2 as <-.
  unfold commutes in Hrows, Hself. rewrite Hp in Hrows, Hself.
  cbn [fst snd] in Hrows, Hself.
  rewrite <- Hs5 in Hrows. rewrite <- Hs6 in Hself at 1 2.
  assert (Hf5 : TypeORM.has_transaction txid s5 = true) by now rewrite Hi.
  rewrite Hrows in H1 by now rewrite Hf5, Hfg.
  injection H1 as <-.
  split; [apply same_ledger_with_rows|].
  specialize (Hself eq_refl). rewrite Hp in Hself. injection Hself as Hself.
  rewrite Hself. cbn. exact Hin.
Qed.


(** C9. At height 0, when the node rejects the request for the coinbase
    with code -5, [syncBlocks] puts the built-in descriptor in its
    place. Starting from the empty store, when the storage engine
    accepts the row of the block, of the descriptor and of its output
    and the write of the recipient's address row, the run ends normally
    with height 0 recorded; the recipient of the descriptor holds
    5,000,000,000 and owns exactly one unspent UTXO, of that value;
    the store holds the block, one transaction (the descriptor's), one
    output row, whose value column is 5000000000, and no input row.
    The descriptor goes the way of a coinbase but for its input, which
    is not written: when the node serves a coinbase with the outputs
    of the descriptor and [processTransaction] indexes it, the blocks,
    outputs, addresses, UTXOs and state are left as
    [processGenesisTransaction] leaves them. *)
Theorem genesis_coinbase_is_indexed :
  (forall env hash blockData txid,
      getBlockHash (TypeORM.rpc env) 0 = Ok hash ->
      getBlock (TypeORM.rpc env) hash = Ok blockData ->
      blk_tx blockData = [txid] ->
      getTransaction (TypeORM.rpc env) txid = Throw (RpcError (-5)) ->
      TypeORM.block_row_refused env blockData = false ->
      TypeORM.transaction_row_refused env (TypeORM.genesisTx txid) (Some 0)
        (Some (blk_time blockData)) = false ->
      TypeORM.output_row_refused env genesis_output txid = false ->
      TypeORM.address_write_fails env genesis_address = false ->
      exists s' u o,
        TypeORM.syncBlocks env 0 0 TypeORM.empty_store = (Ok tt, s')
        /\ TypeORM.addr_balance <$> TypeORM.addresses s' !! genesis_address
           = Some 5000000000
        /\ TypeORM.getUTXOsByAddress genesis_address s' = (Ok [u], s')
        /\ TypeORM.utxo_value u = 5000000000
        /\ TypeORM.state s' !! "last_processed_height" = Some "0"
        /\ TypeORM.block_hash <$> TypeORM.blocks s' = [blk_hash blockData]
        /\ TypeORM.txn_txid <$> TypeORM.transactions s' = [txid]
        /\ TypeORM.inputs s' = []
        /\ TypeORM.outputs s' = [o]
        /\ TypeORM.txout_transaction_id o = txid
        /\ TypeORM.txout_output_index o = 0
        /\ TypeORM.txout_value o = TypeORM.OfColumn (PG.Num 5000000000)
        /\ TypeORM.txout_address o = Some genesis_address)
  /\ (forall env txid blockHeight blockTime txData input s s1 s2,
         getTransaction (TypeORM.rpc env) txid = Ok txData ->
         tx_txid txData = txid ->
         tx_vin txData = [input] -> references_output input = None ->
         tx_vout txData = tx_vout (TypeORM.genesisTx txid) ->
         TypeORM.processTransaction env txid blockHeight blockTime s
         = (Ok tt, s1) ->
         TypeORM.processGenesisTransaction env txid blockHeight blockTime s
         = (Ok tt, s2) ->
         same_ledger s1 s2 /\ TypeORM.inputs s2 = TypeORM.inputs s).
Proof.
  split; [|apply genesis_same_path].
  intros env hash blockData txid.
  intros Hh Hb Htx Hrpc Hrb Hrt Hro Hf.
  unfold TypeORM.syncBlocks. rewrite heights_one. cbn [for_of].
  rewrite !bind_unfold.
  unfold TypeORM.getBlockByHeight at 1, gets at 1.
  cbn [TypeORM.blocks TypeORM.empty_store find].
  rewrite bind_lift, Hh, bind_lift, Hb, bind_unfold.
  unfold TypeORM.saveBlock at 1. rewrite !bind_unfold. unfold gets at 1.
  cbn [TypeORM.blocks TypeORM.empty_store find]. rewrite Hrb.
  rewrite !bind_unfold. unfold gets at 1.
  cbn [TypeORM.blocks TypeORM.empty_store find].
  rewrite !bind_unfold. unfold modify at 1, ret at 1.
  rewrite Htx. cbn [for_of]. rewrite !bind_unfold.
  unfold try_catch at 1.
  rewrite (processTransaction_rpc_throws _ _ _ _ _ _ Hrpc).
  cbn [TypeORM.has_code Z.eqb Pos.eqb andb].
  match goal with
  | |- context [TypeORM.processGenesisTransaction ?e ?x ?h ?t ?st] =>
      destruct (processGenesisTransaction_fresh e x h t st)
        as (s1 & Hrun & Hblocks & Hinputs & Hstate & Htxs & Houts & Haddr
            & u & Hutxo & Hua & Huv & Hus);
        [reflexivity|reflexivity|reflexivity|reflexivity|exact Hrt|exact Hro
        |exact Hf|rewrite Hrun]
  end.
  cbn [ret]. rewrite setLastProcessedHeight_writes.
  eexists. exists u. eexists. split; [reflexivity|]. cbn.
  rewrite Haddr, lookup_singleton_eq.
  split; [reflexivity|].
  split.
  { unfold TypeORM.getUTXOsByAddress, gets.
    cbn [TypeORM.utxos TypeORM.with_state].
    rewrite Hutxo, map_to_list_singleton.
    cbn [fmap list_fmap snd List.filter].
    now rewrite Hua, Hus, String.eqb_refl. }
  split; [exact Huv|].
  split; [now rewrite lookup_insert_eq|].
  split; [now rewrite Hblocks|].
  split; [exact Htxs|].
  split; [now rewrite Hinputs|].
  split; [exact Houts|].
  now repeat split.
Qed.

(** C9 on the chain of the scenario, whose node does not serve the
    genesis coinbase; and on a node that serves, for the same txid, a
    coinbase with a script of two bytes and the outputs of the
    descriptor: [processTransaction] writes its input row and
    otherwise leaves what [processGenesisTransaction] leaves. *)
Lemma genesis_coinbase_is_indexed_witness :
  (exists s' u o,
    TypeORM.syncBlocks (Scenario.env_of Scenario.chain Scenario.never) 0 0
      TypeORM.empty_store = (Ok tt, s')
    /\ TypeORM.addr_balance <$> TypeORM.addresses s' !! genesis_address
       = Some 5000000000
    /\ TypeORM.getUTXOsByAddress genesis_address s' = (Ok [u], s')
    /\ TypeORM.utxo_value u = 5000000000
    /\ TypeORM.state s' !! "last_processed_height" = Some "0"
    /\ TypeORM.block_hash <$> TypeORM.blocks s' = [blk_hash Scenario.genesis]
    /\ TypeORM.txn_txid <$> TypeORM.transactions s' = [Scenario.genesis_txid]
    /\ TypeORM.inputs s' = []
    /\ TypeORM.outputs s' = [o]
    /\ TypeORM.txout_transaction_id o = Scenario.genesis_txid
    /\ TypeORM.txout_output_index o = 0
    /\ TypeORM.txout_value o = TypeORM.OfColumn (PG.Num 5000000000)
    /\ TypeORM.txout_address o = Some genesis_address)
  /\ (let served :=
        Scenario.mk_tx Scenario.genesis_txid [Scenario.coinbase_input]
          (tx_vout (TypeORM.genesisTx Scenario.genesis_txid)) in
      let env :=
        Scenario.env_of (Scenario.node [Scenario.genesis] [served])
          Scenario.never in
      exists s1 s2,
        TypeORM.processTransaction env Scenario.genesis_txid 0 1231006505
          TypeORM.empty_store = (Ok tt, s1)
        /\ TypeORM.processGenesisTransaction env Scenario.genesis_txid 0
             1231006505 TypeORM.empty_store = (Ok tt, s2)
        /\ same_ledger s1 s2
        /\ length (TypeORM.inputs s1) = 1%nat
        /\ TypeORM.inputs s2 = []
        /\ TypeORM.addr_balance <$> TypeORM.addresses s1 !! genesis_address
           = Some 5000000000).
Proof.
  split.
  - apply (proj1 genesis_coinbase_is_indexed
             (Scenario.env_of Scenario.chain Scenario.never)
             (blk_hash Scenario.genesis) Scenario.genesis Scenario.genesis_txid);
      reflexivity.
  - cbn zeta.
    set (served := Scenario.mk_tx Scenario.genesis_txid [Scenario.coinbase_input]
                     (tx_vout (TypeORM.genesisTx Scenario.genesis_txid))).
    set (env := Scenario.env_of (Scenario.node [Scenario.genesis] [served])
                  Scenario.never).
    destruct (TypeORM.processTransaction env Scenario.genesis_txid 0 1231006505
                TypeORM.empty_store) as [[[]|e] s1] eqn:H1;
      [|vm_compute in H1; discriminate].
    destruct (TypeORM.processGenesisTransaction env Scenario.genesis_txid 0
                1231006505 TypeORM.empty_store) as [[[]|e] s2] eqn:H2;
      [|vm_compute in H2; discriminate].
    destruct (proj2 genesis_coinbase_is_indexed env Scenario.genesis_txid 0
                1231006505 served Scenario.coinbase_input TypeORM.empty_store
                s1 s2 eq_refl eq_refl eq_refl eq_refl eq_refl H1 H2)
      as [Hsame Hin].
    exists s1, s2. split; [reflexivity|]. split; [reflexivity|].
    split; [exact Hsame|].
    split; [|split; [exact Hin|]].
    + assert (Hs1 : s1 = snd (TypeORM.processTransaction env
                                Scenario.genesis_txid 0 1231006505
                                TypeORM.empty_store)) by now rewrite H1.
      rewrite Hs1. vm_compute. reflexivity.
    + assert (Hs1 : s1 = snd (TypeORM.processTransaction env
                                Scenario.genesis_txid 0 1231006505
                                TypeORM.empty_store)) by now rewrite H1.
      rewrite Hs1. vm_compute. reflexivity.
Defined.

(** ** What a method leaves alone

    [preserves R m]: the store after [m], whether it returns or
    throws, is related by [R] to the store before. For a preorder [R]
    this passes through sequencing, [try]/[catch] and loops. *)

Definition preserves {S A} (R : S -> S -> Prop) (m : M S A) : Prop :=
  forall s, R s (snd (m s)).

Section Preserves.
Context {S : Type} (R : S -> S -> Prop) `{!PreOrder R}.

Lemma preserves_ret {A} (a : A) : preserves R (ret a).
Proof. intros s. reflexivity. Qed.

Lemma preserves_throw {A} e : preserves R (@throw S A e).
Proof. intros s. reflexivity. Qed.

Lemma preserves_lift {A} (r : result A) : preserves R (lift r).
Proof. intros s. reflexivity. Qed.

Lemma preserves_gets {A} (f : S -> A) : preserves R (gets f).
Proof. intros s. reflexivity. Qed.

Lemma preserves_modify (f : S -> S) :
  (forall s, R s (f s)) -> preserves R (modify f).
Proof. intros Hf s. apply Hf. Qed.

Lemma preserves_bind {A B} (m : M S A) (k : A -> M S B) :
  preserves R m -> (forall a, preserves R (k a)) -> preserves R (bind m k).
Proof.
  intros Hm Hk s. unfold bind. specialize (Hm s).
  destruct (m s) as [[a|e] s1]; cbn in *; [|exact Hm].
  etransitivity; [exact Hm|apply Hk].
Qed.

Lemma preserves_try_catch {A} (m : M S A) h :
  preserves R m -> (forall e, preserves R (h e)) -> preserves R (try_catch m h).
Proof.
  intros Hm Hh s. unfold try_catch. specialize (Hm s).
  destruct (m s) as [[a|e] s1]; cbn in *; [exact Hm|].
  etransitivity; [exact Hm|apply Hh].
Qed.

Lemma preserves_for_of {A} (l : list A) body :
  (forall x, preserves R (body x)) -> preserves R (for_of l body).
Proof.
  intros Hb. induction l as [|x l IH]; cbn [for_of].
  - apply preserves_ret.
  - apply preserves_bind; [apply Hb|intros _; exact IH].
Qed.

Lemma preserves_for_acc {A B} (l : list A) (acc : B) body :
  (forall b x, preserves R (body b x)) -> preserves R (for_acc l acc body).
Proof.
  intros Hb. revert acc. induction l as [|x l IH]; intros acc; cbn [for_acc].
  - apply preserves_ret.
  - apply preserves_bind; [apply Hb|intros acc'; apply IH].
Qed.

End Preserves.

Lemma preserves_statement (R : Sqlite.Db -> Sqlite.Db -> Prop) `{!PreOrder R}
  check f :
  (forall db, R db (Sqlite.on_tables f db)) ->
  preserves R (Sqlite.statement check f).
Proof.
  intros Hf db. unfold Sqlite.statement.
  destruct (check _); cbn; [apply Hf|reflexivity].
Qed.

Create HintDb preserves.

Ltac preserves_step :=
  lazymatch goal with
  | |- forall _, _ => intro
  | |- preserves _ (ret _) => apply preserves_ret; try exact _
  | |- preserves _ (throw _) => apply preserves_throw; try exact _
  | |- preserves _ (lift _) => apply preserves_lift; try exact _
  | |- preserves _ (gets _) => apply preserves_gets; try exact _
  | |- preserves _ (bind _ _) => apply preserves_bind; try exact _
  | |- preserves _ (try_catch _ _) => apply preserves_try_catch; try exact _
  | |- preserves _ (for_of _ _) => apply preserves_for_of; try exact _
  | |- preserves _ (for_acc _ _ _) => apply preserves_for_acc; try exact _
  | |- preserves _ (match ?x with _ => _ end) => destruct x
  | |- preserves _ _ => solve [auto with preserves]
  end.

Ltac preserving := repeat preserves_step.

(** ** Batches and transactions *)

(** The transaction state of the connection is the same: nothing was
    begun, committed or rolled back. *)
Definition same_snapshot (db db' : Sqlite.Db) : Prop :=
  Sqlite.snapshot db' = Sqlite.snapshot db.

#[local] Instance same_snapshot_preorder : PreOrder same_snapshot.
Proof.
  split; [now intros db|].
  intros a b c Hab Hbc. unfold same_snapshot in *. congruence.
Qed.

Definition keeps_snapshot {A} (m : M Sqlite.Db A) : Prop :=
  preserves same_snapshot m.

Lemma keeps_statement check f : preserves same_snapshot (Sqlite.statement check f).
Proof. apply preserves_statement; [exact _|]. now intros db. Qed.

#[local] Hint Resolve keeps_statement : preserves.

Lemma keeps_markOutputAsSpent a b c d :
  preserves same_snapshot (Sqlite.markOutputAsSpent a b c d).
Proof. unfold Sqlite.markOutputAsSpent. preserving. Qed.

Lemma keeps_updateAddressInfo a v r h :
  preserves same_snapshot (Sqlite.updateAddressInfo a v r h).
Proof. unfold Sqlite.updateAddressInfo. preserving. Qed.

Lemma keeps_bind_integer x : preserves same_snapshot (Sqlite.bind_integer x).
Proof. unfold Sqlite.bind_integer. preserving. Qed.

Lemma keeps_getPreviousOutput t v :
  preserves same_snapshot (Sqlite.getPreviousOutput t v).
Proof. unfold Sqlite.getPreviousOutput. preserving. Qed.

Lemma keeps_insert_block h r :
  preserves same_snapshot (Sqlite.insert_or_replace_block h r).
Proof. unfold Sqlite.insert_or_replace_block. preserving. Qed.

Lemma keeps_insert_transaction t r :
  preserves same_snapshot (Sqlite.insert_or_replace_transaction t r).
Proof. unfold Sqlite.insert_or_replace_transaction. preserving. Qed.

Lemma keeps_insert_input t v r :
  preserves same_snapshot (Sqlite.insert_or_replace_input t v r).
Proof. unfold Sqlite.insert_or_replace_input. preserving. Qed.

Lemma keeps_insert_output t v r :
  preserves same_snapshot (Sqlite.insert_or_replace_output t v r).
Proof. unfold Sqlite.insert_or_replace_output. preserving. Qed.

Lemma keeps_addUTXO t v r : preserves same_snapshot (Sqlite.addUTXO t v r).
Proof. unfold Sqlite.addUTXO, Sqlite.insert_or_replace_utxo. preserving. Qed.

#[local] Hint Resolve keeps_markOutputAsSpent keeps_updateAddressInfo
  keeps_bind_integer keeps_getPreviousOutput keeps_insert_block
  keeps_insert_transaction keeps_insert_input keeps_insert_output keeps_addUTXO
  : preserves.

Lemma bitcoin_indexTransaction_keeps tx :
  preserves same_snapshot (BitcoinIndexer.indexTransaction tx).
Proof.
  unfold BitcoinIndexer.indexTransaction, BitcoinIndexer.index_input,
    BitcoinIndexer.index_output, BitcoinIndexer.update_fee.
  preserving.
Qed.

Lemma simple_indexTransaction_keeps tx :
  preserves same_snapshot (SimpleIndexer.indexTransaction tx).
Proof.
  unfold SimpleIndexer.indexTransaction, SimpleIndexer.index_input,
    SimpleIndexer.index_output, SimpleIndexer.update_fee.
  preserving.
Qed.

#[local] Hint Resolve bitcoin_indexTransaction_keeps simple_indexTransaction_keeps
  : preserves.

Lemma bitcoin_indexBlock_keeps rpc block :
  keeps_snapshot (BitcoinIndexer.indexBlock rpc block).
Proof. unfold keeps_snapshot, BitcoinIndexer.indexBlock. preserving. Qed.

Lemma simple_indexBlock_keeps rpc block :
  keeps_snapshot (SimpleIndexer.indexBlock rpc block).
Proof. unfold keeps_snapshot, SimpleIndexer.indexBlock. preserving. Qed.

Section SyncBlocksFacts.
Import Sqlite.

Variable rpc : Rpc.
Variable indexBlock : BitcoinBlock -> M Db unit.
Variable batchSize : Z.
Hypothesis indexBlock_keeps : forall block, keeps_snapshot (indexBlock block).

Lemma index_range_keeps lo hi : keeps_snapshot (index_range rpc indexBlock lo hi).
Proof.
  unfold keeps_snapshot, index_range. apply preserves_for_of; [exact _|]. intros h.
  apply preserves_bind; [exact _|apply preserves_lift; exact _|].
  exact indexBlock_keeps.
Qed.

(** The connection in which a transaction has just been opened. *)
Definition begun (db : Db) : Db :=
  {| tables := tables db; snapshot := Some (tables db) |}.

(** What the store looks like once the transaction of a batch has
    ended: committed when every block went through, as before
    otherwise. *)
Definition batch_outcome (lo hi : Z) (db : Db) : result unit * Db :=
  match index_range rpc indexBlock lo hi (begun db) with
  | (Ok _, db2) => (Ok tt, open (tables db2))
  | (Throw e, _) => (Throw e, db)
  end.

Lemma one_batch fuel lo hi db :
  snapshot db = None -> lo <= hi -> hi < lo + batchSize ->
  syncBlocks rpc indexBlock batchSize (S fuel) lo hi db
  = Some (batch_outcome lo hi db).
Proof.
  intros Hs Hlo Hhi. unfold syncBlocks. cbn [syncBlocks_from].
  destruct (Z.leb_spec lo hi) as [_|]; [|lia].
  unfold beginTransaction. rewrite Hs.
  replace (Z.min (lo + batchSize - 1) hi) with hi by lia.
  unfold batch_outcome, begun. rewrite bind_unfold.
  pose proof (index_range_keeps lo hi
                {| tables := tables db; snapshot := Some (tables db) |}) as Hk.
  destruct (index_range rpc indexBlock lo hi _) as [[[]|e] db2]; cbn in Hk.
  - unfold commit. rewrite Hk.
    destruct fuel; cbn [syncBlocks_from];
      (destruct (Z.leb_spec (lo + batchSize) hi); [lia|reflexivity]).
  - unfold rollback. rewrite Hk. destruct db as [t sn]. cbn in *. now subst sn.
Qed.

Lemma first_batch_then_rest fuel lo hi db :
  snapshot db = None -> lo + batchSize <= hi -> 1 <= batchSize ->
  syncBlocks rpc indexBlock batchSize (S fuel) lo hi db
  = match batch_outcome lo (lo + batchSize - 1) db with
    | (Ok _, db') => syncBlocks rpc indexBlock batchSize fuel (lo + batchSize) hi db'
    | (Throw e, db') => Some (Throw e, db')
    end.
Proof.
  intros Hs Hlo Hb. unfold syncBlocks. cbn [syncBlocks_from].
  destruct (Z.leb_spec lo hi) as [_|]; [|lia].
  unfold beginTransaction. rewrite Hs.
  replace (Z.min (lo + batchSize - 1) hi) with (lo + batchSize - 1) by lia.
  unfold batch_outcome, begun. rewrite bind_unfold.
  pose proof (index_range_keeps lo (lo + batchSize - 1)
                {| tables := tables db; snapshot := Some (tables db) |}) as Hk.
  destruct (index_range rpc indexBlock lo _ _) as [[[]|e] db2]; cbn in Hk.
  - unfold commit. rewrite Hk. reflexivity.
  - unfold rollback. rewrite Hk. destruct db as [t sn]. cbn in *. now subst sn.
Qed.

Lemma batch_outcome_closed lo hi db :
  snapshot db = None -> snapshot (snd (batch_outcome lo hi db)) = None.
Proof.
  intros Hs. unfold batch_outcome.
  now destruct (index_range rpc indexBlock lo hi (begun db)) as [[[]|e] db2].
Qed.

Lemma syncBlocks_finishes fuel lo hi db :
  1 <= batchSize -> snapshot db = None ->
  (hi - lo + 1 <= Z.of_nat fuel) ->
  exists r db',
    syncBlocks rpc indexBlock batchSize fuel lo hi db = Some (r, db')
    /\ snapshot db' = None.
Proof.
  intros Hb. revert lo db. induction fuel as [|fuel IH]; intros lo db Hs Hf.
  - unfold syncBlocks. cbn [syncBlocks_from].
    destruct (Z.leb_spec lo hi); [lia|]. now exists (Ok tt), db.
  - destruct (Z_lt_le_dec hi lo) as [Hlt|Hle].
    + unfold syncBlocks. cbn [syncBlocks_from].
      destruct (Z.leb_spec lo hi); [lia|]. now exists (Ok tt), db.
    + destruct (Z_lt_le_dec hi (lo + batchSize)) as [Hone|Hmore].
      * rewrite one_batch by assumption.
        pose proof (batch_outcome_closed lo hi db Hs) as Hc.
        destruct (batch_outcome lo hi db) as [r db']. now exists r, db'.
      * rewrite first_batch_then_rest by assumption.
        pose proof (batch_outcome_closed lo (lo + batchSize - 1) db Hs) as Hc.
        destruct (batch_outcome lo (lo + batchSize - 1) db) as [[[]|e] db'];
          cbn in Hc.
        -- apply IH; [exact Hc|lia].
        -- now exists (Throw e), db'.
Qed.

End SyncBlocksFacts.

(** C4, as the code has it. [syncBlocks] cuts [fromHeight..toHeight]
    into consecutive groups of [batchSize] heights and wraps each
    group, not each height, in one transaction. For a group
    [lo..hi] the blocks are fetched and indexed in increasing height;
    if all of them go through the transaction is committed, and if
    [indexBlock] or the fetch throws at any of them the ROLLBACK
    restores the store to what it was before the first block of the
    group, and the error ends the sync. Groups follow one another in
    increasing height, each starting from the store the previous one
    committed, and with [batchSize >= 1] the loop ends, leaving no
    transaction open. This holds for [BitcoinIndexer] and for
    [SimpleIndexer]. *)
Theorem syncBlocks_commits_whole_batches :
  forall rpc batchSize,
    (forall fuel lo hi db,
        Sqlite.snapshot db = None -> lo <= hi -> hi < lo + batchSize ->
        BitcoinIndexer.syncBlocks rpc batchSize (S fuel) lo hi db
        = Some (batch_outcome rpc (BitcoinIndexer.indexBlock rpc) lo hi db))
    /\ (forall fuel lo hi db,
           Sqlite.snapshot db = None -> lo + batchSize <= hi -> 1 <= batchSize ->
           BitcoinIndexer.syncBlocks rpc batchSize (S fuel) lo hi db
           = match batch_outcome rpc (BitcoinIndexer.indexBlock rpc)
                     lo (lo + batchSize - 1) db with
             | (Ok _, db') =>
                 BitcoinIndexer.syncBlocks rpc batchSize fuel (lo + batchSize) hi db'
             | (Throw e, db') => Some (Throw e, db')
             end)
    /\ (forall fuel lo hi db,
           1 <= batchSize -> Sqlite.snapshot db = None ->
           hi - lo + 1 <= Z.of_nat fuel ->
           exists r db',
             BitcoinIndexer.syncBlocks rpc batchSize fuel lo hi db = Some (r, db')
             /\ Sqlite.snapshot db' = None)
    /\ (forall fuel lo hi db,
           Sqlite.snapshot db = None -> lo <= hi -> hi < lo + batchSize ->
           SimpleIndexer.syncBlocks rpc batchSize (S fuel) lo hi db
           = Some (batch_outcome rpc (SimpleIndexer.indexBlock rpc) lo hi db))
    /\ (forall fuel lo hi db,
           Sqlite.snapshot db = None -> lo + batchSize <= hi -> 1 <= batchSize ->
           SimpleIndexer.syncBlocks rpc batchSize (S fuel) lo hi db
           = match batch_outcome rpc (SimpleIndexer.indexBlock rpc)
                     lo (lo + batchSize - 1) db with
             | (Ok _, db') =>
                 SimpleIndexer.syncBlocks rpc batchSize fuel (lo + batchSize) hi db'
             | (Throw e, db') => Some (Throw e, db')
             end)
    /\ (forall fuel lo hi db,
           1 <= batchSize -> Sqlite.snapshot db = None ->
           hi - lo + 1 <= Z.of_nat fuel ->
           exists r db',
             SimpleIndexer.syncBlocks rpc batchSize fuel lo hi db = Some (r, db')
             /\ Sqlite.snapshot db' = None).
Proof.
  intros rpc batchSize.
  pose proof (bitcoin_indexBlock_keeps rpc) as Hb.
  pose proof (simple_indexBlock_keeps rpc) as Hs.
  repeat split; intros.
  - now apply one_batch.
  - now apply first_batch_then_rest.
  - now apply syncBlocks_finishes.
  - now apply one_batch.
  - now apply first_batch_then_rest.
  - now apply syncBlocks_finishes.
Qed.

(** The amended C4 on heights 1..2 of the scenario with the default
    batch size: one group, one transaction, both blocks committed
    together. *)
Lemma syncBlocks_commits_whole_batches_witness :
  BitcoinIndexer.syncBlocks Scenario.chain 100 1 1 2
    (Sqlite.open Sqlite.empty_tables)
  = Some (batch_outcome Scenario.chain (BitcoinIndexer.indexBlock Scenario.chain)
            1 2 (Sqlite.open Sqlite.empty_tables)).
Proof.
  apply (proj1 (syncBlocks_commits_whole_batches Scenario.chain 100));
    [reflexivity|lia|lia].
Defined.

(** C4 as stated fails. Height 1 alone is indexed and committed. With
    the default batch size heights 1..3 share one transaction; the node
    has no block at height 3, and the error at that height undoes
    heights 1 and 2 as well: the store is empty again. And in
    [SimpleIndexer] a failure inside a block does not abort the block:
    indexing c1 fails when its UTXO row is refused (the address row it
    refers to does not exist yet), the error is caught, and the block
    is committed with the output row of c1 but without its UTXO and
    without any address. *)
Lemma failure_undoes_the_whole_batch :
  (exists db1,
      BitcoinIndexer.syncBlocks Scenario.chain 100 1 1 1
        (Sqlite.open Sqlite.empty_tables) = Some (Ok tt, db1)
      /\ Sqlite.has_key (Sqlite.blocks (Sqlite.committed db1)) "h1" = true)
  /\ BitcoinIndexer.syncBlocks Scenario.chain 100 1 1 3
       (Sqlite.open Sqlite.empty_tables)
     = Some (Throw (RpcError (-8)), Sqlite.open Sqlite.empty_tables)
  /\ SimpleIndexer.syncBlocks Scenario.chain 100 1 1 3
       (Sqlite.open Sqlite.empty_tables)
     = Some (Throw (RpcError (-8)), Sqlite.open Sqlite.empty_tables)
  /\ (exists db1,
         SimpleIndexer.syncBlocks Scenario.chain 100 1 1 1
           (Sqlite.open Sqlite.empty_tables) = Some (Ok tt, db1)
         /\ Sqlite.has_key (Sqlite.transaction_outputs (Sqlite.committed db1))
              ("c1", 0) = true
         /\ Sqlite.utxos (Sqlite.committed db1) = ∅
         /\ Sqlite.addresses (Sqlite.committed db1) = ∅).
Proof.
  split; [|split; [|split]].
  - eexists. split; vm_compute; reflexivity.
  - vm_compute. reflexivity.
  - vm_compute. reflexivity.
  - eexists. split; [vm_compute; reflexivity|]. repeat split; vm_compute; reflexivity.
Qed.

(** ** Fees *)

Definition sumZ (l : list Z) : Z := foldr Z.add 0 l.

(** What an input adds to [totalInput], read off the outputs table:
    the stored value of the output it refers to, nothing for a
    coinbase input or an output that is not stored. *)
Definition resolved_value (outs : gmap (string * Z) Sqlite.OutputRow)
  (input : BitcoinInput) : Z :=
  if JS.truthy (in_coinbase input) then 0
  else
    match references_output input with
    | Some k =>
        match outs !! k with
        | Some o => Sqlite.o_value o
        | None => 0
        end
    | None => 0
    end.

Definition total_input (outs : gmap (string * Z) Sqlite.OutputRow)
  (tx : BitcoinTransaction) : Z :=
  sumZ (resolved_value outs <$> tx_vin tx).

(** The integer amount of an output, [Math.round(value * 100000000)]. *)
Definition satoshis (output : BitcoinOutput) : Z :=
  match JS.integer_value (JS.Math_round (out_value output * 100000000)%float) with
  | Some z => z
  | None => 0
  end.

Definition total_output (tx : BitcoinTransaction) : Z :=
  sumZ (satoshis <$> tx_vout tx).

(** The fee column once [indexTransaction] has returned. *)
Definition stored_fee (outs : gmap (string * Z) Sqlite.OutputRow)
  (tx : BitcoinTransaction) : option Z :=
  if negb (vin0_coinbase tx) && (0 <? total_input outs tx)
  then Some (total_input outs tx - total_output tx)
  else JS.nonzero_or_null (tx_fee tx).

(** The transactions table and the value of every stored output are
    as before. *)
Definition same_values (db db' : Sqlite.Db) : Prop :=
  Sqlite.transactions (Sqlite.tables db') = Sqlite.transactions (Sqlite.tables db)
  /\ forall k,
      Sqlite.o_value <$> Sqlite.transaction_outputs (Sqlite.tables db') !! k
      = Sqlite.o_value <$> Sqlite.transaction_outputs (Sqlite.tables db) !! k.

#[local] Instance same_values_preorder : PreOrder same_values.
Proof.
  split; [now intros db|].
  intros a b c [Hab1 Hab2] [Hbc1 Hbc2]. split; [congruence|].
  intros k. now rewrite Hbc2.
Qed.

Definition same_transactions (db db' : Sqlite.Db) : Prop :=
  Sqlite.transactions (Sqlite.tables db') = Sqlite.transactions (Sqlite.tables db).

#[local] Instance same_transactions_preorder : PreOrder same_transactions.
Proof.
  split; [now intros db|].
  intros a b c Hab Hbc. unfold same_transactions in *. congruence.
Qed.

Lemma input_phase_markOutputAsSpent a b c d :
  preserves same_values (Sqlite.markOutputAsSpent a b c d).
Proof.
  unfold Sqlite.markOutputAsSpent.
  apply preserves_bind; [exact _| |intros _];
    (apply preserves_statement; [exact _|]); intros db; split; cbn;
    try reflexivity.
  intros k. rewrite lookup_alter. case_decide as Hk; [subst k|reflexivity].
  now destruct (Sqlite.transaction_outputs (Sqlite.tables db) !! (a, b)).
Qed.

Lemma input_phase_updateAddressInfo a v r h :
  preserves same_values (Sqlite.updateAddressInfo a v r h).
Proof.
  unfold Sqlite.updateAddressInfo.
  apply preserves_bind; [exact _| |intros _; destruct r];
    (apply preserves_statement; [exact _|]); intros db;
    (split; [reflexivity|intros k; reflexivity]).
Qed.

Lemma input_phase_insert_input t v r :
  preserves same_values (Sqlite.insert_or_replace_input t v r).
Proof.
  unfold Sqlite.insert_or_replace_input.
  apply preserves_statement; [exact _|]. intros db.
  split; [reflexivity|intros k; reflexivity].
Qed.

#[local] Hint Resolve input_phase_markOutputAsSpent input_phase_updateAddressInfo
  input_phase_insert_input : preserves.

Lemma input_phase_getPreviousOutput t v :
  preserves same_values (Sqlite.getPreviousOutput t v).
Proof. unfold Sqlite.getPreviousOutput. preserving. Qed.

#[local] Hint Resolve input_phase_getPreviousOutput : preserves.

Lemma bitcoin_index_input_frame tx acc entry :
  preserves same_values (BitcoinIndexer.index_input tx acc entry).
Proof. unfold BitcoinIndexer.index_input. preserving. Qed.

Lemma simple_index_input_frame tx acc entry :
  preserves same_values (SimpleIndexer.index_input tx acc entry).
Proof. unfold SimpleIndexer.index_input. preserving. Qed.

Lemma output_phase_statement check f :
  (forall t, Sqlite.transactions (f t) = Sqlite.transactions t) ->
  preserves same_transactions (Sqlite.statement check f).
Proof.
  intros Hf. apply preserves_statement; [exact _|]. intros db. apply Hf.
Qed.

Lemma output_phase_updateAddressInfo a v r h :
  preserves same_transactions (Sqlite.updateAddressInfo a v r h).
Proof.
  unfold Sqlite.updateAddressInfo.
  apply preserves_bind; [exact _| |intros _; destruct r];
    now apply output_phase_statement.
Qed.

Lemma output_phase_insert_output t v r :
  preserves same_transactions (Sqlite.insert_or_replace_output t v r).
Proof. now apply output_phase_statement. Qed.

Lemma output_phase_addUTXO t v r :
  preserves same_transactions (Sqlite.addUTXO t v r).
Proof. now apply output_phase_statement. Qed.

Lemma output_phase_bind_integer x :
  preserves same_transactions (Sqlite.bind_integer x).
Proof. unfold Sqlite.bind_integer. preserving. Qed.

#[local] Hint Resolve output_phase_updateAddressInfo output_phase_insert_output
  output_phase_addUTXO output_phase_bind_integer : preserves.

Lemma bitcoin_index_output_frame tx acc output :
  preserves same_transactions (BitcoinIndexer.index_output tx acc output).
Proof. unfold BitcoinIndexer.index_output. preserving. Qed.

Lemma simple_index_output_frame tx acc output :
  preserves same_transactions (SimpleIndexer.index_output tx acc output).
Proof. unfold SimpleIndexer.index_output. preserving. Qed.

(** A loop whose turns each add [f s x] to the accumulator, [f] being
    insensitive to what the turns change, returns the sum. *)
Lemma for_acc_total {S A} (R : S -> S -> Prop) `{!PreOrder R}
  (f : S -> A -> Z) (body : Z -> A -> M S Z) l :
  (forall acc x, preserves R (body acc x)) ->
  (forall acc x s acc' s', body acc x s = (Ok acc', s') -> acc' = acc + f s x) ->
  (forall s s' x, R s s' -> f s' x = f s x) ->
  forall acc s total s',
    for_acc l acc body s = (Ok total, s') ->
    total = acc + sumZ (f s <$> l) /\ R s s'.
Proof.
  intros Hp Hv Hf. induction l as [|x l IH]; intros acc s total s' Hrun.
  - cbn in Hrun. inversion Hrun; subst. cbn. split; [lia|reflexivity].
  - cbn [for_acc] in Hrun. rewrite bind_unfold in Hrun.
    pose proof (Hp acc x s) as HR.
    destruct (body acc x s) as [[acc1|e] s1] eqn:Hb; [|discriminate].
    cbn in HR. apply Hv in Hb. apply IH in Hrun as [Ht HR'].
    split; [|etransitivity; eassumption].
    assert (Heq : f s1 <$> l = f s <$> l)
      by (apply list_fmap_ext; intros; now apply Hf).
    rewrite Heq in Ht. subst. unfold sumZ. cbn. lia.
Qed.

Lemma resolved_value_cases outs input acc acc' (db db' : Sqlite.Db) t v :
  JS.truthy (in_coinbase input) = false ->
  references_output input = Some (t, v) ->
  match
    JS.nonzero_or_null
      (fst <$> match outs !! (t, v) with
               | Some o => Some (Sqlite.o_value o, Sqlite.o_address o)
               | None => None
               end)
  with
  | Some value => acc' = acc + value
  | None => acc' = acc
  end ->
  acc' = acc + resolved_value outs input.
Proof.
  intros Hcb Href. unfold resolved_value. rewrite Hcb, Href.
  destruct (outs !! (t, v)) as [o|]; cbn; [|lia].
  destruct (Z.eqb_spec (Sqlite.o_value o) 0); lia.
Qed.

Lemma bitcoin_index_input_adds tx acc entry db acc' db' :
  BitcoinIndexer.index_input tx acc entry db = (Ok acc', db') ->
  acc' = acc
         + resolved_value (Sqlite.transaction_outputs (Sqlite.tables db)) entry.2.
Proof.
  destruct entry as [i input]. unfold BitcoinIndexer.index_input. intros H.
  destruct (JS.truthy (in_coinbase input)) eqn:Hcb.
  - run_bind H. inversion H; subst. unfold resolved_value. cbn. rewrite Hcb. lia.
  - destruct (references_output input) as [[t v]|] eqn:Href.
    + rewrite bind_unfold in H. unfold Sqlite.getPreviousOutput at 1, gets at 1 in H.
      run_bind H. run_bind H.
      apply (resolved_value_cases _ input acc acc' db db' t v Hcb Href).
      destruct (JS.nonzero_or_null _); now inversion H.
    + inversion H; subst. unfold resolved_value. cbn. rewrite Hcb, Href. lia.
Qed.

Lemma simple_index_input_adds tx acc entry db acc' db' :
  SimpleIndexer.index_input tx acc entry db = (Ok acc', db') ->
  acc' = acc
         + resolved_value (Sqlite.transaction_outputs (Sqlite.tables db)) entry.2.
Proof.
  destruct entry as [i input]. unfold SimpleIndexer.index_input. intros H.
  destruct (JS.truthy (in_coinbase input)) eqn:Hcb.
  - run_bind H. inversion H; subst. unfold resolved_value. cbn. rewrite Hcb. lia.
  - destruct (references_output input) as [[t v]|] eqn:Href.
    + rewrite bind_unfold in H. unfold Sqlite.getPreviousOutput at 1, gets at 1 in H.
      run_bind H. run_bind H.
      apply (resolved_value_cases _ input acc acc' db db' t v Hcb Href).
      destruct (JS.nonzero_or_null _); [run_bind H|]; now inversion H.
    + inversion H; subst. unfold resolved_value. cbn. rewrite Hcb, Href. lia.
Qed.

Lemma bind_integer_value x db z db' :
  Sqlite.bind_integer x db = (Ok z, db') -> JS.integer_value x = Some z.
Proof.
  unfold Sqlite.bind_integer. destruct (JS.integer_value x); now inversion 1.
Qed.

Lemma bitcoin_index_output_adds tx acc output db acc' db' :
  BitcoinIndexer.index_output tx acc output db = (Ok acc', db') ->
  acc' = acc + satoshis output.
Proof.
  unfold BitcoinIndexer.index_output. intros H.
  run_bind H. apply bind_integer_value in Hrun.
  run_bind H. run_bind H. run_bind H.
  inversion H; subst. unfold satoshis. now rewrite Hrun.
Qed.

Lemma simple_index_output_adds tx acc output db acc' db' :
  SimpleIndexer.index_output tx acc output db = (Ok acc', db') ->
  acc' = acc + satoshis output.
Proof.
  unfold SimpleIndexer.index_output. intros H.
  run_bind H. apply bind_integer_value in Hrun.
  run_bind H. run_bind H.
  inversion H; subst. unfold satoshis. now rewrite Hrun.
Qed.

Lemma resolved_values_enumerated outs l i :
  (fun e : Z * BitcoinInput => resolved_value outs e.2) <$> Sqlite.enumerate_from i l
  = resolved_value outs <$> l.
Proof.
  revert i. induction l as [|x l IH]; intros i; cbn; [reflexivity|].
  now rewrite IH.
Qed.

Lemma update_fee_sets tx totalInput totalOutput db row :
  Sqlite.transactions (Sqlite.tables db) !! tx_txid tx = Some row ->
  exists db',
    BitcoinIndexer.update_fee tx totalInput totalOutput db = (Ok tt, db')
    /\ Sqlite.t_fee <$> Sqlite.transactions (Sqlite.tables db') !! tx_txid tx
       = Some (if negb (vin0_coinbase tx) && (0 <? totalInput)
               then Some (totalInput - totalOutput)
               else Sqlite.t_fee row).
Proof.
  intros Hrow. unfold BitcoinIndexer.update_fee.
  destruct (negb (vin0_coinbase tx) && (0 <? totalInput)).
  - eexists. split; [reflexivity|]. cbn. now rewrite lookup_alter_eq, Hrow.
  - exists db. split; [reflexivity|]. now rewrite Hrow.
Qed.

Lemma insert_transaction_ok txid row db r db' :
  Sqlite.insert_or_replace_transaction txid row db = (Ok r, db') ->
  Sqlite.transactions (Sqlite.tables db') !! txid = Some row
  /\ Sqlite.transaction_outputs (Sqlite.tables db')
     = Sqlite.transaction_outputs (Sqlite.tables db).
Proof.
  unfold Sqlite.insert_or_replace_transaction, Sqlite.statement.
  destruct (Sqlite.t_block_hash row) as [h|];
    [destruct (Sqlite.has_key _ h)|]; inversion 1; subst;
    (split; [apply lookup_insert_eq|reflexivity]).
Qed.

Lemma bitcoin_fee tx db db' :
  BitcoinIndexer.indexTransaction tx db = (Ok tt, db') ->
  Sqlite.t_fee <$> Sqlite.transactions (Sqlite.tables db') !! tx_txid tx
  = Some (stored_fee (Sqlite.transaction_outputs (Sqlite.tables db)) tx).
Proof.
  unfold BitcoinIndexer.indexTransaction. intros H.
  run_bind_as H Hins. apply insert_transaction_ok in Hins as [Hrow Houts].
  run_bind_as H Hvin.
  apply (for_acc_total same_values
           (fun s e => resolved_value (Sqlite.transaction_outputs (Sqlite.tables s)) e.2))
    in Hvin as [Hin [Htx _]].
  2: intros; apply bitcoin_index_input_frame.
  2: intros; eapply bitcoin_index_input_adds; eassumption.
  2: { intros s s' x [_ Hv]. unfold resolved_value.
       destruct (JS.truthy _); [reflexivity|].
       destruct (references_output _) as [k|]; [|reflexivity].
       specialize (Hv k).
       destruct (Sqlite.transaction_outputs (Sqlite.tables s') !! k),
         (Sqlite.transaction_outputs (Sqlite.tables s) !! k);
         cbn in Hv; congruence. }
  rewrite resolved_values_enumerated, Houts in Hin. cbn in Hin.
  run_bind_as H Hvout.
  apply (for_acc_total same_transactions (fun _ o => satoshis o))
    in Hvout as [Hout Htx'].
  2: intros; apply bitcoin_index_output_frame.
  2: intros; eapply bitcoin_index_output_adds; eassumption.
  2: reflexivity.
  cbn in Hout. unfold same_transactions in Htx'.
  match type of H with
  | BitcoinIndexer.update_fee _ ?ti ?to ?d = _ =>
      destruct (update_fee_sets tx ti to d (Sqlite.transaction_row tx))
        as (db2 & Hfee & Hlk); [now rewrite Htx', Htx|]
  end.
  rewrite Hfee in H. inversion H; subst db2. rewrite Hlk.
  unfold stored_fee, total_input, total_output. subst. reflexivity.
Qed.

Lemma simple_update_fee_sets tx totalInput totalOutput db row :
  Sqlite.transactions (Sqlite.tables db) !! tx_txid tx = Some row ->
  exists db',
    SimpleIndexer.update_fee tx totalInput totalOutput db = (Ok tt, db')
    /\ Sqlite.t_fee <$> Sqlite.transactions (Sqlite.tables db') !! tx_txid tx
       = Some (if negb (vin0_coinbase tx) && (0 <? totalInput)
               then Some (totalInput - totalOutput)
               else Sqlite.t_fee row).
Proof.
  intros Hrow. unfold SimpleIndexer.update_fee.
  destruct (negb (vin0_coinbase tx) && (0 <? totalInput)).
  - eexists. split; [reflexivity|]. cbn. now rewrite lookup_alter_eq, Hrow.
  - exists db. split; [reflexivity|]. now rewrite Hrow.
Qed.

Lemma simple_fee tx db db' :
  SimpleIndexer.indexTransaction tx db = (Ok tt, db') ->
  Sqlite.t_fee <$> Sqlite.transactions (Sqlite.tables db') !! tx_txid tx
  = Some (stored_fee (Sqlite.transaction_outputs (Sqlite.tables db)) tx).
Proof.
  unfold SimpleIndexer.indexTransaction. intros H.
  run_bind_as H Hins. apply insert_transaction_ok in Hins as [Hrow Houts].
  run_bind_as H Hvin.
  apply (for_acc_total same_values
           (fun s e => resolved_value (Sqlite.transaction_outputs (Sqlite.tables s)) e.2))
    in Hvin as [Hin [Htx _]].
  2: intros; apply simple_index_input_frame.
  2: intros; eapply simple_index_input_adds; eassumption.
  2: { intros s s' x [_ Hv]. unfold resolved_value.
       destruct (JS.truthy _); [reflexivity|].
       destruct (references_output _) as [k|]; [|reflexivity].
       specialize (Hv k).
       destruct (Sqlite.transaction_outputs (Sqlite.tables s') !! k),
         (Sqlite.transaction_outputs (Sqlite.tables s) !! k);
         cbn in Hv; congruence. }
  rewrite resolved_values_enumerated, Houts in Hin. cbn in Hin.
  run_bind_as H Hvout.
  apply (for_acc_total same_transactions (fun _ o => satoshis o))
    in Hvout as [Hout Htx'].
  2: intros; apply simple_index_output_frame.
  2: intros; eapply simple_index_output_adds; eassumption.
  2: reflexivity.
  cbn in Hout. unfold same_transactions in Htx'.
  match type of H with
  | SimpleIndexer.update_fee _ ?ti ?to ?d = _ =>
      destruct (simple_update_fee_sets tx ti to d (Sqlite.transaction_row tx))
        as (db2 & Hfee & Hlk); [now rewrite Htx', Htx|]
  end.
  rewrite Hfee in H. inversion H; subst db2. rewrite Hlk.
  unfold stored_fee, total_input, total_output. subst. reflexivity.
Qed.

Lemma saveTransaction_new_fee env txData blockHeight blockTime s tr s' :
  find (fun t => String.eqb (TypeORM.txn_txid t) (tx_txid txData))
    (TypeORM.transactions s) = None ->
  TypeORM.saveTransaction env txData blockHeight blockTime s = (Ok tr, s') ->
  TypeORM.txn_fee tr = 0 /\ TypeORM.transactions s' = TypeORM.transactions s ++ [tr].
Proof.
  intros Hnew. unfold TypeORM.saveTransaction, bind, gets. rewrite Hnew. cbn.
  destruct (TypeORM.transaction_row_refused _ _ _ _); [discriminate|].
  destruct (match JS.or_else (tx_blockhash txData) None with
            | Some h => existsb _ (TypeORM.blocks s) | None => true end);
    [|discriminate].
  cbn. inversion 1; subst. now split.
Qed.

(** C5, as the code has it. When [indexTransaction] returns, the fee
    column of the transaction holds [totalInput - totalOutput], of
    whatever sign, exactly when the transaction is not a coinbase and
    [totalInput] is positive; [totalInput] is the sum of the stored
    values of the outputs its inputs refer to (nothing for those that
    are not stored) and [totalOutput] the sum of the rounded amounts
    of its outputs, all integers. Otherwise, for a coinbase or when no
    input resolved, the column keeps what the insert wrote: the fee
    that came with the transaction, or null. This holds for
    [BitcoinIndexer] and [SimpleIndexer]; [DatabaseService] writes fee
    0 with every new transaction row. *)
Theorem fee_is_stored_when_inputs_resolve :
  (forall tx db db',
      BitcoinIndexer.indexTransaction tx db = (Ok tt, db') ->
      Sqlite.t_fee <$> Sqlite.transactions (Sqlite.tables db') !! tx_txid tx
      = Some (stored_fee (Sqlite.transaction_outputs (Sqlite.tables db)) tx))
  /\ (forall tx db db',
         SimpleIndexer.indexTransaction tx db = (Ok tt, db') ->
         Sqlite.t_fee <$> Sqlite.transactions (Sqlite.tables db') !! tx_txid tx
         = Some (stored_fee (Sqlite.transaction_outputs (Sqlite.tables db)) tx))
  /\ (forall env txData blockHeight blockTime s tr s',
         find (fun t => String.eqb (TypeORM.txn_txid t) (tx_txid txData))
           (TypeORM.transactions s) = None ->
         TypeORM.saveTransaction env txData blockHeight blockTime s = (Ok tr, s') ->
         TypeORM.txn_fee tr = 0
         /\ TypeORM.transactions s' = TypeORM.transactions s ++ [tr]).
Proof.
  split; [|split].
  - apply bitcoin_fee.
  - apply simple_fee.
  - apply saveTransaction_new_fee.
Qed.

(** The amended C5 on the transaction that spends 50 coins and pays
    out 60: the fee column holds 5,000,000,000 - 6,000,000,000. *)
Lemma fee_is_stored_when_inputs_resolve_witness :
  Sqlite.t_fee <$>
    Sqlite.transactions
      (Sqlite.tables
         (snd (BitcoinIndexer.indexTransaction
                 (Sqlite.in_block Scenario.block1 Scenario.overspend)
                 Scenario.sqlite_after_block1))) !! "t9"
  = Some (stored_fee
            (Sqlite.transaction_outputs (Sqlite.tables Scenario.sqlite_after_block1))
            (Sqlite.in_block Scenario.block1 Scenario.overspend)).
Proof.
  apply (proj1 fee_is_stored_when_inputs_resolve
           (Sqlite.in_block Scenario.block1 Scenario.overspend)
           Scenario.sqlite_after_block1).
  vm_compute. reflexivity.
Defined.

(** C5 as stated fails. Block 2 spends the 50 coins of c1 and pays out
    60; both SQLite indexers commit the block and store a fee of
    -1,000,000,000. And the transaction of the other block 2, whose
    input refers to an output that is not stored, is not a coinbase yet
    gets no fee at all. *)
Lemma negative_fee_is_stored :
  (exists db',
      BitcoinIndexer.syncBlocks Scenario.chain_overspend 100 1 2 2
        Scenario.sqlite_after_block1 = Some (Ok tt, db')
      /\ Sqlite.t_fee <$> Sqlite.transactions (Sqlite.committed db') !! "t9"
         = Some (Some (-1000000000)))
  /\ (exists db',
         SimpleIndexer.syncBlocks Scenario.chain_overspend 100 1 2 2
           Scenario.sqlite_after_block1 = Some (Ok tt, db')
         /\ Sqlite.t_fee <$> Sqlite.transactions (Sqlite.committed db') !! "t9"
            = Some (Some (-1000000000)))
  /\ (exists db',
         BitcoinIndexer.syncBlocks Scenario.chain 100 1 2 2
           Scenario.sqlite_after_block1 = Some (Ok tt, db')
         /\ vin0_coinbase Scenario.orphan_spend = false
         /\ Sqlite.t_fee <$> Sqlite.transactions (Sqlite.committed db') !! "t2"
            = Some None).
Proof.
  split; [|split]; eexists; (split; [vm_compute; reflexivity|]);
    repeat split; vm_compute; reflexivity.
Qed.

(** ** Amounts *)

(** The column of a number that is not NaN holds an integer. *)
Lemma numeric_of_number x v :
  PG.numeric_20_0 x = Some v -> Prim2SF x <> S754_nan -> exists z, v = PG.Num z.
Proof.
  unfold PG.numeric_20_0. destruct (Prim2SF x) as [s|s| |s m e].
  - intros [= <-] _. now eexists.
  - discriminate.
  - congruence.
  - destruct (0 <=? e).
    + destruct (10 ^ 20 <=? _); [discriminate|]. intros [= <-] _. now eexists.
    + intros [= <-] _. now eexists.
Qed.

Lemma saveTransactionOutput_stores env output txid s o s' :
  TypeORM.saveTransactionOutput env output txid s = (Ok o, s') ->
  (s' = s /\ o ∈ TypeORM.outputs s)
  \/ exists v,
       PG.numeric_20_0 (out_value output * 100000000)%float = Some v
       /\ TypeORM.outputs s' = TypeORM.outputs s ++ [TypeORM.stored_as v o]
       /\ TypeORM.txout_value o
          = TypeORM.OfNumber (out_value output * 100000000)%float.
Proof.
  unfold TypeORM.saveTransactionOutput.
  rewrite bind_unfold. unfold gets at 1. cbn beta iota.
  destruct (find _ (TypeORM.outputs s)) as [x|] eqn:Hf.
  - intros [= <- <-]. left. split; [reflexivity|].
    apply find_some in Hf as [Hin _]. now apply list_elem_of_In.
  - destruct (PG.numeric_20_0 _) as [v|]; [|discriminate].
    destruct (TypeORM.output_row_refused env output txid); [discriminate|].
    rewrite bind_unfold. unfold gets at 1. cbn beta iota.
    destruct (TypeORM.has_transaction txid s); [|discriminate].
    intros [= <- <-]. right. exists v. now repeat split.
Qed.

Lemma credit_output_value env txid h t a output s s' :
  JS.truthy (Some a) = true ->
  TypeORM.utxos s !! (txid, out_n output) = None ->
  TypeORM.credit_output env txid h t (Some a) output s = (Ok tt, s') ->
  exists u,
    TypeORM.utxos s' !! (txid, out_n output) = Some u
    /\ JS.integer_value (JS.Math_round (out_value output * 100000000)%float)
       = Some (TypeORM.utxo_value u).
Proof.
  intros Ht Hn. unfold TypeORM.credit_output. rewrite Ht, bind_lift.
  unfold BigInt.
  destruct (JS.integer_value _) as [z|]; [|discriminate].
  rewrite bind_unfold.
  assert (Hkeep : TypeORM.utxos (snd (TypeORM.updateAddressBalance env a z true s))
                  = TypeORM.utxos s).
  { destruct (TypeORM.address_write_fails env a) eqn:Hf.
    - now rewrite updateAddressBalance_fails.
    - now rewrite updateAddressBalance_writes. }
  destruct (updateAddressBalance_returns env a z true s) as (s1 & Hs1).
  rewrite Hs1 in *. cbn [snd] in Hkeep.
  rewrite bind_unfold.
  match goal with
  | |- context [TypeORM.saveUTXO ?ev ?a ?b ?c ?d ?e ?f ?g ?st] =>
      destruct (saveUTXO_fresh ev a b c d e f g st) as (u & Hrun & Hua & Huv & Hus);
        [now rewrite Hkeep|rewrite Hrun]
  end.
  intros [= <-]. exists u. cbn. rewrite lookup_insert_eq. split; [reflexivity|].
  now rewrite Huv.
Qed.

Lemma values_addUTXO t v r : preserves same_values (Sqlite.addUTXO t v r).
Proof.
  apply preserves_statement; [exact _|]. intros db.
  split; [reflexivity|intros k; reflexivity].
Qed.

#[local] Hint Resolve values_addUTXO : preserves.

Lemma insert_output_value txid vout row db db' :
  Sqlite.insert_or_replace_output txid vout row db = (Ok tt, db') ->
  Sqlite.o_value <$> Sqlite.transaction_outputs (Sqlite.tables db') !! (txid, vout)
  = Some (Sqlite.o_value (row (Sqlite.clock (Sqlite.tables db)))).
Proof.
  unfold Sqlite.insert_or_replace_output, Sqlite.statement.
  destruct (Sqlite.has_key _ _); [|discriminate].
  intros [= <-]. cbn. now rewrite lookup_insert_eq.
Qed.

Lemma bind_integer_reads x db r db' :
  Sqlite.bind_integer x db = (r, db') -> db' = db.
Proof.
  unfold Sqlite.bind_integer. destruct (JS.integer_value x); now intros [= _ <-].
Qed.

Ltac values_kept H :=
  lazymatch type of H with
  | ?m ?d = (_, ?d') =>
      let P := fresh "Hkept" in
      assert (P : same_values d d');
      [let Q := fresh in
       assert (Q : preserves same_values m) by preserving;
       specialize (Q d); now rewrite H in Q
      |]
  end.

Lemma bitcoin_index_output_value tx acc output db acc' db' :
  BitcoinIndexer.index_output tx acc output db = (Ok acc', db') ->
  JS.integer_value (JS.Math_round (out_value output * 100000000)%float)
  = Some (satoshis output)
  /\ Sqlite.o_value
       <$> Sqlite.transaction_outputs (Sqlite.tables db')
             !! (tx_txid tx, out_n output)
     = Some (satoshis output).
Proof.
  unfold BitcoinIndexer.index_output. intros H.
  run_bind_as H Hz. pose proof (bind_integer_value _ _ _ _ Hz) as Hval.
  apply bind_integer_reads in Hz. subst.
  run_bind_as H Hins. run_bind_as H Hadd. run_bind_as H Hupd.
  injection H as _ <-.
  values_kept Hadd. values_kept Hupd.
  unfold satoshis. rewrite Hval. split; [reflexivity|].
  destruct Hkept as [_ H1]. destruct Hkept0 as [_ H2].
  rewrite H2, H1.
  now match type of Hins with
      | _ _ _ _ _ = (Ok ?u, _) => destruct u; rewrite (insert_output_value _ _ _ _ _ Hins)
      end.
Qed.

Lemma simple_index_output_value tx acc output db acc' db' :
  SimpleIndexer.index_output tx acc output db = (Ok acc', db') ->
  JS.integer_value (JS.Math_round (out_value output * 100000000)%float)
  = Some (satoshis output)
  /\ Sqlite.o_value
       <$> Sqlite.transaction_outputs (Sqlite.tables db')
             !! (tx_txid tx, out_n output)
     = Some (satoshis output).
Proof.
  unfold SimpleIndexer.index_output. intros H.
  run_bind_as H Hz. pose proof (bind_integer_value _ _ _ _ Hz) as Hval.
  apply bind_integer_reads in Hz. subst.
  run_bind_as H Hins. run_bind_as H Hadd.
  injection H as _ <-.
  values_kept Hadd.
  unfold satoshis. rewrite Hval. split; [reflexivity|].
  destruct Hkept as [_ H1].
  rewrite H1.
  now match type of Hins with
      | _ _ _ _ _ = (Ok ?u, _) => destruct u; rewrite (insert_output_value _ _ _ _ _ Hins)
      end.
Qed.

(** C8. The value kept for an output is an integer. In the TypeORM
    store [saveTransactionOutput] hands the storage engine the decimal
    expansion of [value * 100000000], unrounded, and that is what the
    entity it returns goes on holding; the [numeric(20,0)] column
    rounds it, so the row of the table holds an integer (and the
    special value NaN only if the product is NaN); the UTXO row holds
    [BigInt(Math.round(value * 100000000))]. In the SQLite tables the
    output row written by either [indexTransaction] for a finite
    amount holds [Math.round(value * 100000000)], an integer. *)
Theorem stored_output_value_is_an_integer :
  (forall env output txid s o s',
      TypeORM.saveTransactionOutput env output txid s = (Ok o, s') ->
      (s' = s /\ o ∈ TypeORM.outputs s)
      \/ exists v,
           PG.numeric_20_0 (out_value output * 100000000)%float = Some v
           /\ TypeORM.outputs s' = TypeORM.outputs s ++ [TypeORM.stored_as v o]
           /\ TypeORM.txout_value (TypeORM.stored_as v o) = TypeORM.OfColumn v
           /\ TypeORM.txout_value o
              = TypeORM.OfNumber (out_value output * 100000000)%float
           /\ (Prim2SF (out_value output * 100000000)%float <> S754_nan ->
               exists z, v = PG.Num z))
  /\ (forall env txid blockHeight blockTime a output s s',
         JS.truthy (Some a) = true ->
         TypeORM.utxos s !! (txid, out_n output) = None ->
         TypeORM.credit_output env txid blockHeight blockTime (Some a) output s
         = (Ok tt, s') ->
         exists u,
           TypeORM.utxos s' !! (txid, out_n output) = Some u
           /\ JS.integer_value
                (JS.Math_round (out_value output * 100000000)%float)
              = Some (TypeORM.utxo_value u))
  /\ (forall tx totalOutput output db totalOutput' db',
         JS.isFinite (out_value output * 100000000)%float = true ->
         BitcoinIndexer.index_output tx totalOutput output db
         = (Ok totalOutput', db')
         \/ SimpleIndexer.index_output tx totalOutput output db
            = (Ok totalOutput', db') ->
         exists z,
           JS.integer_value
             (JS.Math_round (out_value output * 100000000)%float) = Some z
           /\ Sqlite.o_value
                <$> Sqlite.transaction_outputs (Sqlite.tables db')
                      !! (tx_txid tx, out_n output)
              = Some z).
Proof.
  split; [|split].
  - intros env output txid s o s' Hrun.
    destruct (saveTransactionOutput_stores env output txid s o s' Hrun)
      as [Hsame|(v & Hv & Hrows & Hentity)]; [now left|].
    right. exists v. repeat split; try assumption.
    intros Hnan. now apply (numeric_of_number _ v Hv).
  - apply credit_output_value.
  - intros tx acc output db acc' db' _ [Hrun|Hrun]; exists (satoshis output).
    + now apply (bitcoin_index_output_value tx acc output db acc' db').
    + now apply (simple_index_output_value tx acc output db acc' db').
Qed.

(** C8 on an output of 0.07 coins of a stored transaction. The product
    [0.07 * 100000000] is 7516192768000001 / 2^30, a little more than
    7000000: the entity returned holds it as it is, the row of the
    table holds 7000000, and so do the UTXO row and the row that
    [BitcoinIndexer] writes to the SQLite table. *)
Lemma stored_output_value_is_an_integer_witness :
  (let env := Scenario.env_of Scenario.chain Scenario.never in
   let s :=
     snd (TypeORM.saveTransaction env
            (Scenario.mk_tx "t" [] [Scenario.seven_cents])
            None None TypeORM.empty_store) in
   exists o s',
     TypeORM.saveTransactionOutput env Scenario.seven_cents "t" s = (Ok o, s')
     /\ Prim2SF (out_value Scenario.seven_cents * 100000000)%float
        = S754_finite false 7516192768000001 (-30)
     /\ TypeORM.txout_value o
        = TypeORM.OfNumber (out_value Scenario.seven_cents * 100000000)%float
     /\ TypeORM.txout_value <$> TypeORM.outputs s'
        = [TypeORM.OfColumn (PG.Num 7000000)]
     /\ BigInt (JS.Math_round (out_value Scenario.seven_cents * 100000000)%float)
        = Ok 7000000)
  /\ (let tx :=
        Sqlite.in_block Scenario.block1
          (Scenario.mk_tx "t" [Scenario.spend "c1" 0] [Scenario.seven_cents]) in
      let db :=
        snd (Sqlite.insert_or_replace_transaction "t" (Sqlite.transaction_row tx)
               Scenario.sqlite_after_block1) in
      exists total db',
        BitcoinIndexer.index_output tx 0 Scenario.seven_cents db
        = (Ok total, db')
        /\ Sqlite.o_value
             <$> Sqlite.transaction_outputs (Sqlite.tables db') !! ("t", 0)
           = Some 7000000).
Proof.
  split.
  2: { cbn zeta.
       set (tx := Sqlite.in_block Scenario.block1
                    (Scenario.mk_tx "t" [Scenario.spend "c1" 0]
                       [Scenario.seven_cents])).
       set (db := snd (Sqlite.insert_or_replace_transaction "t"
                         (Sqlite.transaction_row tx)
                         Scenario.sqlite_after_block1)).
       destruct (BitcoinIndexer.index_output tx 0 Scenario.seven_cents db)
         as [[total|e] db'] eqn:Hrun; [|vm_compute in Hrun; discriminate].
       exists total, db'. split; [reflexivity|].
       destruct (proj2 (proj2 stored_output_value_is_an_integer) tx 0
                   Scenario.seven_cents db total db' eq_refl (or_introl Hrun))
         as (z & Hz & Hrow).
       change (tx_txid tx, out_n Scenario.seven_cents) with ("t", 0) in Hrow.
       rewrite Hrow. f_equal.
       assert (Hc : JS.integer_value
                      (JS.Math_round
                         (out_value Scenario.seven_cents * 100000000)%float)
                    = Some 7000000) by (vm_compute; reflexivity).
       rewrite Hc in Hz. now injection Hz. }
  cbn zeta.
  set (env := Scenario.env_of Scenario.chain Scenario.never).
  set (s := snd (TypeORM.saveTransaction env
                   (Scenario.mk_tx "t" [] [Scenario.seven_cents]) None None
                   TypeORM.empty_store)).
  destruct (TypeORM.saveTransactionOutput env Scenario.seven_cents "t" s)
    as [[o|e] s'] eqn:Hrun; [|vm_compute in Hrun; discriminate].
  exists o, s'. split; [reflexivity|].
  split; [vm_compute; reflexivity|].
  destruct (proj1 stored_output_value_is_an_integer env Scenario.seven_cents
              "t" s o s' Hrun)
    as [[_ Hin]|(v & Hv & Hrows & _ & Hentity & _)].
  - vm_compute in Hin. inversion Hin.
  - split; [exact Hentity|]. split; [|vm_compute; reflexivity].
    rewrite Hrows.
    assert (Hc : PG.numeric_20_0 (out_value Scenario.seven_cents * 100000000)%float
                 = Some (PG.Num 7000000)) by (vm_compute; reflexivity).
    rewrite Hc in Hv. injection Hv as <-. reflexivity.
Defined.

(** ** The balance invariant of the TypeORM store *)

(** What an output contributes to the unspent total of an address. *)
Definition unspent_value (a : string) (u : TypeORM.UTXO) : Z :=
  if String.eqb (TypeORM.utxo_address u) a && negb (TypeORM.utxo_is_spent u)
  then TypeORM.utxo_value u
  else 0.

(** The sum of the values of the unspent UTXO rows of an address. *)
Definition unspent_sum (m : gmap (string * Z) TypeORM.UTXO) (a : string) : Z :=
  sumZ (unspent_value a <$> (map_to_list m).*2).

(** The stored balance of an address, 0 when it has no row. *)
Definition balance_of (s : TypeORM.Store) (a : string) : Z :=
  match TypeORM.addresses s !! a with
  | Some r => TypeORM.addr_balance r
  | None => 0
  end.

Definition balances_match (s : TypeORM.Store) : Prop :=
  forall a, balance_of s a = unspent_sum (TypeORM.utxos s) a.

Definition totals_consistent (s : TypeORM.Store) : Prop :=
  forall a r,
    TypeORM.addresses s !! a = Some r ->
    TypeORM.addr_total_received r - TypeORM.addr_total_sent r
    = TypeORM.addr_balance r.

#[local] Instance sumZ_perm : Proper (Permutation ==> eq) sumZ.
Proof.
  intros l l' Hp. induction Hp; unfold sumZ in *; cbn; try lia.
Qed.

Lemma sumZ_app l l' : sumZ (l ++ l') = sumZ l + sumZ l'.
Proof. unfold sumZ. induction l; cbn; lia. Qed.

(** [unspent_sum] is the total of what [getUTXOsByAddress] returns. *)
Lemma unspent_sum_is_query a s :
  match TypeORM.getUTXOsByAddress a s with
  | (Ok l, _) => sumZ (TypeORM.utxo_value <$> l) = unspent_sum (TypeORM.utxos s) a
  | (Throw _, _) => False
  end.
Proof.
  unfold TypeORM.getUTXOsByAddress, gets, unspent_sum.
  induction ((map_to_list (TypeORM.utxos s)).*2) as [|u l IH]; [reflexivity|].
  cbn. unfold unspent_value at 1.
  destruct (_ && _); cbn; unfold sumZ in *; cbn; lia.
Qed.




(** Both invariants together. *)
Definition ledger_ok (s : TypeORM.Store) : Prop :=
  balances_match s /\ totals_consistent s.

(** No UTXO key is new except, possibly, those in [K]. *)
Definition adds_within (K : string * Z -> Prop) (s s' : TypeORM.Store) : Prop :=
  forall k, TypeORM.utxos s !! k = None -> ~ K k -> TypeORM.utxos s' !! k = None.

(** No key of [K] is in the UTXO table. *)
Definition fresh (K : string * Z -> Prop) (s : TypeORM.Store) : Prop :=
  forall k, K k -> TypeORM.utxos s !! k = None.

(** Addresses and UTXOs are the same. *)
Definition same_accounts (s s' : TypeORM.Store) : Prop :=
  TypeORM.addresses s' = TypeORM.addresses s
  /\ TypeORM.utxos s' = TypeORM.utxos s.

#[local] Instance same_accounts_preorder : PreOrder same_accounts.
Proof.
  split; [now intros s|].
  intros a b c [? ?] [? ?]. split; congruence.
Qed.



(** The ledger stays sound and no UTXO key is added. *)
Definition no_new_keys (s s' : TypeORM.Store) : Prop :=
  (ledger_ok s -> ledger_ok s') /\ adds_within (fun _ => False) s s'.

#[local] Instance no_new_keys_preorder : PreOrder no_new_keys.
Proof.
  split.
  - intros s. split; [tauto|now intros k].
  - intros a b c [Hab Kab] [Hbc Kbc]. split; [tauto|].
    intros k Hk Hf. apply Kbc; [now apply Kab|exact Hf].
Qed.


Lemma saveBlock_accounts env b :
  preserves same_accounts (TypeORM.saveBlock env b).
Proof.
  unfold TypeORM.saveBlock. preserving.
  apply preserves_modify. now intros s.
Qed.

Lemma saveTransaction_accounts env tx h t :
  preserves same_accounts (TypeORM.saveTransaction env tx h t).
Proof.
  unfold TypeORM.saveTransaction. preserving.
  apply preserves_modify. now intros s.
Qed.

Lemma saveTransactionInput_accounts env i t :
  preserves same_accounts (TypeORM.saveTransactionInput env i t).
Proof.
  unfold TypeORM.saveTransactionInput. preserving.
  apply preserves_modify. now intros s.
Qed.

Lemma saveTransactionOutput_accounts env o t :
  preserves same_accounts (TypeORM.saveTransactionOutput env o t).
Proof.
  unfold TypeORM.saveTransactionOutput. preserving.
  apply preserves_modify. now intros s.
Qed.

Lemma setLastProcessedHeight_accounts h :
  preserves same_accounts (TypeORM.setLastProcessedHeight h).
Proof.
  intros s. now rewrite setLastProcessedHeight_writes.
Qed.

(** *** Credits and debits *)

Section Ledger.
Variable env : TypeORM.Env.
Hypothesis writes_succeed : forall a, TypeORM.address_write_fails env a = false.


Lemma totals_after_update a v r s :
  totals_consistent s ->
  totals_consistent
    (TypeORM.with_addresses
       (fun m => <[a := TypeORM.apply_change (row_or_new s a) v r]> m) s).
Proof.
  intros Ht b row. cbn.
  destruct (decide (a = b)) as [->|Hne].
  - rewrite lookup_insert_eq. intros [= <-]. unfold row_or_new.
    destruct (TypeORM.addresses s !! b) as [r0|] eqn:Hb.
    + specialize (Ht b r0 Hb). destruct r; cbn; lia.
    + destruct r; cbn; lia.
  - rewrite lookup_insert_ne by exact Hne. apply Ht.
Qed.



End Ledger.

Section Spending.
Variable env : TypeORM.Env.
Hypothesis writes_succeed : forall a, TypeORM.address_write_fails env a = false.


(** *** Loops over items that each own their UTXO keys *)

Section Tagged.
Context {A : Type}.
Variable tag : A -> string * Z -> Prop.
Variable body : A -> M TypeORM.Store unit.
Variable good : A -> Prop.



Hypothesis step :
  forall x s,
    good x -> ledger_ok s -> fresh (tag x) s ->
    ledger_ok (snd (body x s)) /\ adds_within (tag x) s (snd (body x s)).


End Tagged.

End Spending.

(** *** Methods that always return, and what the others throw *)

Definition returns {S A} (m : M S A) : Prop :=
  forall s, exists a s', m s = (Ok a, s').





Lemma returns_bind {S A B} (m : M S A) (k : A -> M S B) :
  returns m -> (forall a, returns (k a)) -> returns (bind m k).
Proof.
  intros Hm Hk s. rewrite bind_unfold.
  destruct (Hm s) as (a & s1 & ->). apply Hk.
Qed.

Lemma returns_for_of {S A} (l : list A) (body : A -> M S unit) :
  (forall x, returns (body x)) -> returns (for_of l body).
Proof.
  intros Hb. induction l as [|x l IH]; cbn [for_of].
  - intros s. now exists tt, s.
  - apply returns_bind; [apply Hb|intros _; exact IH].
Qed.











Lemma saveUTXO_returns env a b c d e f g : returns (TypeORM.saveUTXO env a b c d e f g).
Proof.
  intros s. unfold TypeORM.saveUTXO, bind, gets, modify, ret.
  destruct (_ !! _); eexists; eexists; reflexivity.
Qed.

Lemma updateAddressBalance_returns' env a v r :
  returns (TypeORM.updateAddressBalance env a v r).
Proof.
  intros s. destruct (updateAddressBalance_returns env a v r s) as [s' H].
  now exists tt, s'.
Qed.



Lemma preserves_weaken {S A} (R R' : S -> S -> Prop) (m : M S A) :
  (forall s s', R s s' -> R' s s') -> preserves R m -> preserves R' m.
Proof. intros HR Hm s. apply HR, Hm. Qed.

(** *** One transaction *)

Section Transactions.
Variable env : TypeORM.Env.
Hypothesis writes_succeed : forall a, TypeORM.address_write_fails env a = false.




(** Every turn of the loop over the txids of a block: the [try] around
    [processTransaction] and the genesis fallback in its [catch]. *)
Definition transaction_turn (height blockTime : Z) (txid : string)
  : M TypeORM.Store unit :=
  try_catch (TypeORM.processTransaction env txid height blockTime)
    (fun error =>
       if TypeORM.has_code error (-5) && (height =? 0)
       then TypeORM.processGenesisTransaction env txid height blockTime
       else ret tt).




End Transactions.

(** *** Blocks and ranges of heights *)

Section Heights.
Variable env : TypeORM.Env.
Hypothesis writes_succeed : forall a, TypeORM.address_write_fails env a = false.



(** The body of the loop of [syncBlocks]. *)
Definition height_turn (height : Z) : M TypeORM.Store unit :=
  let* existingBlock := TypeORM.getBlockByHeight height in
  match existingBlock with
  | Some _ => TypeORM.setLastProcessedHeight height
  | None =>
      let* blockHash := lift (getBlockHash (TypeORM.rpc env) height) in
      let* blockData := lift (getBlock (TypeORM.rpc env) blockHash) in
      let* _ := TypeORM.saveBlock env blockData in
      let* _ :=
        for_of (blk_tx blockData)
          (transaction_turn env height (blk_time blockData)) in
      TypeORM.setLastProcessedHeight height
  end.

Lemma syncBlocks_is_loop lo hi :
  TypeORM.syncBlocks env lo hi = for_of (heights lo hi) height_turn.
Proof. reflexivity. Qed.






End Heights.

(** *** [total_received - total_sent = balance], with or without
    refused writes *)

Definition keeps_totals (s s' : TypeORM.Store) : Prop :=
  totals_consistent s -> totals_consistent s'.

#[local] Instance keeps_totals_preorder : PreOrder keeps_totals.
Proof.
  split; [now intros s|]. intros a b c Hab Hbc H. now apply Hbc, Hab.
Qed.

Lemma same_accounts_totals s s' : same_accounts s s' -> keeps_totals s s'.
Proof. intros [Ha _] Ht a r. rewrite Ha. apply Ht. Qed.

Section Totals.
Variable env : TypeORM.Env.

Lemma totals_saveBlock b : preserves keeps_totals (TypeORM.saveBlock env b).
Proof.
  eapply preserves_weaken; [apply same_accounts_totals|apply saveBlock_accounts].
Qed.

Lemma totals_saveTransaction tx h t :
  preserves keeps_totals (TypeORM.saveTransaction env tx h t).
Proof.
  eapply preserves_weaken;
    [apply same_accounts_totals|apply saveTransaction_accounts].
Qed.

Lemma totals_saveTransactionInput i t :
  preserves keeps_totals (TypeORM.saveTransactionInput env i t).
Proof.
  eapply preserves_weaken;
    [apply same_accounts_totals|apply saveTransactionInput_accounts].
Qed.

Lemma totals_saveTransactionOutput o t :
  preserves keeps_totals (TypeORM.saveTransactionOutput env o t).
Proof.
  eapply preserves_weaken;
    [apply same_accounts_totals|apply saveTransactionOutput_accounts].
Qed.

Lemma totals_setLastProcessedHeight h :
  preserves keeps_totals (TypeORM.setLastProcessedHeight h).
Proof.
  eapply preserves_weaken;
    [apply same_accounts_totals|apply setLastProcessedHeight_accounts].
Qed.

Lemma totals_getBlockByHeight h :
  preserves keeps_totals (TypeORM.getBlockByHeight h).
Proof. unfold TypeORM.getBlockByHeight. apply preserves_gets. exact _. Qed.

Lemma totals_getUTXO t v :
  preserves keeps_totals (TypeORM.getUTXOByTxidAndIndex t v).
Proof. unfold TypeORM.getUTXOByTxidAndIndex. apply preserves_gets. exact _. Qed.

Lemma totals_updateAddressBalance a v r :
  preserves keeps_totals (TypeORM.updateAddressBalance env a v r).
Proof.
  intros s. destruct (TypeORM.address_write_fails env a) eqn:Hf.
  - rewrite updateAddressBalance_fails by exact Hf. reflexivity.
  - rewrite updateAddressBalance_writes by exact Hf. cbn.
    intros Ht. now apply totals_after_update.
Qed.

Lemma totals_saveUTXO a b c d e f g :
  preserves keeps_totals (TypeORM.saveUTXO env a b c d e f g).
Proof.
  intros s. unfold TypeORM.saveUTXO, bind, gets, modify, ret.
  destruct (_ !! _); cbn; now intros Ht.
Qed.

Lemma totals_spendUTXO a b c d e :
  preserves keeps_totals (TypeORM.spendUTXO env a b c d e).
Proof. intros s Ht. exact Ht. Qed.

#[local] Hint Resolve totals_saveBlock totals_saveTransaction
  totals_saveTransactionInput totals_saveTransactionOutput
  totals_setLastProcessedHeight totals_getBlockByHeight totals_getUTXO
  totals_updateAddressBalance totals_saveUTXO totals_spendUTXO : preserves.

Lemma totals_processInputSpending i t h :
  preserves keeps_totals (TypeORM.processInputSpending env i t h).
Proof. unfold TypeORM.processInputSpending. preserving. Qed.

Lemma totals_process_output txid h t address output :
  preserves keeps_totals (TypeORM.process_output env txid h t address output).
Proof. unfold TypeORM.process_output, TypeORM.credit_output. preserving. Qed.

#[local] Hint Resolve totals_processInputSpending totals_process_output
  : preserves.

Lemma totals_processTransaction txid h t :
  preserves keeps_totals (TypeORM.processTransaction env txid h t).
Proof. unfold TypeORM.processTransaction. preserving. Qed.

Lemma totals_processGenesisTransaction txid h t :
  preserves keeps_totals (TypeORM.processGenesisTransaction env txid h t).
Proof. unfold TypeORM.processGenesisTransaction. preserving. Qed.

#[local] Hint Resolve totals_processTransaction totals_processGenesisTransaction
  : preserves.


End Totals.

(** *** Recounting from the UTXO table *)

Section Recount.
Import TypeORM.





Definition field (f : Stats -> Z) (stats : gmap string Stats) (a : string) : Z :=
  match stats !! a with
  | Some st => f st
  | None => 0
  end.






End Recount.

Section RecountRun.
Import TypeORM.

Variable env : Env.
Hypothesis writes_succeed : forall a, address_write_fails env a = false.





(** A loop of [addressRepo.update] statements. *)
Lemma update_loop {A} (key : A -> string) (f : A -> Address -> Address)
  (body : A -> M Store unit) (l : list A) :
  (forall x, body x = addressRepo_update env (key x) (f x)) ->
  forall s, exists s',
    for_of l body s = (Ok tt, s')
    /\ addresses s'
       = fold_left (fun m x => alter (f x) (key x) m) l (addresses s)
    /\ utxos s' = utxos s.
Proof.
  intros Hbody. induction l as [|x l IH]; intros s.
  - exists s. now cbn.
  - cbn [for_of fold_left]. rewrite bind_unfold, Hbody.
    unfold addressRepo_update. rewrite writes_succeed.
    unfold modify. cbn.
    destruct (IH (with_addresses (alter (f x) (key x)) s)) as (s' & Hrun & Ha & Hu).
    exists s'. now rewrite Hrun, Ha, Hu.
Qed.

Lemma alters_elsewhere {A} (key : A -> string) (f : A -> Address -> Address)
  (l : list A) a : forall m : gmap string Address,
  (forall x, x ∈ l -> key x <> a) ->
  fold_left (fun m x => alter (f x) (key x) m) l m !! a = m !! a.
Proof.
  induction l as [|x l IH]; intros m Hne; [reflexivity|].
  cbn [fold_left]. rewrite IH.
  - apply lookup_alter_ne, Hne. left.
  - intros y Hy. apply Hne. now right.
Qed.

Lemma alters_here {A} (key : A -> string) (f : A -> Address -> Address)
  (row : Address) (l : list A) a : forall m : gmap string Address,
  (forall x r, x ∈ l -> key x = a -> f x r = row) ->
  (exists x, x ∈ l /\ key x = a) ->
  fold_left (fun m x => alter (f x) (key x) m) l m !! a
  = (fun _ => row) <$> m !! a.
Proof.
  induction l as [|x l IH]; intros m Hrow (y & Hy & Hya).
  - inversion Hy.
  - cbn [fold_left].
    destruct (decide (a ∈ key <$> l)) as [Hin|Hout].
    + apply list_elem_of_fmap in Hin as (z & Hz & Hzl).
      rewrite IH.
      * rewrite lookup_alter. case_decide as Hk; [|reflexivity].
        rewrite Hk. destruct (m !! a); reflexivity.
      * intros w r Hw. apply Hrow. now right.
      * exists z. split; [exact Hzl|now symmetry].
    + rewrite alters_elsewhere.
      * apply elem_of_cons in Hy as [->|Hy].
        -- rewrite lookup_alter. case_decide as Hk; [|contradiction].
           rewrite Hk. destruct (m !! a) eqn:Hm; cbn; [|reflexivity].
           f_equal. apply Hrow; [left|assumption].
        -- exfalso. apply Hout. apply list_elem_of_fmap. now exists y.
      * intros w Hw Hwa. apply Hout. apply list_elem_of_fmap. now exists w.
Qed.

Definition zero_row : Address := reset_address new_address.

Definition stats_row (st : Stats) : Address := set_stats st new_address.

(** The run of [recalculateAddressBalances] when every statement is
    accepted: every address row is rewritten from the UTXO table. *)
Lemma recalculate_run s :
  exists s',
    recalculateAddressBalances env s = (Ok tt, s')
    /\ utxos s' = utxos s
    /\ forall a,
        addresses s' !! a
        = (fun _ =>
             match addressStats_of (map_to_list (utxos s)).*2 !! a with
             | Some st => stats_row st
             | None => zero_row
             end) <$> addresses s !! a.
Proof.
  unfold recalculateAddressBalances, try_catch.
  rewrite bind_unfold. unfold gets at 1. cbn beta iota.
  rewrite bind_unfold.
  destruct (update_loop (fun a => a) (fun _ => reset_address)
              (fun addr => addressRepo_update env addr reset_address)
              (map_to_list (addresses s)).*1 (fun _ => eq_refl) s)
    as (s1 & Hrun1 & Ha1 & Hu1).
  rewrite Hrun1. cbn beta iota. rewrite bind_unfold. unfold gets. cbn beta iota.
  rewrite Hu1.
  set (stats := addressStats_of _).
  destruct (update_loop fst (fun p => set_stats (snd p))
              (fun '(address, st) => addressRepo_update env address (set_stats st))
              (map_to_list stats)) with (s := s1)
    as (s2 & Hrun2 & Ha2 & Hu2).
  { now intros [a st]. }
  rewrite Hrun2. exists s2. split; [reflexivity|].
  split; [congruence|].
  intros a. rewrite Ha2.
  assert (Hreset : addresses s1 !! a = (fun _ => zero_row) <$> addresses s !! a).
  { rewrite Ha1. destruct (addresses s !! a) as [r|] eqn:Hr.
    - erewrite alters_here; [now rewrite Hr| |].
      + now intros.
      + exists a. split; [|reflexivity].
        apply list_elem_of_fmap. exists (a, r). split; [reflexivity|].
        now apply elem_of_map_to_list.
    - rewrite alters_elsewhere; [now rewrite Hr|].
      intros x Hx ->. apply list_elem_of_fmap in Hx as ([b r] & -> & Hx).
      apply elem_of_map_to_list in Hx. cbn in Hr. congruence. }
  destruct (stats !! a) as [st|] eqn:Hst.
  - erewrite (alters_here fst _ (stats_row st)).
    + rewrite Hreset. now destruct (addresses s !! a).
    + intros [b st'] r Hx Hb. cbn in Hb. subst b.
      apply elem_of_map_to_list in Hx. cbn. rewrite Hst in Hx.
      now injection Hx as ->.
    + exists (a, st). split; [|reflexivity]. now apply elem_of_map_to_list.
  - rewrite alters_elsewhere; [exact Hreset|].
    intros [b st'] Hx Hb. cbn in Hb. subst b.
    apply elem_of_map_to_list in Hx. congruence.
Qed.


End RecountRun.

(** *** The invariant over a run of the TypeORM indexer *)







(** * Further properties of the indexers, the start-up code and the API *)

(** ** What a run of the TypeORM indexer keeps

    [syncBlocks] writes through eight methods only. A relation
    between the store before and after that every one of them
    respects is respected by the whole run, whether it returns or
    throws. *)

Lemma preserves_transaction {A} (R : TypeORM.Store -> TypeORM.Store -> Prop)
  `{!PreOrder R} (cb : M TypeORM.Store A) :
  preserves R cb -> preserves R (TypeORM.transaction cb).
Proof.
  intros Hcb s. unfold TypeORM.transaction. specialize (Hcb s).
  destruct (cb s) as [[a|e] s1]; cbn in *; [exact Hcb|reflexivity].
Qed.

Section SyncPreserves.

Context (R : TypeORM.Store -> TypeORM.Store -> Prop) `{!PreOrder R}.
Variable env : TypeORM.Env.

Hypothesis R_saveBlock : forall b, preserves R (TypeORM.saveBlock env b).
Hypothesis R_saveTransaction :
  forall tx h t, preserves R (TypeORM.saveTransaction env tx h t).
Hypothesis R_saveTransactionInput :
  forall i t, preserves R (TypeORM.saveTransactionInput env i t).
Hypothesis R_saveTransactionOutput :
  forall o t, preserves R (TypeORM.saveTransactionOutput env o t).
Hypothesis R_updateAddressBalance :
  forall a v r, preserves R (TypeORM.updateAddressBalance env a v r).
Hypothesis R_saveUTXO :
  forall a b c d e f g, preserves R (TypeORM.saveUTXO env a b c d e f g).
Hypothesis R_processInputSpending :
  forall i t h, preserves R (TypeORM.processInputSpending env i t h).
Hypothesis R_setState : forall k v, preserves R (TypeORM.setState k v).

Lemma R_getBlockByHeight h : preserves R (TypeORM.getBlockByHeight h).
Proof. unfold TypeORM.getBlockByHeight. preserving. Qed.

Lemma R_setLastProcessedHeight h :
  preserves R (TypeORM.setLastProcessedHeight h).
Proof. apply R_setState. Qed.

#[local] Hint Resolve R_getBlockByHeight R_setLastProcessedHeight : preserves.

Lemma R_process_output txid h t address output :
  preserves R (TypeORM.process_output env txid h t address output).
Proof. unfold TypeORM.process_output, TypeORM.credit_output. preserving. Qed.

#[local] Hint Resolve R_process_output : preserves.

Lemma R_processTransaction txid h t :
  preserves R (TypeORM.processTransaction env txid h t).
Proof. unfold TypeORM.processTransaction. preserving. Qed.

Lemma R_processGenesisTransaction txid h t :
  preserves R (TypeORM.processGenesisTransaction env txid h t).
Proof. unfold TypeORM.processGenesisTransaction. preserving. Qed.

#[local] Hint Resolve R_processTransaction R_processGenesisTransaction
  : preserves.

Lemma preserves_syncBlocks lo hi : preserves R (TypeORM.syncBlocks env lo hi).
Proof. unfold TypeORM.syncBlocks. preserving. Qed.

End SyncPreserves.

(** *** No duplicate rows *)

Definition input_key (i : TypeORM.TransactionInput) : string * Z :=
  (TypeORM.txin_transaction_id i, TypeORM.txin_input_index i).

Definition output_key (o : TypeORM.TransactionOutput) : string * Z :=
  (TypeORM.txout_transaction_id o, TypeORM.txout_output_index o).

(** No two block rows share a hash or a height, no two transaction
    rows a txid, no two input or output rows a transaction and an
    index. *)
Definition no_duplicates (s : TypeORM.Store) : Prop :=
  NoDup (TypeORM.block_hash <$> TypeORM.blocks s)
  /\ NoDup (TypeORM.block_height <$> TypeORM.blocks s)
  /\ NoDup (TypeORM.txn_txid <$> TypeORM.transactions s)
  /\ NoDup (input_key <$> TypeORM.inputs s)
  /\ NoDup (output_key <$> TypeORM.outputs s).

Definition keeps_unique (s s' : TypeORM.Store) : Prop :=
  no_duplicates s -> no_duplicates s'.

#[local] Instance keeps_unique_preorder : PreOrder keeps_unique.
Proof.
  split; [now intros s|]. intros a b c Hab Hbc H. now apply Hbc, Hab.
Qed.

Lemma find_none_all {A} (p : A -> bool) (l : list A) :
  find p l = None -> forall x, x ∈ l -> p x = false.
Proof.
  intros Hf x Hx. apply (find_none p l Hf). now apply list_elem_of_In.
Qed.

Lemma NoDup_fmap_snoc {A B} (f : A -> B) (l : list A) (x : A) :
  NoDup (f <$> l) -> (forall y, y ∈ l -> f y <> f x) -> NoDup (f <$> l ++ [x]).
Proof.
  intros Hl Hx. rewrite fmap_app. apply NoDup_app. split; [exact Hl|].
  split; [|apply NoDup_singleton].
  intros b Hb Hb'. apply list_elem_of_fmap in Hb as (y & -> & Hy).
  apply list_elem_of_singleton in Hb'. now apply (Hx y).
Qed.

Lemma unique_saveBlock env b :
  preserves keeps_unique (TypeORM.saveBlock env b).
Proof.
  intros s. unfold TypeORM.saveBlock.
  rewrite bind_unfold. unfold gets at 1. cbn beta iota.
  destruct (find _ (TypeORM.blocks s)) as [x|] eqn:Hhash; [reflexivity|].
  destruct (TypeORM.block_row_refused env b); [reflexivity|].
  rewrite bind_unfold. unfold gets at 1. cbn beta iota.
  destruct (find (fun b0 => TypeORM.block_height b0 =? _) (TypeORM.blocks s))
    as [x|] eqn:Hheight; [reflexivity|].
  cbn. intros (Hh & Hn & Hrest). split; [|split; [|exact Hrest]].
  - apply NoDup_fmap_snoc; [exact Hh|]. intros y Hy. cbn.
    pose proof (find_none_all _ _ Hhash y Hy) as Hne. cbn in Hne.
    now apply String.eqb_neq in Hne.
  - apply NoDup_fmap_snoc; [exact Hn|]. intros y Hy. cbn.
    pose proof (find_none_all _ _ Hheight y Hy) as Hne. cbn in Hne. lia.
Qed.

Lemma unique_saveTransaction env tx h t :
  preserves keeps_unique (TypeORM.saveTransaction env tx h t).
Proof.
  intros s. unfold TypeORM.saveTransaction.
  rewrite bind_unfold. unfold gets at 1. cbn beta iota.
  destruct (find _ (TypeORM.transactions s)) as [x|] eqn:Hf; [reflexivity|].
  destruct (TypeORM.transaction_row_refused env tx h t); [reflexivity|].
  rewrite bind_unfold. unfold gets at 1. cbn beta iota.
  match goal with
  | |- context [if ?c then _ else _] => destruct c; [|reflexivity]
  end.
  cbn. intros (Hh & Hn & Ht & Hrest). split; [exact Hh|].
  split; [exact Hn|]. split; [|exact Hrest].
  apply NoDup_fmap_snoc; [exact Ht|]. intros y Hy. cbn.
  pose proof (find_none_all _ _ Hf y Hy) as Hne. cbn in Hne.
  now apply String.eqb_neq in Hne.
Qed.

Lemma unique_saveTransactionInput env i t :
  preserves keeps_unique (TypeORM.saveTransactionInput env i t).
Proof.
  intros s. unfold TypeORM.saveTransactionInput.
  rewrite bind_unfold. unfold gets at 1. cbn beta iota.
  destruct (find _ (TypeORM.inputs s)) as [x|] eqn:Hf; [reflexivity|].
  destruct (PG.varchar_null 64 (in_coinbase i)) as [c|]; [|reflexivity].
  destruct (TypeORM.input_row_refused env i t); [reflexivity|].
  rewrite bind_unfold. unfold gets at 1. cbn beta iota.
  destruct (TypeORM.has_transaction t s); [|reflexivity].
  cbn. intros (Hh & Hn & Ht & Hi & Ho). split; [exact Hh|].
  split; [exact Hn|]. split; [exact Ht|]. split; [|exact Ho].
  apply NoDup_fmap_snoc; [exact Hi|]. intros y Hy. unfold input_key. cbn.
  pose proof (find_none_all _ _ Hf y Hy) as Hne. cbn in Hne.
  intros [= H1 H2]. rewrite H1, H2, String.eqb_refl in Hne. discriminate.
Qed.

Lemma unique_saveTransactionOutput env o t :
  preserves keeps_unique (TypeORM.saveTransactionOutput env o t).
Proof.
  intros s. unfold TypeORM.saveTransactionOutput.
  rewrite bind_unfold. unfold gets at 1. cbn beta iota.
  destruct (find _ (TypeORM.outputs s)) as [x|] eqn:Hf; [reflexivity|].
  destruct (PG.numeric_20_0 _) as [c|]; [|reflexivity].
  destruct (TypeORM.output_row_refused env o t); [reflexivity|].
  rewrite bind_unfold. unfold gets at 1. cbn beta iota.
  destruct (TypeORM.has_transaction t s); [|reflexivity].
  cbn. intros (Hh & Hn & Ht & Hi & Ho). split; [exact Hh|].
  split; [exact Hn|]. split; [exact Ht|]. split; [exact Hi|].
  apply NoDup_fmap_snoc; [exact Ho|]. intros y Hy. unfold output_key. cbn.
  pose proof (find_none_all _ _ Hf y Hy) as Hne. cbn in Hne.
  intros [= H1 H2]. rewrite H1, H2, String.eqb_refl, Z.eqb_refl in Hne.
  discriminate.
Qed.

(** The rows of the five list tables are the same. *)
Definition same_rows (s s' : TypeORM.Store) : Prop :=
  TypeORM.blocks s' = TypeORM.blocks s
  /\ TypeORM.transactions s' = TypeORM.transactions s
  /\ TypeORM.inputs s' = TypeORM.inputs s
  /\ TypeORM.outputs s' = TypeORM.outputs s.

#[local] Instance same_rows_preorder : PreOrder same_rows.
Proof.
  split; [now intros s|].
  intros a b c (?&?&?&?) (?&?&?&?). repeat split; congruence.
Qed.

Lemma rows_updateAddressBalance env a v r :
  preserves same_rows (TypeORM.updateAddressBalance env a v r).
Proof.
  intros s. destruct (TypeORM.address_write_fails env a) eqn:Hf.
  - rewrite updateAddressBalance_fails by exact Hf. reflexivity.
  - rewrite updateAddressBalance_writes by exact Hf. now cbn.
Qed.

Lemma rows_saveUTXO env a b c d e f g :
  preserves same_rows (TypeORM.saveUTXO env a b c d e f g).
Proof.
  intros s. unfold TypeORM.saveUTXO, bind, gets, modify, ret.
  destruct (_ !! _); now cbn.
Qed.

Lemma rows_spendUTXO env a b c d e :
  preserves same_rows (TypeORM.spendUTXO env a b c d e).
Proof. now intros s. Qed.

Lemma rows_getUTXO t v : preserves same_rows (TypeORM.getUTXOByTxidAndIndex t v).
Proof. unfold TypeORM.getUTXOByTxidAndIndex. preserving. Qed.

Lemma rows_setState k v : preserves same_rows (TypeORM.setState k v).
Proof.
  unfold TypeORM.setState. preserving; apply preserves_modify; now intros st.
Qed.

#[local] Hint Resolve rows_updateAddressBalance rows_saveUTXO rows_spendUTXO
  rows_getUTXO : preserves.

Lemma rows_processInputSpending env i t h :
  preserves same_rows (TypeORM.processInputSpending env i t h).
Proof. unfold TypeORM.processInputSpending. preserving. Qed.

Lemma same_rows_unique s s' : same_rows s s' -> keeps_unique s s'.
Proof.
  intros (Hb & Ht & Hi & Ho). unfold keeps_unique, no_duplicates.
  now rewrite Hb, Ht, Hi, Ho.
Qed.

(** A chain with a transaction of two inputs: the coinbases of
    heights 1 and 2 pay 50 coins each to X, and at height 3 the
    transaction t3 spends both and pays 99 coins to Y. *)
Module Cases.

Definition cb2 : BitcoinTransaction :=
  Scenario.mk_tx "c2" [Scenario.coinbase_input]
    [ {| out_value := 50.0%float; out_n := 0;
         out_scriptPubKey := Scenario.pay_to "X" |} ].

Definition t3 : BitcoinTransaction :=
  Scenario.mk_tx "t3" [Scenario.spend "c1" 0; Scenario.spend "c2" 0]
    [ {| out_value := 99.0%float; out_n := 0;
         out_scriptPubKey := Scenario.pay_to "Y" |} ].

Definition b1 : BitcoinBlock := Scenario.mk_block "h1" 1 (Some "h0") ["c1"].
Definition b2 : BitcoinBlock := Scenario.mk_block "h2" 2 (Some "h1") ["c2"].
Definition b3 : BitcoinBlock := Scenario.mk_block "h3" 3 (Some "h2") ["t3"].

Definition chain3 : Rpc :=
  Scenario.node [b1; b2; b3] [Scenario.cb1; cb2; t3].

Definition env3 : TypeORM.Env := Scenario.env_of chain3 Scenario.never.

End Cases.

(** X1. [syncBlocks] never produces a duplicate row: block hashes and
    heights, txids, and the (transaction, index) pairs of input and
    output rows stay pairwise different through any run, whatever
    the node returns and whichever address writes are refused. *)
Theorem syncBlocks_adds_no_duplicate_rows env lo hi s :
  no_duplicates s -> no_duplicates (snd (TypeORM.syncBlocks env lo hi s)).
Proof.
  revert s. change (preserves keeps_unique (TypeORM.syncBlocks env lo hi)).
  apply preserves_syncBlocks; try exact _.
  - apply unique_saveBlock.
  - apply unique_saveTransaction.
  - apply unique_saveTransactionInput.
  - apply unique_saveTransactionOutput.
  - intros a v r. eapply preserves_weaken;
      [apply same_rows_unique|apply rows_updateAddressBalance].
  - intros a b c d e f g. eapply preserves_weaken;
      [apply same_rows_unique|apply rows_saveUTXO].
  - intros i t h. eapply preserves_weaken;
      [apply same_rows_unique|apply rows_processInputSpending].
  - intros k v. eapply preserves_weaken;
      [apply same_rows_unique|apply rows_setState].
Qed.

Lemma syncBlocks_adds_no_duplicate_rows_witness :
  no_duplicates TypeORM.empty_store
  /\ no_duplicates (snd (TypeORM.syncBlocks Cases.env3 1 3 TypeORM.empty_store)).
Proof.
  assert (He : no_duplicates TypeORM.empty_store).
  { repeat split; apply NoDup_nil_2. }
  split; [exact He|].
  apply (syncBlocks_adds_no_duplicate_rows Cases.env3 1 3 TypeORM.empty_store He).
Defined.

(** *** One input row per transaction *)

(** Every input row has index 0 and no two belong to the same
    transaction. *)
Definition single_inputs (s : TypeORM.Store) : Prop :=
  NoDup (TypeORM.txin_transaction_id <$> TypeORM.inputs s)
  /\ forall i, i ∈ TypeORM.inputs s -> TypeORM.txin_input_index i = 0.

Definition keeps_single (s s' : TypeORM.Store) : Prop :=
  single_inputs s -> single_inputs s'.

#[local] Instance keeps_single_preorder : PreOrder keeps_single.
Proof.
  split; [now intros s|]. intros a b c Hab Hbc H. now apply Hbc, Hab.
Qed.

Lemma single_saveTransactionInput env i t :
  preserves keeps_single (TypeORM.saveTransactionInput env i t).
Proof.
  intros s. unfold TypeORM.saveTransactionInput.
  rewrite bind_unfold. unfold gets at 1. cbn beta iota.
  destruct (find _ (TypeORM.inputs s)) as [x|] eqn:Hf; [reflexivity|].
  destruct (PG.varchar_null 64 (in_coinbase i)) as [c|]; [|reflexivity].
  destruct (TypeORM.input_row_refused env i t); [reflexivity|].
  rewrite bind_unfold. unfold gets at 1. cbn beta iota.
  destruct (TypeORM.has_transaction t s); [|reflexivity].
  cbn. intros [Hn Hz]. split.
  - apply NoDup_fmap_snoc; [exact Hn|]. intros y Hy. cbn. intros Heq.
    pose proof (find_none_all _ _ Hf y Hy) as Hne. cbn in Hne.
    rewrite Heq, String.eqb_refl, (Hz y Hy) in Hne. discriminate.
  - intros y Hy. apply elem_of_app in Hy as [Hy|Hy]; [now apply Hz|].
    apply list_elem_of_singleton in Hy. now subst y.
Qed.

Lemma same_inputs_single s s' :
  TypeORM.inputs s' = TypeORM.inputs s -> keeps_single s s'.
Proof. intros Hi. unfold keeps_single, single_inputs. now rewrite Hi. Qed.

Lemma same_rows_single s s' : same_rows s s' -> keeps_single s s'.
Proof. intros (_ & _ & Hi & _). now apply same_inputs_single. Qed.

(** The table of inputs is the same. *)
Definition same_inputs (s s' : TypeORM.Store) : Prop :=
  TypeORM.inputs s' = TypeORM.inputs s.

#[local] Instance same_inputs_preorder : PreOrder same_inputs.
Proof.
  split; [now intros s|]. intros a b c Hab Hbc. unfold same_inputs in *.
  congruence.
Qed.

Lemma single_saveBlock env b :
  preserves keeps_single (TypeORM.saveBlock env b).
Proof.
  apply (preserves_weaken same_inputs); [apply same_inputs_single|].
  unfold TypeORM.saveBlock. preserving. apply preserves_modify. now intros s.
Qed.

Lemma single_saveTransaction env tx h t :
  preserves keeps_single (TypeORM.saveTransaction env tx h t).
Proof.
  apply (preserves_weaken same_inputs); [apply same_inputs_single|].
  unfold TypeORM.saveTransaction. preserving.
  apply preserves_modify. now intros s.
Qed.

Lemma single_saveTransactionOutput env o t :
  preserves keeps_single (TypeORM.saveTransactionOutput env o t).
Proof.
  apply (preserves_weaken same_inputs); [apply same_inputs_single|].
  unfold TypeORM.saveTransactionOutput. preserving.
  apply preserves_modify. now intros s.
Qed.

(** X2. The input rows after a run. [saveTransactionInput] files every
    input under [inputData.n || 0], and an input of the chain node
    has no field [n]: when no input row has another index before a
    run of [syncBlocks], none has after it, and no transaction has
    more than one input row, however many inputs it has. *)
Theorem syncBlocks_stores_one_input_per_transaction env lo hi s :
  single_inputs s -> single_inputs (snd (TypeORM.syncBlocks env lo hi s)).
Proof.
  revert s. change (preserves keeps_single (TypeORM.syncBlocks env lo hi)).
  apply preserves_syncBlocks; try exact _.
  - apply single_saveBlock.
  - apply single_saveTransaction.
  - apply single_saveTransactionInput.
  - apply single_saveTransactionOutput.
  - intros a v r. eapply preserves_weaken;
      [apply same_rows_single|apply rows_updateAddressBalance].
  - intros a b c d e f g. eapply preserves_weaken;
      [apply same_rows_single|apply rows_saveUTXO].
  - intros i t h. eapply preserves_weaken;
      [apply same_rows_single|apply rows_processInputSpending].
  - intros k v. eapply preserves_weaken;
      [apply same_rows_single|apply rows_setState].
Qed.

(** On the chain whose third block spends two outputs in one
    transaction: four inputs are processed and both outputs are
    marked spent, but three input rows are stored, the one of t3
    being that of its first input. *)
Lemma syncBlocks_stores_one_input_per_transaction_witness :
  single_inputs TypeORM.empty_store
  /\ single_inputs (snd (TypeORM.syncBlocks Cases.env3 1 3 TypeORM.empty_store))
  /\ length (tx_vin Cases.t3) = 2%nat
  /\ (fun i => (TypeORM.txin_transaction_id i,
                TypeORM.txin_previous_output_txid i))
       <$> TypeORM.inputs
             (snd (TypeORM.syncBlocks Cases.env3 1 3 TypeORM.empty_store))
     = [("c1", None); ("c2", None); ("t3", Some "c1")]
  /\ TypeORM.utxo_is_spent
       <$> TypeORM.utxos
             (snd (TypeORM.syncBlocks Cases.env3 1 3 TypeORM.empty_store))
           !! ("c2", 0)
     = Some true.
Proof.
  assert (He : single_inputs TypeORM.empty_store).
  { split; [apply NoDup_nil_2|]. intros i Hi. inversion Hi. }
  split; [exact He|]. split.
  - apply (syncBlocks_stores_one_input_per_transaction Cases.env3 1 3
             TypeORM.empty_store He).
  - repeat split; vm_compute; reflexivity.
Defined.

(** *** UTXO rows are never removed or rewritten *)

(** [u'] is [u], except that an unspent [u] may have been marked
    spent. *)
Definition utxo_kept (u u' : TypeORM.UTXO) : Prop :=
  TypeORM.utxo_address u' = TypeORM.utxo_address u
  /\ TypeORM.utxo_value u' = TypeORM.utxo_value u
  /\ TypeORM.utxo_script_pub_key u' = TypeORM.utxo_script_pub_key u
  /\ TypeORM.utxo_block_height u' = TypeORM.utxo_block_height u
  /\ TypeORM.utxo_block_time u' = TypeORM.utxo_block_time u
  /\ (TypeORM.utxo_is_spent u = true -> u' = u).

Definition utxos_kept (s s' : TypeORM.Store) : Prop :=
  forall k u,
    TypeORM.utxos s !! k = Some u ->
    exists u', TypeORM.utxos s' !! k = Some u' /\ utxo_kept u u'.

#[local] Instance utxos_kept_preorder : PreOrder utxos_kept.
Proof.
  split.
  - intros s k u Hu. exists u. now repeat split.
  - intros a b c Hab Hbc k u Hu.
    destruct (Hab k u Hu) as (u1 & Hu1 & H1a & H1v & H1s & H1h & H1t & H1e).
    destruct (Hbc k u1 Hu1) as (u2 & Hu2 & H2a & H2v & H2s & H2h & H2t & H2e).
    exists u2. split; [exact Hu2|].
    repeat split; try congruence.
    intros Hs. specialize (H1e Hs). subst u1. now apply H2e.
Qed.

Lemma same_utxos_kept s s' :
  TypeORM.utxos s' = TypeORM.utxos s -> utxos_kept s s'.
Proof. intros He k u Hu. exists u. rewrite He. now repeat split. Qed.

(** The table of UTXOs is the same. *)
Definition same_utxos (s s' : TypeORM.Store) : Prop :=
  TypeORM.utxos s' = TypeORM.utxos s.

#[local] Instance same_utxos_preorder : PreOrder same_utxos.
Proof.
  split; [now intros s|]. intros a b c Hab Hbc. unfold same_utxos in *.
  congruence.
Qed.

Lemma kept_saveBlock env b : preserves utxos_kept (TypeORM.saveBlock env b).
Proof.
  apply (preserves_weaken same_utxos); [apply same_utxos_kept|].
  unfold TypeORM.saveBlock. preserving. apply preserves_modify. now intros s.
Qed.

Lemma kept_saveTransaction env tx h t :
  preserves utxos_kept (TypeORM.saveTransaction env tx h t).
Proof.
  apply (preserves_weaken same_utxos); [apply same_utxos_kept|].
  unfold TypeORM.saveTransaction. preserving.
  apply preserves_modify. now intros s.
Qed.

Lemma kept_saveTransactionInput env i t :
  preserves utxos_kept (TypeORM.saveTransactionInput env i t).
Proof.
  apply (preserves_weaken same_utxos); [apply same_utxos_kept|].
  unfold TypeORM.saveTransactionInput. preserving.
  apply preserves_modify. now intros s.
Qed.

Lemma kept_saveTransactionOutput env o t :
  preserves utxos_kept (TypeORM.saveTransactionOutput env o t).
Proof.
  apply (preserves_weaken same_utxos); [apply same_utxos_kept|].
  unfold TypeORM.saveTransactionOutput. preserving.
  apply preserves_modify. now intros s.
Qed.

Lemma utxos_updateAddressBalance env a v r s :
  TypeORM.utxos (snd (TypeORM.updateAddressBalance env a v r s))
  = TypeORM.utxos s.
Proof.
  destruct (TypeORM.address_write_fails env a) eqn:Hf.
  - now rewrite updateAddressBalance_fails.
  - now rewrite updateAddressBalance_writes.
Qed.

Lemma kept_updateAddressBalance env a v r :
  preserves utxos_kept (TypeORM.updateAddressBalance env a v r).
Proof. intros s. apply same_utxos_kept, utxos_updateAddressBalance. Qed.

Lemma kept_saveUTXO env a b c d e f g :
  preserves utxos_kept (TypeORM.saveUTXO env a b c d e f g).
Proof.
  intros s. unfold TypeORM.saveUTXO, bind, gets, modify, ret.
  destruct (TypeORM.utxos s !! (a, b)) eqn:Hk; cbn; [reflexivity|].
  intros k u Hu. exists u. split; [|now repeat split].
  cbn. rewrite lookup_insert_ne; [exact Hu|]. intros <-. congruence.
Qed.

Lemma kept_setState k v : preserves utxos_kept (TypeORM.setState k v).
Proof.
  apply (preserves_weaken same_utxos); [apply same_utxos_kept|].
  unfold TypeORM.setState. preserving; apply preserves_modify; now intros st.
Qed.

(** What [processInputSpending] does to the store, case by case. *)
Lemma processInputSpending_cases env input spendingTxid h s :
  let s' := snd (TypeORM.processInputSpending env input spendingTxid h s) in
  TypeORM.processInputSpending env input spendingTxid h s = (Ok tt, s')
  /\ ((exists t v u,
          in_txid input = Some t /\ in_vout input = Some v
          /\ TypeORM.utxos s !! (t, v) = Some u
          /\ TypeORM.utxo_is_spent u = false
          /\ TypeORM.utxos s'
             = alter (TypeORM.mark_spent env spendingTxid 0 h) (t, v)
                 (TypeORM.utxos s))
      \/ s' = s).
Proof.
  unfold TypeORM.processInputSpending, try_catch.
  destruct (in_txid input) as [t|]; [|split; [reflexivity|now right]].
  destruct (in_vout input) as [v|]; [|split; [reflexivity|now right]].
  rewrite bind_unfold. unfold TypeORM.getUTXOByTxidAndIndex, gets. cbn beta iota.
  destruct (TypeORM.utxos s !! (t, v)) as [u|] eqn:Hu;
    [|split; [reflexivity|now right]].
  destruct (TypeORM.utxo_is_spent u) eqn:Hs; [split; [reflexivity|now right]|].
  rewrite bind_unfold. unfold TypeORM.spendUTXO, modify. cbn beta iota.
  destruct (updateAddressBalance_returns env (TypeORM.utxo_address u)
              (TypeORM.utxo_value u) false
              (TypeORM.with_utxos
                 (alter (TypeORM.mark_spent env spendingTxid 0 h) (t, v)) s))
    as (s2 & Hrun).
  pose proof (utxos_updateAddressBalance env (TypeORM.utxo_address u)
                (TypeORM.utxo_value u) false
                (TypeORM.with_utxos
                   (alter (TypeORM.mark_spent env spendingTxid 0 h) (t, v)) s))
    as Hsame.
  rewrite Hrun in Hsame |- *. cbn in Hsame |- *.
  split; [reflexivity|]. left. exists t, v, u. now repeat split.
Qed.

Lemma kept_processInputSpending env i t h :
  preserves utxos_kept (TypeORM.processInputSpending env i t h).
Proof.
  intros s.
  destruct (processInputSpending_cases env i t h s) as [_ [Hc| ->]];
    [|reflexivity].
  destruct Hc as (pt & pv & u & _ & _ & Hu & Hs & Halt).
  intros k w Hw. rewrite Halt. rewrite lookup_alter.
  case_decide as Hk.
  - subst k. rewrite Hw. cbn. eexists. split; [reflexivity|].
    repeat split. intros Hspent. congruence.
  - exists w. split; [exact Hw|now repeat split].
Qed.

(** X3. Through any run of [syncBlocks] a UTXO row stays under its key
    with its address, value, script, height and time; the only change
    a row can undergo is to be marked spent, once: a row that is
    spent is never touched again. *)
Theorem syncBlocks_keeps_utxo_rows env lo hi s :
  utxos_kept s (snd (TypeORM.syncBlocks env lo hi s)).
Proof.
  revert s. change (preserves utxos_kept (TypeORM.syncBlocks env lo hi)).
  apply preserves_syncBlocks; try exact _.
  - apply kept_saveBlock.
  - apply kept_saveTransaction.
  - apply kept_saveTransactionInput.
  - apply kept_saveTransactionOutput.
  - apply kept_updateAddressBalance.
  - apply kept_saveUTXO.
  - apply kept_processInputSpending.
  - apply kept_setState.
Qed.

(** *** Spending twice *)

Lemma spent_after_processInputSpending env input t1 h1 s t v :
  in_txid input = Some t -> in_vout input = Some v ->
  match TypeORM.utxos (snd (TypeORM.processInputSpending env input t1 h1 s))
          !! (t, v) with
  | Some u => TypeORM.utxo_is_spent u = true
  | None => True
  end.
Proof.
  intros Ht Hv.
  destruct (processInputSpending_cases env input t1 h1 s) as [_ Hc].
  destruct Hc as [(t' & v' & u' & Ht' & Hv' & Hu' & Hs' & Halt)|Heq].
  - rewrite Ht in Ht'. rewrite Hv in Hv'.
    injection Ht' as <-. injection Hv' as <-.
    rewrite Halt, lookup_alter_eq, Hu'. reflexivity.
  - destruct (TypeORM.utxos _ !! (t, v)) as [u|] eqn:Hu; [|exact I].
    destruct (TypeORM.utxo_is_spent u) eqn:Hs; [reflexivity|].
    exfalso. rewrite Heq in Hu.
    unfold TypeORM.processInputSpending, try_catch in Heq.
    rewrite Ht, Hv in Heq. rewrite bind_unfold in Heq.
    unfold TypeORM.getUTXOByTxidAndIndex, gets in Heq. cbn beta iota in Heq.
    rewrite Hu, Hs in Heq. rewrite bind_unfold in Heq.
    unfold TypeORM.spendUTXO, modify in Heq. cbn beta iota in Heq.
    pose proof (utxos_updateAddressBalance env (TypeORM.utxo_address u)
                  (TypeORM.utxo_value u) false
                  (TypeORM.with_utxos
                     (alter (TypeORM.mark_spent env t1 0 h1) (t, v)) s))
      as Hsame.
    destruct (TypeORM.updateAddressBalance env (TypeORM.utxo_address u)
                (TypeORM.utxo_value u) false
                (TypeORM.with_utxos
                   (alter (TypeORM.mark_spent env t1 0 h1) (t, v)) s))
      as [[[]|e] s2]; cbn in Hsame, Heq; subst s2; cbn in Hsame;
      (assert (Hl : TypeORM.utxos s !! (t, v)
                    = alter (TypeORM.mark_spent env t1 0 h1) (t, v)
                        (TypeORM.utxos s) !! (t, v))
         by exact (f_equal (fun m => m !! (t, v)) Hsame));
      rewrite lookup_alter_eq, Hu in Hl; cbn in Hl;
      injection Hl as Hl; rewrite Hl in Hs; discriminate.
Qed.

(** X4. An output is spent at most once: when [processInputSpending] has
    run for an input, a second run for the same input, by any
    transaction at any height, returns with the store as it is; the
    first spender stays recorded and the address is not debited
    again. *)
Theorem processInputSpending_spends_once env input t1 h1 t2 h2 s :
  TypeORM.processInputSpending env input t2 h2
    (snd (TypeORM.processInputSpending env input t1 h1 s))
  = (Ok tt, snd (TypeORM.processInputSpending env input t1 h1 s)).
Proof.
  pose proof (spent_after_processInputSpending env input t1 h1 s) as Hspent.
  set (s1 := snd (TypeORM.processInputSpending env input t1 h1 s)) in *.
  unfold TypeORM.processInputSpending at 1. unfold try_catch.
  destruct (in_txid input) as [t|]; [|reflexivity].
  destruct (in_vout input) as [v|]; [|reflexivity].
  specialize (Hspent t v eq_refl eq_refl).
  rewrite bind_unfold. unfold TypeORM.getUTXOByTxidAndIndex, gets. cbn beta iota.
  destruct (TypeORM.utxos s1 !! (t, v)) as [u|]; [|reflexivity].
  now rewrite Hspent.
Qed.

(** ** More of DatabaseService: state, heights, addresses, statistics *)

(** *** [parseInt]

    A string is the sequence of its code units, each below 256. The
    result of [parseInt] is an integer-valued Number: NaN, an
    infinity, or an integer that binary64 holds; -0 and +0 are not
    told apart. *)
Module JSInt.
Import Stdlib.Strings.Ascii.

Inductive t : Type :=
| NaN
| Int (z : Z)
| Inf (negative : bool).

(** The Number nearest to the integer [z], ties to even. *)
Definition of_Z (z : Z) : t :=
  let a := Z.abs z in
  if a <? 2 ^ 53 then Int z
  else
    let e := Z.log2 a - 52 in
    let q := a / 2 ^ e in
    let r := a mod 2 ^ e in
    let half := 2 ^ (e - 1) in
    let q' := if (half <? r) || ((r =? half) && Z.odd q) then q + 1 else q in
    let m := q' * 2 ^ e in
    if 2 ^ 1024 <=? m then Inf (z <? 0) else Int (Z.sgn z * m).

(** StrWhiteSpaceChar among the code units below 256: TAB, LF, VT,
    FF, CR, SP and NBSP. *)
Definition is_space (c : Ascii.ascii) : bool :=
  let n := Z.of_N (Ascii.N_of_ascii c) in
  ((9 <=? n) && (n <=? 13)) || (n =? 32) || (n =? 160).

Fixpoint trim_start (s : string) : string :=
  match s with
  | String c s' => if is_space c then trim_start s' else s
  | EmptyString => s
  end.

(** The value of a digit in the given radix, if it is one. *)
Definition digit (radix : Z) (c : Ascii.ascii) : option Z :=
  let n := Z.of_N (Ascii.N_of_ascii c) in
  let d :=
    if (48 <=? n) && (n <=? 57) then n - 48
    else if (97 <=? n) && (n <=? 122) then n - 87
    else if (65 <=? n) && (n <=? 90) then n - 55
    else 36 in
  if d <? radix then Some d else None.

(** The longest prefix of digits, read in the radix; [seen] tells
    whether a digit was read. *)
Fixpoint digits (radix : Z) (seen : bool) (acc : Z) (s : string)
  : option Z :=
  match s with
  | String c s' =>
      match digit radix c with
      | Some d => digits radix true (acc * radix + d) s'
      | None => if seen then Some acc else None
      end
  | EmptyString => if seen then Some acc else None
  end.

(** [parseInt(s)], without a radix argument. *)
Definition parseInt (s : string) : t :=
  let s1 := trim_start s in
  let '(negative, s2) :=
    match s1 with
    | String "-"%char s' => (true, s')
    | String "+"%char s' => (false, s')
    | _ => (false, s1)
    end in
  let '(radix, s3) :=
    match s2 with
    | String "0"%char (String "x"%char s') => (16, s')
    | String "0"%char (String "X"%char s') => (16, s')
    | _ => (10, s2)
    end in
  match digits radix false 0 s3 with
  | Some n => of_Z (if negative then - n else n)
  | None => NaN
  end.

End JSInt.

(** [parseInt] reads back what [toString] writes for an integer. *)

Section ParseInt.
Import Stdlib.Strings.Ascii.

Lemma digit_pretty_N_char x :
  (x < 10)%N -> JSInt.digit 10 (pretty_N_char x) = Some (Z.of_N x).
Proof.
  intros Hx.
  assert (x = 0 \/ x = 1 \/ x = 2 \/ x = 3 \/ x = 4 \/ x = 5 \/ x = 6
          \/ x = 7 \/ x = 8 \/ x = 9)%N as Hc by lia.
  repeat (destruct Hc as [->|Hc]; [reflexivity|]). now subst x.
Qed.

Lemma digits_pretty_N_go x : forall s seen,
  JSInt.digits 10 seen 0 (pretty_N_go x s)
  = JSInt.digits 10 (seen || (0 <? Z.of_N x)) (Z.of_N x) s.
Proof.
  induction (N.lt_wf_0 x) as [x _ IH]. intros s seen.
  destruct (N.eq_dec x 0%N) as [->|Hx].
  - rewrite pretty_N_go_0. cbn. now rewrite orb_false_r.
  - rewrite pretty_N_go_step by lia.
    rewrite IH by (apply N.div_lt; lia).
    cbn [JSInt.digits].
    rewrite digit_pretty_N_char by (apply N.mod_lt; lia).
    replace (0 <? Z.of_N x) with true by (symmetry; apply Z.ltb_lt; lia).
    rewrite orb_true_r. f_equal.
    rewrite (N.div_mod x 10) at 3 by lia.
    rewrite N2Z.inj_add, N2Z.inj_mul. lia.
Qed.

Definition is_digit (c : Ascii.ascii) : bool :=
  let n := Z.of_N (Ascii.N_of_ascii c) in (48 <=? n) && (n <=? 57).

Fixpoint all_digits (s : string) : bool :=
  match s with
  | String c s' => is_digit c && all_digits s'
  | EmptyString => true
  end.

Lemma is_digit_pretty_N_char x : is_digit (pretty_N_char x) = true.
Proof.
  unfold pretty_N_char. repeat case_match; reflexivity.
Qed.

Lemma all_digits_pretty_N_go x : forall s,
  all_digits s = true -> all_digits (pretty_N_go x s) = true.
Proof.
  induction (N.lt_wf_0 x) as [x _ IH]. intros s Hs.
  destruct (N.eq_dec x 0%N) as [->|Hx]; [now rewrite pretty_N_go_0|].
  rewrite pretty_N_go_step by lia. apply IH; [apply N.div_lt; lia|].
  cbn. now rewrite is_digit_pretty_N_char.
Qed.

(** On a string of decimal digits nothing is trimmed and no sign or
    prefix is found. *)
Lemma parseInt_all_digits s :
  all_digits s = true ->
  JSInt.parseInt s
  = match JSInt.digits 10 false 0 s with
    | Some n => JSInt.of_Z n
    | None => JSInt.NaN
    end.
Proof.
  intros Hs. unfold JSInt.parseInt.
  destruct s as [|c s]; [reflexivity|].
  cbn in Hs. apply andb_true_iff in Hs as [Hc Hs].
  assert (Htrim : JSInt.trim_start (String c s) = String c s).
  { cbn. destruct c as [[] [] [] [] [] [] [] []]; try discriminate; reflexivity. }
  rewrite Htrim.
  destruct s as [|d s].
  - destruct c as [[] [] [] [] [] [] [] []]; try discriminate; reflexivity.
  - cbn in Hs. apply andb_true_iff in Hs as [Hd Hs].
    destruct c as [[] [] [] [] [] [] [] []]; try discriminate; try reflexivity;
      destruct d as [[] [] [] [] [] [] [] []]; try discriminate; reflexivity.
Qed.

Lemma of_Z_small z : Z.abs z < 2 ^ 53 -> JSInt.of_Z z = JSInt.Int z.
Proof.
  intros Hz. unfold JSInt.of_Z.
  now replace (Z.abs z <? 2 ^ 53) with true by (symmetry; apply Z.ltb_lt; lia).
Qed.

Lemma parseInt_minus_digits s :
  all_digits s = true ->
  JSInt.parseInt (String "-" s)
  = match JSInt.digits 10 false 0 s with
    | Some n => JSInt.of_Z (- n)
    | None => JSInt.NaN
    end.
Proof.
  intros Hs. unfold JSInt.parseInt.
  change (JSInt.trim_start (String "-" s)) with (String "-" s).
  cbn beta iota.
  destruct s as [|c s]; [reflexivity|].
  cbn in Hs. apply andb_true_iff in Hs as [Hc Hs].
  destruct s as [|d s].
  - destruct c as [[] [] [] [] [] [] [] []]; try discriminate; reflexivity.
  - cbn in Hs. apply andb_true_iff in Hs as [Hd Hs].
    destruct c as [[] [] [] [] [] [] [] []]; try discriminate; try reflexivity;
      destruct d as [[] [] [] [] [] [] [] []]; try discriminate; reflexivity.
Qed.

(** [parseInt(z.toString())] is [z] for an integer that a Number
    holds. *)
Lemma parseInt_pretty (z : Z) :
  Z.abs z < 2 ^ 53 -> JSInt.parseInt (pretty z) = JSInt.Int z.
Proof.
  intros Hz. destruct z as [|p|p].
  - reflexivity.
  - change (pretty (Z.pos p)) with (pretty_N_go (N.pos p) "").
    rewrite parseInt_all_digits by now apply all_digits_pretty_N_go.
    rewrite digits_pretty_N_go. cbn [JSInt.digits orb Z.ltb Z.compare Z.of_N].
    now apply of_Z_small.
  - change (pretty (Z.neg p)) with (String "-" (pretty_N_go (N.pos p) "")).
    rewrite parseInt_minus_digits by now apply all_digits_pretty_N_go.
    rewrite digits_pretty_N_go. cbn [JSInt.digits orb Z.ltb Z.compare Z.of_N].
    now apply of_Z_small.
Qed.

End ParseInt.

(** *** The methods *)

Module Service.
Import TypeORM.

Section DatabaseService.

Variable env : Env.

Definition getBlockByHash (hash : string) : M Store (option Block) :=
  gets (fun s => find (fun b => String.eqb (block_hash b) hash) (blocks s)).

(** [SELECT MAX(block.height)]: NULL on an empty table. *)
Definition max_height (l : list Block) : option Z :=
  match l with
  | [] => None
  | b :: l' => Some (foldr Z.max (block_height b) (block_height <$> l'))
  end.

(** [result?.max || -1]; the integer column comes back as a Number,
    and 0 is falsy. *)
Definition getLastBlockHeight : M Store Z :=
  gets (fun s =>
          match max_height (blocks s) with
          | Some m => if m =? 0 then -1 else m
          | None => -1
          end).

Definition getTransactionByTxid (txid : string) : M Store (option Transaction) :=
  gets (fun s => find (fun t => String.eqb (txn_txid t) txid) (transactions s)).

Definition getOrCreateAddress (addressStr : string) : M Store Address :=
  let* found := gets (fun s => addresses s !! addressStr) in
  match found with
  | Some address => ret address
  | None =>
      let* _ := addressRepo_save env addressStr new_address in
      ret new_address
  end.

(** [state?.value || null] *)
Definition getState (key : string) : M Store (option string) :=
  gets (fun s =>
          match state s !! key with
          | Some value => if JS.truthy (Some value) then Some value else None
          | None => None
          end).

(** [height ? parseInt(height) : -1] *)
Definition getLastProcessedHeight : M Store JSInt.t :=
  let* height := getState "last_processed_height" in
  match height with
  | Some h => if JS.truthy (Some h) then ret (JSInt.parseInt h)
              else ret (JSInt.Int (-1))
  | None => ret (JSInt.Int (-1))
  end.

Record StatsReport := {
  stats_blocks : Z;
  stats_transactions : Z;
  stats_addresses : Z;
  stats_utxos : Z;
  stats_lastBlockHeight : Z
}.

(** The five queries of [Promise.all] only read. *)
Definition getStats : M Store StatsReport :=
  let* blockCount := gets (fun s => Z.of_nat (length (blocks s))) in
  let* transactionCount := gets (fun s => Z.of_nat (length (transactions s))) in
  let* addressCount := gets (fun s => Z.of_nat (size (addresses s))) in
  let* utxoCount :=
    gets (fun s =>
            Z.of_nat
              (length (List.filter (fun u => negb (utxo_is_spent u))
                         (map_to_list (utxos s)).*2))) in
  let* lastHeight := getLastBlockHeight in
  ret {| stats_blocks := blockCount;
         stats_transactions := transactionCount;
         stats_addresses := addressCount;
         stats_utxos := utxoCount;
         stats_lastBlockHeight := lastHeight |}.

End DatabaseService.

End Service.

(** *** The key-value state and the progress mark *)

Lemma setState_refused key value s e s' :
  TypeORM.setState key value s = (Throw e, s') -> e = DbError /\ s' = s.
Proof.
  unfold TypeORM.setState.
  destruct (negb _); [now intros [= <- <-]|].
  rewrite bind_unfold. unfold gets at 1. cbn beta iota.
  destruct (TypeORM.state s !! key); [discriminate|].
  destruct (PG.varchar 50 key) as [k|]; [|now intros [= <- <-]].
  rewrite bind_unfold. unfold gets at 1. cbn beta iota.
  destruct (TypeORM.state s !! k); [now intros [= <- <-]|discriminate].
Qed.

Lemma setState_long_key key value s :
  TypeORM.state s !! key = None -> PG.varchar 50 key = None ->
  TypeORM.setState key value s = (Throw DbError, s).
Proof.
  intros Hnone Hlong. unfold TypeORM.setState.
  destruct (negb _); [reflexivity|].
  rewrite bind_unfold. unfold gets at 1. cbn beta iota.
  now rewrite Hnone, Hlong.
Qed.

(** X5. The state table. [key] is a [varchar(50)] and [value] a [text]:
    for a key of at most 50 characters, neither string holding the
    character of code 0, [setState] returns and [getState] reads back
    what it wrote, unless that was the empty string, which it reports
    as absent; other keys are not affected, and neither method touches
    the tables. When [setState] throws, it is the storage engine that
    refused the statement and the store is as it was; it does so for
    a key that has no row and is longer than the column, not counting
    spaces at its end. *)
Theorem getState_reads_what_setState_wrote key value s :
  (PG.text key = true -> PG.text value = true ->
   (String.length key <= 50)%nat ->
   let s' := snd (TypeORM.setState key value s) in
   TypeORM.setState key value s = (Ok tt, s')
   /\ Service.getState key s'
      = (Ok (if String.eqb value EmptyString then None else Some value), s')
   /\ (forall other, other <> key ->
         fst (Service.getState other s') = fst (Service.getState other s))
   /\ same_rows s s' /\ same_accounts s s')
  /\ (forall e s',
        TypeORM.setState key value s = (Throw e, s') -> e = DbError /\ s' = s)
  /\ (TypeORM.state s !! key = None -> PG.varchar 50 key = None ->
      TypeORM.setState key value s = (Throw DbError, s)).
Proof.
  split; [|split; [apply setState_refused|apply setState_long_key]].
  intros Hk Hv Hlen. rewrite setState_writes by assumption.
  cbn. split; [reflexivity|]. split; [|split; [|split]].
  - unfold Service.getState, gets. cbn. rewrite lookup_insert_eq. cbn.
    now destruct (String.eqb value EmptyString).
  - intros other Hne. unfold Service.getState, gets. cbn.
    now rewrite lookup_insert_ne by congruence.
  - now repeat split.
  - now split.
Qed.

Lemma for_of_app {S A} (l1 l2 : list A) (body : A -> M S unit) s :
  for_of (l1 ++ l2) body s
  = bind (for_of l1 body) (fun _ => for_of l2 body) s.
Proof.
  revert s. induction l1 as [|x l1 IH]; intros s; [reflexivity|].
  cbn [app for_of]. rewrite !bind_unfold.
  destruct (body x s) as [[[]|e] s1]; [|reflexivity].
  rewrite IH. now rewrite bind_unfold.
Qed.

Lemma heights_split lo mid hi :
  lo <= mid + 1 -> mid <= hi ->
  heights lo hi = heights lo mid ++ heights (mid + 1) hi.
Proof.
  intros H1 H2. unfold heights.
  replace (hi - lo + 1) with ((mid - lo + 1) + (hi - (mid + 1) + 1)) by lia.
  rewrite seqZ_app by lia. do 2 f_equal. lia.
Qed.

Lemma height_turn_marks env h s s' :
  height_turn env h s = (Ok tt, s') ->
  TypeORM.state s' !! "last_processed_height" = Some (pretty h).
Proof.
  unfold height_turn. rewrite bind_unfold.
  unfold TypeORM.getBlockByHeight, gets. cbn beta iota.
  assert (Hset : forall s0 s1,
             TypeORM.setLastProcessedHeight h s0 = (Ok tt, s1) ->
             TypeORM.state s1 !! "last_processed_height" = Some (pretty h)).
  { intros s0 s1. rewrite setLastProcessedHeight_writes. intros [= <-]. cbn.
    apply lookup_insert_eq. }
  destruct (find _ _); [apply Hset|].
  rewrite bind_lift. destruct (getBlockHash _ _) as [hash|e]; [|discriminate].
  rewrite bind_lift. destruct (getBlock _ _) as [b|e]; [|discriminate].
  rewrite bind_unfold.
  destruct (TypeORM.saveBlock env b s) as [[r|e] s1]; [|discriminate].
  rewrite bind_unfold.
  destruct (for_of _ _ s1) as [[[]|e] s2]; [|discriminate].
  apply Hset.
Qed.

Lemma pretty_N_go_length x : forall t,
  (String.length t <= String.length (pretty_N_go x t))%nat.
Proof.
  induction (N.lt_wf_0 x) as [x _ IH]. intros t.
  destruct (N.eq_dec x 0%N) as [->|Hx]; [now rewrite pretty_N_go_0|].
  rewrite pretty_N_go_step by lia.
  etransitivity; [|apply IH; apply N.div_lt; lia]. cbn. lia.
Qed.

Lemma pretty_Z_nonempty (z : Z) : pretty z <> EmptyString.
Proof.
  destruct z as [|p|p]; [discriminate| |discriminate].
  change (pretty (Z.pos p)) with (pretty_N_go (N.pos p) "").
  rewrite pretty_N_go_step by lia. intros He.
  pose proof (pretty_N_go_length (N.pos p `div` 10)
                (String (pretty_N_char (N.pos p `mod` 10)) "")) as Hlen.
  rewrite He in Hlen. cbn in Hlen. lia.
Qed.

Lemma syncBlocks_mark_after env lo hi s s' :
  TypeORM.syncBlocks env lo hi s = (Ok tt, s') ->
  Z.abs hi < 2 ^ 53 -> lo <= hi ->
  Service.getLastProcessedHeight s' = (Ok (JSInt.Int hi), s').
Proof.
  intros Hrun Hhi Hle.
  assert (Hmark : TypeORM.state s' !! "last_processed_height"
                  = Some (pretty hi)).
  { rewrite syncBlocks_is_loop in Hrun.
    rewrite (heights_split lo (hi - 1) hi) in Hrun by lia.
    replace (hi - 1 + 1) with hi in Hrun by lia.
    rewrite heights_one, for_of_app, bind_unfold in Hrun.
    destruct (for_of _ _ s) as [[[]|e] s1]; [|discriminate].
    cbn [for_of] in Hrun. rewrite bind_unfold in Hrun.
    destruct (height_turn env hi s1) as [[[]|e] s2] eqn:Hturn;
      [|discriminate].
    injection Hrun as <-. now apply (height_turn_marks env hi s1). }
  unfold Service.getLastProcessedHeight, Service.getState.
  rewrite bind_unfold. unfold gets. cbn beta iota. rewrite Hmark.
  assert (Ht : JS.truthy (Some (pretty hi)) = true).
  { cbn. destruct (String.eqb_spec (pretty hi) EmptyString) as [He|];
      [|reflexivity].
    now apply pretty_Z_nonempty in He. }
  cbn in Ht |- *. rewrite !Ht. unfold ret.
  rewrite parseInt_pretty by exact Hhi. reflexivity.
Qed.

(** X6. The progress mark. When [syncBlocks] returns for a range that is
    not empty, [getLastProcessedHeight] gives its last height; for an
    empty range it returns having done nothing; and while the state
    table has no mark, [getLastProcessedHeight] gives -1. *)
Theorem syncBlocks_records_progress env lo hi s s' :
  TypeORM.syncBlocks env lo hi s = (Ok tt, s') ->
  Z.abs hi < 2 ^ 53 ->
  (lo <= hi -> Service.getLastProcessedHeight s' = (Ok (JSInt.Int hi), s'))
  /\ (hi < lo -> s' = s)
  /\ (TypeORM.state s !! "last_processed_height" = None ->
      Service.getLastProcessedHeight s = (Ok (JSInt.Int (-1)), s)).
Proof.
  intros Hrun Hhi. split; [|split].
  - now apply (syncBlocks_mark_after env lo hi s s').
  - intros Hlt. unfold TypeORM.syncBlocks, heights in Hrun.
    rewrite seqZ_nil in Hrun by lia. now injection Hrun.
  - intros Hnone. unfold Service.getLastProcessedHeight, Service.getState.
    rewrite bind_unfold. unfold gets. cbn beta iota. now rewrite Hnone.
Qed.

Lemma getState_reads_what_setState_wrote_witness :
  Service.getState "last_processed_height"
    (snd (TypeORM.setState "last_processed_height" "7" TypeORM.empty_store))
  = (Ok (Some "7"),
     snd (TypeORM.setState "last_processed_height" "7" TypeORM.empty_store))
  /\ fst (Service.getState "other"
            (snd (TypeORM.setState "last_processed_height" "7"
                    TypeORM.empty_store)))
     = Ok None.
Proof.
  destruct (proj1 (getState_reads_what_setState_wrote "last_processed_height"
                     "7" TypeORM.empty_store) eq_refl eq_refl
              ltac:(vm_compute; lia)) as (_ & Hget & Hother & _).
  split; [exact Hget|].
  rewrite (Hother "other") by discriminate. reflexivity.
Defined.

Lemma syncBlocks_records_progress_witness :
  Service.getLastProcessedHeight
    (snd (TypeORM.syncBlocks Cases.env3 1 3 TypeORM.empty_store))
  = (Ok (JSInt.Int 3),
     snd (TypeORM.syncBlocks Cases.env3 1 3 TypeORM.empty_store)).
Proof.
  apply (proj1 (syncBlocks_records_progress Cases.env3 1 3 TypeORM.empty_store
                  (snd (TypeORM.syncBlocks Cases.env3 1 3 TypeORM.empty_store))
                  ltac:(vm_compute; reflexivity) ltac:(reflexivity))).
  discriminate.
Defined.

(** *** A transaction never stops the sync *)

(** The storage engine accepts the rows of the genesis descriptor. *)
Definition genesis_rows_accepted (env : TypeORM.Env) : Prop :=
  forall txid t,
    TypeORM.transaction_row_refused env (TypeORM.genesisTx txid) (Some 0)
      (Some t) = false
    /\ TypeORM.output_row_refused env genesis_output txid = false.

(** The node has a block for height [h], which says it is at [h] and
    whose row the storage engine accepts; at height 0 the engine also
    accepts the rows of the genesis descriptor. *)
Definition served (env : TypeORM.Env) (h : Z) : Prop :=
  exists b,
    getBlockByHeight_rpc (TypeORM.rpc env) h = Ok b
    /\ blk_height b = h
    /\ TypeORM.block_row_refused env b = false
    /\ (h = 0 -> genesis_rows_accepted env).

Lemma returns_try_catch {S A} (m : M S A) h :
  (forall e, returns (h e)) -> returns (try_catch m h).
Proof.
  intros Hh s. unfold try_catch.
  destruct (m s) as [[a|e] s1]; [now exists a, s1|apply Hh].
Qed.

Lemma returns_ret {S A} (a : A) : returns (@ret S A a).
Proof. intros s. now exists a, s. Qed.

(** A transaction whose row is accepted and that names no block is
    stored, if it was not. *)
Lemma saveTransaction_accepted env tx h t s :
  TypeORM.transaction_row_refused env tx h t = false ->
  tx_blockhash tx = None ->
  exists tr s',
    TypeORM.saveTransaction env tx h t s = (Ok tr, s')
    /\ TypeORM.has_transaction (tx_txid tx) s' = true.
Proof.
  intros Hr Hb. unfold TypeORM.saveTransaction, TypeORM.has_transaction.
  rewrite bind_unfold. unfold gets at 1. cbn beta iota.
  destruct (find _ (TypeORM.transactions s)) as [x|] eqn:Hf.
  - exists x, s. split; [reflexivity|].
    apply find_some in Hf as [Hin Heq].
    apply existsb_exists. now exists x.
  - rewrite Hr, Hb. cbn.
    eexists. eexists. split; [reflexivity|]. cbn.
    rewrite existsb_app. cbn. now rewrite String.eqb_refl, orb_true_r.
Qed.

(** An output whose amount fits the column and whose row is accepted
    is stored, if it was not, once its transaction is. *)
Lemma saveTransactionOutput_accepted env output txid v s :
  PG.numeric_20_0 (out_value output * 100000000)%float = Some v ->
  TypeORM.output_row_refused env output txid = false ->
  TypeORM.has_transaction txid s = true ->
  exists o s', TypeORM.saveTransactionOutput env output txid s = (Ok o, s').
Proof.
  intros Hv Hr Ht. unfold TypeORM.saveTransactionOutput.
  rewrite bind_unfold. unfold gets at 1. cbn beta iota.
  destruct (find _ (TypeORM.outputs s)) as [x|]; [now exists x, s|].
  rewrite Hv, Hr. rewrite bind_unfold. unfold gets at 1. cbn beta iota.
  rewrite Ht. eexists. eexists. reflexivity.
Qed.

Lemma processGenesisTransaction_returns env txid t :
  genesis_rows_accepted env ->
  returns (TypeORM.processGenesisTransaction env txid 0 t).
Proof.
  intros Hacc s. destruct (Hacc txid t) as [Hrt Hro].
  unfold TypeORM.processGenesisTransaction. rewrite bind_unfold.
  destruct (saveTransaction_accepted env (TypeORM.genesisTx txid) (Some 0)
              (Some t) s Hrt eq_refl) as (tr & s1 & -> & Hstored).
  cbn [TypeORM.genesisTx tx_vout for_of tx_txid] in *.
  change {| out_value := 50.0%float; out_n := 0; out_scriptPubKey := _ |}
    with genesis_output.
  rewrite bind_unfold. unfold TypeORM.process_output. rewrite bind_unfold.
  destruct (saveTransactionOutput_accepted env genesis_output txid _ s1
              genesis_column Hro Hstored) as (o & s2 & ->).
  unfold TypeORM.credit_output.
  cbn [addresses0 out_scriptPubKey spk_addresses JS.truthy String.eqb negb
       Ascii.eqb Bool.eqb out_value out_n spk_hex genesis_output genesis_address].
  rewrite bind_lift, genesis_value, bind_unfold.
  match goal with
  | |- context [TypeORM.updateAddressBalance env ?a ?v ?r ?st] =>
      destruct (updateAddressBalance_returns' env a v r st) as ([] & s3 & ->)
  end.
  rewrite bind_unfold.
  match goal with
  | |- context [TypeORM.saveUTXO ?ev ?a ?b ?c ?d ?e ?f ?g ?st] =>
      destruct (saveUTXO_returns ev a b c d e f g st) as (u & s4 & ->)
  end.
  eexists. eexists. reflexivity.
Qed.

Lemma transaction_turn_returns env h t txid :
  (h = 0 -> genesis_rows_accepted env) ->
  returns (transaction_turn env h t txid).
Proof.
  intros Hacc. unfold transaction_turn. apply returns_try_catch. intros e.
  destruct (TypeORM.has_code e (-5)); [|apply returns_ret].
  destruct (Z.eqb_spec h 0) as [->|_]; [|apply returns_ret].
  now apply processGenesisTransaction_returns, Hacc.
Qed.

Lemma saveBlock_at_free_height env b s :
  TypeORM.block_row_refused env b = false ->
  find (fun x => TypeORM.block_height x =? blk_height b) (TypeORM.blocks s) = None ->
  exists r s', TypeORM.saveBlock env b s = (Ok r, s').
Proof.
  intros Hr Hfree. unfold TypeORM.saveBlock.
  rewrite bind_unfold. unfold gets at 1. cbn beta iota.
  destruct (find (fun x => String.eqb _ _) _) as [x|]; [now exists x, s|].
  rewrite Hr.
  rewrite bind_unfold. unfold gets at 1. cbn beta iota. rewrite Hfree.
  eexists. eexists. reflexivity.
Qed.

Lemma height_turn_returns env h s :
  served env h -> exists s', height_turn env h s = (Ok tt, s').
Proof.
  intros (b & Hb & Hh & Hr & Hg). unfold height_turn.
  rewrite bind_unfold. unfold TypeORM.getBlockByHeight, gets. cbn beta iota.
  destruct (find _ _) eqn:Hfree;
    [rewrite setLastProcessedHeight_writes; eexists; reflexivity|].
  unfold getBlockByHeight_rpc in Hb.
  rewrite bind_lift. destruct (getBlockHash _ _) as [hash|e]; [|discriminate].
  rewrite bind_lift, Hb. rewrite bind_unfold.
  destruct (saveBlock_at_free_height env b s Hr) as (r & s1 & ->);
    [now rewrite Hh|].
  rewrite bind_unfold.
  destruct (returns_for_of (blk_tx b) (transaction_turn env h (blk_time b))
              (fun txid => transaction_turn_returns env h (blk_time b) txid Hg)
              s1)
    as ([] & s2 & ->).
  rewrite setLastProcessedHeight_writes. eexists. reflexivity.
Qed.

Lemma height_turns_return env (l : list Z) :
  (forall h, h ∈ l -> served env h) ->
  forall s, exists s', for_of l (height_turn env) s = (Ok tt, s').
Proof.
  induction l as [|h l IH]; intros Hall s; [now exists s|].
  cbn [for_of]. rewrite bind_unfold.
  destruct (height_turn_returns env h s) as (s1 & ->); [apply Hall; left|].
  apply IH. intros k Hk. apply Hall. now right.
Qed.

Lemma syncBlocks_served_returns env lo hi s :
  (forall h, lo <= h <= hi -> served env h) ->
  exists s', TypeORM.syncBlocks env lo hi s = (Ok tt, s').
Proof.
  intros Hserved. rewrite syncBlocks_is_loop. apply height_turns_return.
  intros h Hh. apply Hserved. unfold heights in Hh.
  apply elem_of_seqZ in Hh. lia.
Qed.

(** X7. A transaction never stops the sync. If, for every height of the
    range, the node has a block that says it is at that height and
    whose row the storage engine accepts (and, should the range hold
    height 0, the engine accepts the rows of the genesis descriptor),
    then [syncBlocks] returns, whatever happens to the transactions:
    unknown to the node, an amount that is no number, a row of a
    transaction, an input or an output that the engine refuses, a
    refused address write. Only the block-level calls and the genesis
    fallback, which run outside the [try], can make it throw. *)
Theorem syncBlocks_returns_when_blocks_are_served env lo hi s :
  (forall h, lo <= h <= hi -> served env h) ->
  exists s', TypeORM.syncBlocks env lo hi s = (Ok tt, s').
Proof.
  intros Hserved. rewrite syncBlocks_is_loop. apply height_turns_return.
  intros h Hh. apply Hserved. unfold heights in Hh.
  apply elem_of_seqZ in Hh. lia.
Qed.

(** A node that lists a transaction at height 1 and cannot serve it. *)
Module Lost.

Definition b1 : BitcoinBlock := Scenario.mk_block "h1" 1 (Some "h0") ["gone"].
Definition chain : Rpc := Scenario.node [b1] [].
Definition env : TypeORM.Env := Scenario.env_of chain Scenario.never.

End Lost.

Lemma syncBlocks_returns_when_blocks_are_served_witness :
  getTransaction (TypeORM.rpc Lost.env) "gone" = Throw (RpcError (-5))
  /\ exists s',
      TypeORM.syncBlocks Lost.env 1 1 TypeORM.empty_store = (Ok tt, s').
Proof.
  split; [reflexivity|].
  apply (syncBlocks_returns_when_blocks_are_served Lost.env 1 1
           TypeORM.empty_store).
  intros h Hh. assert (h = 1) as -> by lia.
  exists Lost.b1. repeat split; try reflexivity; discriminate.
Defined.

(** *** Resuming *)

Lemma syncBlocks_split env lo mid hi s :
  lo <= mid + 1 -> mid <= hi ->
  TypeORM.syncBlocks env lo hi s
  = match TypeORM.syncBlocks env lo mid s with
    | (Ok _, s1) => TypeORM.syncBlocks env (mid + 1) hi s1
    | (Throw e, s1) => (Throw e, s1)
    end.
Proof.
  intros H1 H2. unfold TypeORM.syncBlocks.
  rewrite (heights_split lo mid hi) by lia.
  now rewrite for_of_app, bind_unfold.
Qed.

(** X8. A range can be synced in two runs: syncing lo..mid and then
    mid+1..hi does what syncing lo..hi does, and when the first run
    throws, the run over the whole range throws the same error at the
    same point. *)
Theorem syncBlocks_in_two_runs env lo mid hi s :
  lo <= mid + 1 -> mid <= hi ->
  TypeORM.syncBlocks env lo hi s
  = match TypeORM.syncBlocks env lo mid s with
    | (Ok _, s1) => TypeORM.syncBlocks env (mid + 1) hi s1
    | (Throw e, s1) => (Throw e, s1)
    end.
Proof.
  intros H1 H2. unfold TypeORM.syncBlocks.
  rewrite (heights_split lo mid hi) by lia.
  now rewrite for_of_app, bind_unfold.
Qed.

Lemma syncBlocks_in_two_runs_witness :
  TypeORM.syncBlocks Cases.env3 1 3 TypeORM.empty_store
  = match TypeORM.syncBlocks Cases.env3 1 2 TypeORM.empty_store with
    | (Ok _, s1) => TypeORM.syncBlocks Cases.env3 3 3 s1
    | (Throw e, s1) => (Throw e, s1)
    end.
Proof.
  apply (syncBlocks_in_two_runs Cases.env3 1 2 3 TypeORM.empty_store); lia.
Defined.

(** *** getOrCreateAddress *)

(** X9. [getOrCreateAddress] returns the row of a known address without
    writing, even when writes to it are refused; for an unknown
    address it stores a row of zeros and returns it, or throws when
    the write is refused; and once it has returned, calling it again
    returns the same row and changes nothing. *)
Theorem getOrCreateAddress_creates_once env a s :
  (forall r, TypeORM.addresses s !! a = Some r ->
             Service.getOrCreateAddress env a s = (Ok r, s))
  /\ (TypeORM.addresses s !! a = None ->
      TypeORM.address_write_fails env a = false ->
      Service.getOrCreateAddress env a s
      = (Ok TypeORM.new_address,
         TypeORM.with_addresses (fun m => <[a := TypeORM.new_address]> m) s))
  /\ (TypeORM.addresses s !! a = None ->
      TypeORM.address_write_fails env a = true ->
      Service.getOrCreateAddress env a s = (Throw DbError, s))
  /\ (forall r s',
        Service.getOrCreateAddress env a s = (Ok r, s') ->
        Service.getOrCreateAddress env a s' = (Ok r, s')
        /\ TypeORM.getAddressInfo a s' = (Ok (Some r), s')).
Proof.
  assert (Hknown : forall r t, TypeORM.addresses t !! a = Some r ->
                     Service.getOrCreateAddress env a t = (Ok r, t)).
  { intros r t Hr. unfold Service.getOrCreateAddress.
    rewrite bind_unfold. unfold gets. cbn beta iota. now rewrite Hr. }
  split; [intros r; apply Hknown|]. split; [|split].
  - intros Hn Hf. unfold Service.getOrCreateAddress.
    rewrite bind_unfold. unfold gets. cbn beta iota. rewrite Hn.
    unfold TypeORM.addressRepo_save. rewrite Hf. reflexivity.
  - intros Hn Hf. unfold Service.getOrCreateAddress.
    rewrite bind_unfold. unfold gets. cbn beta iota. rewrite Hn.
    unfold TypeORM.addressRepo_save. rewrite Hf. reflexivity.
  - intros r s' Hrun.
    assert (Hrow : TypeORM.addresses s' !! a = Some r).
    { unfold Service.getOrCreateAddress in Hrun.
      rewrite bind_unfold in Hrun. unfold gets in Hrun. cbn beta iota in Hrun.
      destruct (TypeORM.addresses s !! a) as [r0|] eqn:Hr0.
      - injection Hrun as <- <-. exact Hr0.
      - unfold TypeORM.addressRepo_save in Hrun.
        destruct (TypeORM.address_write_fails env a); [discriminate|].
        injection Hrun as <- <-. cbn. apply lookup_insert_eq. }
    split; [now apply Hknown|].
    unfold TypeORM.getAddressInfo, gets. now rewrite Hrow.
Qed.

Lemma getOrCreateAddress_creates_once_witness :
  Service.getOrCreateAddress Scenario.env_refusing_X "X" Scenario.x_has_5
  = (Ok {| TypeORM.addr_balance := 5; TypeORM.addr_total_received := 5;
           TypeORM.addr_total_sent := 0; TypeORM.addr_transaction_count := 1;
           TypeORM.addr_utxo_count := 0 |}, Scenario.x_has_5)
  /\ Service.getOrCreateAddress Scenario.env_refusing_X "X" TypeORM.empty_store
     = (Throw DbError, TypeORM.empty_store)
  /\ Service.getOrCreateAddress Scenario.env_refusing_X "Y" TypeORM.empty_store
     = (Ok TypeORM.new_address,
        TypeORM.with_addresses (fun m => <["Y" := TypeORM.new_address]> m)
          TypeORM.empty_store).
Proof.
  split; [|split].
  - apply (proj1 (getOrCreateAddress_creates_once Scenario.env_refusing_X "X"
                    Scenario.x_has_5)).
    reflexivity.
  - apply (proj1 (proj2 (proj2 (getOrCreateAddress_creates_once
                                  Scenario.env_refusing_X "X"
                                  TypeORM.empty_store))));
      reflexivity.
  - apply (proj1 (proj2 (getOrCreateAddress_creates_once
                           Scenario.env_refusing_X "Y" TypeORM.empty_store)));
      reflexivity.
Defined.

(** *** Credit and debit *)

(** X10. A credit followed by a debit of the same amount, both accepted,
    leaves the balance of the address where it was; both totals have
    grown by the amount and the transaction count by two, and no other
    address row has changed. *)
Theorem credit_then_debit_restores_the_balance env a v s :
  TypeORM.address_write_fails env a = false ->
  let s2 :=
    snd (TypeORM.updateAddressBalance env a v false
           (snd (TypeORM.updateAddressBalance env a v true s))) in
  exists r2,
    TypeORM.addresses s2 !! a = Some r2
    /\ TypeORM.addr_balance r2 = TypeORM.addr_balance (row_or_new s a)
    /\ TypeORM.addr_total_received r2
       = TypeORM.addr_total_received (row_or_new s a) + v
    /\ TypeORM.addr_total_sent r2 = TypeORM.addr_total_sent (row_or_new s a) + v
    /\ TypeORM.addr_transaction_count r2
       = TypeORM.addr_transaction_count (row_or_new s a) + 2
    /\ TypeORM.addr_utxo_count r2 = TypeORM.addr_utxo_count (row_or_new s a)
    /\ (forall b, b <> a -> TypeORM.addresses s2 !! b = TypeORM.addresses s !! b)
    /\ same_rows s s2
    /\ TypeORM.utxos s2 = TypeORM.utxos s.
Proof.
  intros Hf. cbn zeta.
  rewrite (updateAddressBalance_writes env a v true s Hf). cbn [snd].
  rewrite updateAddressBalance_writes by exact Hf. cbn [snd].
  assert (Hrow : forall r,
             row_or_new (TypeORM.with_addresses (fun m => <[a := r]> m) s) a = r).
  { intros r. unfold row_or_new. cbn. now rewrite lookup_insert_eq. }
  eexists. split; [cbn; apply lookup_insert_eq|].
  rewrite Hrow. cbn.
  split; [lia|]. split; [reflexivity|]. split; [reflexivity|].
  split; [lia|]. split; [reflexivity|]. split; [|now repeat split].
  intros b Hb. now rewrite !lookup_insert_ne by congruence.
Qed.

Lemma credit_then_debit_restores_the_balance_witness :
  TypeORM.addr_balance
    <$> TypeORM.addresses
          (snd (TypeORM.updateAddressBalance
                  (Scenario.env_of Scenario.chain Scenario.never) "X" 3 false
                  (snd (TypeORM.updateAddressBalance
                          (Scenario.env_of Scenario.chain Scenario.never)
                          "X" 3 true Scenario.x_has_5)))) !! "X"
  = Some 5.
Proof.
  destruct (credit_then_debit_restores_the_balance
              (Scenario.env_of Scenario.chain Scenario.never) "X" 3
              Scenario.x_has_5 eq_refl) as (r2 & Hr & Hb & _).
  rewrite Hr. cbn. now rewrite Hb.
Defined.

(** *** The recount, again *)

(** X11. When its writes are accepted, [recalculateAddressBalances]
    neither creates nor removes an address row: an address that owns
    UTXO rows but has no row of its own is left without one. And a
    second recount changes nothing: it reproduces the address and
    UTXO tables of the first. *)
Theorem recalculate_repeats_and_creates_no_row env s :
  (forall a, TypeORM.address_write_fails env a = false) ->
  exists s1 s2,
    TypeORM.recalculateAddressBalances env s = (Ok tt, s1)
    /\ TypeORM.recalculateAddressBalances env s1 = (Ok tt, s2)
    /\ TypeORM.addresses s2 = TypeORM.addresses s1
    /\ TypeORM.utxos s2 = TypeORM.utxos s1
    /\ TypeORM.utxos s1 = TypeORM.utxos s
    /\ dom (TypeORM.addresses s1) = dom (TypeORM.addresses s).
Proof.
  intros Hw.
  destruct (recalculate_run env Hw s) as (s1 & Hrun1 & Hu1 & Ha1).
  destruct (recalculate_run env Hw s1) as (s2 & Hrun2 & Hu2 & Ha2).
  exists s1, s2. repeat split; try assumption.
  - apply map_eq. intros a. rewrite Ha2, Hu1, Ha1.
    now destruct (TypeORM.addresses s !! a).
  - apply set_eq. intros a. rewrite !elem_of_dom, Ha1.
    rewrite <- !not_eq_None_Some. now destruct (TypeORM.addresses s !! a).
Qed.

(** The store in which the credit of X was refused: after a recount
    with every write accepted X still has no address row, while its
    unspent output of 5,000,000,000 is in the UTXO table. *)
Lemma recalculate_repeats_and_creates_no_row_witness :
  exists s1,
    TypeORM.recalculateAddressBalances
      (Scenario.env_of Scenario.chain Scenario.never)
      (snd (TypeORM.syncBlocks Scenario.env_refusing_X 1 1 TypeORM.empty_store))
    = (Ok tt, s1)
    /\ dom (TypeORM.addresses s1) = ∅
    /\ unspent_sum (TypeORM.utxos s1) "X" = 5000000000.
Proof.
  destruct (recalculate_repeats_and_creates_no_row
              (Scenario.env_of Scenario.chain Scenario.never)
              (snd (TypeORM.syncBlocks Scenario.env_refusing_X 1 1
                      TypeORM.empty_store))
              (fun _ => eq_refl))
    as (s1 & s2 & Hrun & _ & _ & _ & Hu & Hd).
  exists s1. split; [exact Hrun|]. split.
  - rewrite Hd. vm_compute. reflexivity.
  - rewrite Hu. vm_compute. reflexivity.
Defined.

(** *** The greatest stored height *)

Lemma foldr_max_spec (h : Z) (l : list Z) :
  let m := foldr Z.max h l in
  (m = h \/ m ∈ l) /\ h <= m /\ forall x, x ∈ l -> x <= m.
Proof.
  induction l as [|y l IH]; cbn.
  - split; [now left|]. split; [lia|]. intros x Hx. inversion Hx.
  - destruct IH as ([Hm|Hm] & Hh & Hall).
    + split; [|split; [lia|]].
      * destruct (Z.max_spec y (foldr Z.max h l)) as [[_ ->]|[_ ->]];
          [now left|right; left].
      * intros x Hx. apply elem_of_cons in Hx as [->|Hx]; [lia|].
        specialize (Hall x Hx). lia.
    + split; [|split; [lia|]].
      * destruct (Z.max_spec y (foldr Z.max h l)) as [[_ ->]|[_ ->]];
          [right; now right|right; left].
      * intros x Hx. apply elem_of_cons in Hx as [->|Hx]; [lia|].
        specialize (Hall x Hx). lia.
Qed.

(** X12. [getLastBlockHeight] gives -1 for an empty table and otherwise
    the greatest stored height, except that a greatest height of 0 is
    reported as -1 too: with only the genesis block stored the answer
    is that of an empty table. *)
Theorem getLastBlockHeight_of_the_greatest_block s :
  (TypeORM.blocks s = [] -> Service.getLastBlockHeight s = (Ok (-1), s))
  /\ (forall b,
        b ∈ TypeORM.blocks s ->
        (forall b', b' ∈ TypeORM.blocks s ->
                    TypeORM.block_height b' <= TypeORM.block_height b) ->
        Service.getLastBlockHeight s
        = (Ok (if TypeORM.block_height b =? 0 then -1
               else TypeORM.block_height b), s)).
Proof.
  unfold Service.getLastBlockHeight, gets. split.
  - now intros ->.
  - intros b Hb Hmax. f_equal. f_equal.
    destruct (TypeORM.blocks s) as [|b0 l] eqn:Hl; [inversion Hb|].
    cbn [Service.max_height].
    destruct (foldr_max_spec (TypeORM.block_height b0)
                (TypeORM.block_height <$> l)) as (Hin & Hge & Hall).
    set (m := foldr Z.max _ _) in *.
    assert (Hle : m <= TypeORM.block_height b).
    { destruct Hin as [->|Hin]; [apply Hmax; left|].
      apply list_elem_of_fmap in Hin as (x & -> & Hx). apply Hmax. now right. }
    assert (Hge' : TypeORM.block_height b <= m).
    { apply elem_of_cons in Hb as [->|Hb]; [exact Hge|].
      apply Hall. apply list_elem_of_fmap. now exists b. }
    now replace m with (TypeORM.block_height b) by lia.
Qed.

(** After the genesis block alone has been synced, a block is stored
    at height 0 and the progress mark is 0, but [getLastBlockHeight]
    says -1. *)
Lemma getLastBlockHeight_of_the_greatest_block_witness :
  let s :=
    snd (TypeORM.syncBlocks (Scenario.env_of Scenario.chain Scenario.never)
           0 0 TypeORM.empty_store) in
  TypeORM.block_height <$> TypeORM.blocks s = [0]
  /\ Service.getLastBlockHeight s = (Ok (-1), s)
  /\ Service.getLastProcessedHeight s = (Ok (JSInt.Int 0), s).
Proof.
  cbn zeta. split; [vm_compute; reflexivity|]. split.
  - apply (proj2 (getLastBlockHeight_of_the_greatest_block
                    (snd (TypeORM.syncBlocks
                            (Scenario.env_of Scenario.chain Scenario.never)
                            0 0 TypeORM.empty_store)))
             {| TypeORM.block_hash := blk_hash Scenario.genesis;
                TypeORM.block_height := 0;
                TypeORM.block_previousblockhash := None;
                TypeORM.block_nextblockhash := None;
                TypeORM.block_time := blk_time Scenario.genesis;
                TypeORM.block_nTx := 1 |}).
    + vm_compute. left.
    + intros b' Hb'. vm_compute in Hb'.
      apply list_elem_of_singleton in Hb'. subst b'. cbn. lia.
  - vm_compute. reflexivity.
Defined.

(** *** Rows are only added *)

(** The four list tables of [s'] extend those of [s], and no address
    or UTXO key is lost. *)
Definition grows (s s' : TypeORM.Store) : Prop :=
  TypeORM.blocks s `prefix_of` TypeORM.blocks s'
  /\ TypeORM.transactions s `prefix_of` TypeORM.transactions s'
  /\ TypeORM.inputs s `prefix_of` TypeORM.inputs s'
  /\ TypeORM.outputs s `prefix_of` TypeORM.outputs s'
  /\ dom (TypeORM.addresses s) ⊆ dom (TypeORM.addresses s')
  /\ dom (TypeORM.utxos s) ⊆ dom (TypeORM.utxos s').

#[local] Instance grows_preorder : PreOrder grows.
Proof.
  split.
  - intros s. now repeat split.
  - intros a b c (?&?&?&?&?&?) (?&?&?&?&?&?).
    repeat split; etransitivity; eassumption.
Qed.

Lemma grows_saveBlock env b : preserves grows (TypeORM.saveBlock env b).
Proof.
  unfold TypeORM.saveBlock. preserving. apply preserves_modify. intros s.
  repeat split; try reflexivity. now apply prefix_app_r.
Qed.

Lemma grows_saveTransaction env tx h t :
  preserves grows (TypeORM.saveTransaction env tx h t).
Proof.
  unfold TypeORM.saveTransaction. preserving. apply preserves_modify. intros s.
  repeat split; try reflexivity. now apply prefix_app_r.
Qed.

Lemma grows_saveTransactionInput env i t :
  preserves grows (TypeORM.saveTransactionInput env i t).
Proof.
  unfold TypeORM.saveTransactionInput. preserving.
  apply preserves_modify. intros s.
  repeat split; try reflexivity. now apply prefix_app_r.
Qed.

Lemma grows_saveTransactionOutput env o t :
  preserves grows (TypeORM.saveTransactionOutput env o t).
Proof.
  unfold TypeORM.saveTransactionOutput. preserving.
  apply preserves_modify. intros s.
  repeat split; try reflexivity. now apply prefix_app_r.
Qed.

Lemma grows_updateAddressBalance env a v r :
  preserves grows (TypeORM.updateAddressBalance env a v r).
Proof.
  intros s. destruct (TypeORM.address_write_fails env a) eqn:Hf.
  - rewrite updateAddressBalance_fails by exact Hf. reflexivity.
  - rewrite updateAddressBalance_writes by exact Hf. cbn.
    repeat split; try reflexivity. cbn. rewrite dom_insert. set_solver.
Qed.

Lemma grows_saveUTXO env a b c d e f g :
  preserves grows (TypeORM.saveUTXO env a b c d e f g).
Proof.
  intros s. unfold TypeORM.saveUTXO, bind, gets, modify, ret.
  destruct (_ !! _); cbn; [reflexivity|].
  repeat split; try reflexivity. cbn. rewrite dom_insert. set_solver.
Qed.

Lemma grows_processInputSpending env i t h :
  preserves grows (TypeORM.processInputSpending env i t h).
Proof.
  intros s.
  pose proof (rows_processInputSpending env i t h s) as (Hb & Ht & Hi & Ho).
  pose proof (grows_updateAddressBalance env) as Hupd.
  unfold TypeORM.processInputSpending, try_catch in *.
  destruct (in_txid i) as [pt|]; [|reflexivity].
  destruct (in_vout i) as [pv|]; [|reflexivity].
  rewrite bind_unfold in *. unfold TypeORM.getUTXOByTxidAndIndex, gets in *.
  cbn beta iota in *.
  destruct (TypeORM.utxos s !! (pt, pv)) as [u|] eqn:Hu; [|reflexivity].
  destruct (TypeORM.utxo_is_spent u); [reflexivity|].
  rewrite bind_unfold in *. unfold TypeORM.spendUTXO, modify in *.
  cbn beta iota in *.
  specialize (Hupd (TypeORM.utxo_address u) (TypeORM.utxo_value u) false
                (TypeORM.with_utxos
                   (alter (TypeORM.mark_spent env t 0 h) (pt, pv)) s)).
  destruct (TypeORM.updateAddressBalance env _ _ _ _) as [[[]|e] s2];
    cbn in *;
    (etransitivity; [|exact Hupd]);
    repeat split; try reflexivity; cbn; now rewrite dom_alter.
Qed.

Lemma grows_setState k v : preserves grows (TypeORM.setState k v).
Proof.
  unfold TypeORM.setState.
  preserving; apply preserves_modify; intros st; now repeat split.
Qed.

(** X13. [syncBlocks] only adds: the block, transaction, input and output
    rows present before a run are there after it, unchanged and in
    the same order, followed by the new ones, and every address and
    UTXO key is still there. So the block, transaction and address
    counts of [getStats] never go down. *)
Theorem syncBlocks_only_adds_rows env lo hi s :
  let s' := snd (TypeORM.syncBlocks env lo hi s) in
  grows s s'
  /\ exists r r',
      Service.getStats s = (Ok r, s)
      /\ Service.getStats s' = (Ok r', s')
      /\ Service.stats_blocks r <= Service.stats_blocks r'
      /\ Service.stats_transactions r <= Service.stats_transactions r'
      /\ Service.stats_addresses r <= Service.stats_addresses r'.
Proof.
  cbn zeta.
  assert (Hg : grows s (snd (TypeORM.syncBlocks env lo hi s))).
  { revert s. change (preserves grows (TypeORM.syncBlocks env lo hi)).
    apply preserves_syncBlocks; try exact _.
    - apply grows_saveBlock.
    - apply grows_saveTransaction.
    - apply grows_saveTransactionInput.
    - apply grows_saveTransactionOutput.
    - apply grows_updateAddressBalance.
    - apply grows_saveUTXO.
    - apply grows_processInputSpending.
    - apply grows_setState. }
  split; [exact Hg|].
  destruct Hg as (Hb & Ht & _ & _ & Ha & _).
  eexists. eexists. split; [reflexivity|]. split; [reflexivity|]. cbn.
  split; [|split].
  - apply prefix_length in Hb. lia.
  - apply prefix_length in Ht. lia.
  - apply subseteq_size in Ha. rewrite !size_dom in Ha. lia.
Qed.

(** ** Start-up synchronisation (index-typeorm.ts)

    [BitcoinIndexerTypeORM.performBasicSync] reads the progress mark
    and the height of the chain and calls [syncBlocks] in batches of
    ten heights, at most fifty heights per start-up. Heights are
    Numbers: the arithmetic below is that of the integers, which is
    what the code computes while the mark and the chain height are
    below 2^52 in magnitude; beyond that the model gives no result,
    as it does when the fuel of the batch loop runs out. *)

Module Startup.

Section PerformBasicSync.

Variable env : TypeORM.Env.

(** [(await rpcService.getBlockchainInfo()).blocks] *)
Variable getBlockchainInfo : result Z.

Definition safe (z : Z) : bool := Z.abs z <? 2 ^ 52.

(** The batch loop; a batch that throws is logged and the loop goes
    on with the next one. *)
Fixpoint batch_loop (fuel : nat) (batchStart endHeight : Z)
  (s : TypeORM.Store) : option (result unit * TypeORM.Store) :=
  if batchStart <=? endHeight then
    match fuel with
    | O => None
    | S fuel' =>
        let batchEnd := Z.min (batchStart + 10 - 1) endHeight in
        let s1 :=
          snd (try_catch (TypeORM.syncBlocks env batchStart batchEnd)
                 (fun _ => ret tt) s) in
        batch_loop fuel' (batchStart + 10) endHeight s1
    end
  else Some (Ok tt, s).

(** From the mark on: [Math.max(1, last + 1)] up to
    [Math.min(currentHeight, startHeight + maxBlocks - 1)]. *)
Definition sync_from (fuel : nat) (startHeight currentHeight : Z)
  (s : TypeORM.Store) : option (result unit * TypeORM.Store) :=
  let endHeight := Z.min currentHeight (startHeight + 50 - 1) in
  if startHeight <=? endHeight
  then batch_loop fuel startHeight endHeight s
  else Some (Ok tt, s).

(** The outer [catch] logs and returns: "Don't throw - let the server
    continue running". With a mark that reads as NaN or +Infinity
    the start height is NaN or +Infinity and [startHeight <=
    endHeight] is false; with -Infinity the start height is 1. *)
Definition performBasicSync (fuel : nat) (s : TypeORM.Store)
  : option (result unit * TypeORM.Store) :=
  match getBlockchainInfo with
  | Throw _ => Some (Ok tt, s)
  | Ok currentHeight =>
      match Service.getLastProcessedHeight s with
      | (Throw _, s1) => Some (Ok tt, s1)
      | (Ok JSInt.NaN, s1) => Some (Ok tt, s1)
      | (Ok (JSInt.Inf false), s1) => Some (Ok tt, s1)
      | (Ok (JSInt.Inf true), s1) =>
          if safe currentHeight then sync_from fuel 1 currentHeight s1
          else None
      | (Ok (JSInt.Int lastProcessedHeight), s1) =>
          if safe lastProcessedHeight && safe currentHeight
          then sync_from fuel (Z.max 1 (lastProcessedHeight + 1))
                 currentHeight s1
          else None
      end
  end.

End PerformBasicSync.

End Startup.

Lemma getLastProcessedHeight_reads s :
  exists last, Service.getLastProcessedHeight s = (Ok last, s).
Proof.
  unfold Service.getLastProcessedHeight, Service.getState.
  rewrite bind_unfold. unfold gets. cbn beta iota.
  destruct (TypeORM.state s !! "last_processed_height") as [v|];
    [|eexists; reflexivity].
  destruct (JS.truthy (Some v)) eqn:Ht; [|eexists; reflexivity].
  rewrite Ht. eexists. reflexivity.
Qed.

Lemma batch_loop_ends env : forall fuel batchStart endHeight s,
  endHeight - batchStart < 10 * Z.of_nat fuel ->
  exists s', Startup.batch_loop env fuel batchStart endHeight s = Some (Ok tt, s').
Proof.
  induction fuel as [|fuel IH]; intros batchStart endHeight s Hfuel.
  - cbn. destruct (batchStart <=? endHeight) eqn:Hle; [lia|now exists s].
  - cbn [Startup.batch_loop].
    destruct (batchStart <=? endHeight) eqn:Hle; [|now exists s].
    apply IH. lia.
Qed.

Lemma sync_from_ends env fuel startHeight currentHeight s :
  (5 <= fuel)%nat ->
  exists s',
    Startup.sync_from env fuel startHeight currentHeight s = Some (Ok tt, s').
Proof.
  intros Hfuel. unfold Startup.sync_from.
  destruct (_ <=? _) eqn:Hle; [|now exists s].
  apply batch_loop_ends. lia.
Qed.

(** X14. A start-up sync ends and never throws. Whatever the node and the
    store do, five turns of the batch loop are enough and
    [performBasicSync] returns normally; and when the chain is not
    above the mark, or has no block above height 0 while there is no
    mark, it leaves the store as it is: the genesis block is never
    synced at start-up. *)
Theorem performBasicSync_ends_without_throwing env info fuel s :
  (5 <= fuel)%nat ->
  (forall c, info = Ok c -> Startup.safe c = true) ->
  (forall z, fst (Service.getLastProcessedHeight s) = Ok (JSInt.Int z) ->
             Startup.safe z = true) ->
  (exists s', Startup.performBasicSync env info fuel s = Some (Ok tt, s'))
  /\ (forall c z,
        info = Ok c ->
        fst (Service.getLastProcessedHeight s) = Ok (JSInt.Int z) ->
        c <= z \/ c < 1 ->
        Startup.performBasicSync env info fuel s = Some (Ok tt, s)).
Proof.
  intros Hfuel Hc Hz.
  destruct (getLastProcessedHeight_reads s) as (last & Hlast).
  rewrite Hlast in Hz. cbn in Hz.
  split.
  - unfold Startup.performBasicSync. destruct info as [c|e]; [|now exists s].
    rewrite Hlast. specialize (Hc c eq_refl).
    destruct last as [|z|[]]; try (now exists s).
    + rewrite (Hz z eq_refl), Hc. cbn. now apply sync_from_ends.
    + rewrite Hc. now apply sync_from_ends.
  - intros c z -> Hl Hcase. rewrite Hlast in Hl. cbn in Hl.
    injection Hl as ->.
    unfold Startup.performBasicSync. rewrite Hlast.
    rewrite (Hz z eq_refl), (Hc c eq_refl). cbn.
    unfold Startup.sync_from.
    destruct (_ <=? _) eqn:Hle; [lia|reflexivity].
Qed.

Lemma syncBlocks_empty_range env lo hi s :
  hi < lo -> TypeORM.syncBlocks env lo hi s = (Ok tt, s).
Proof.
  intros Hlt. unfold TypeORM.syncBlocks, heights.
  now rewrite seqZ_nil by lia.
Qed.

Lemma batch_loop_served env : forall fuel batchStart endHeight s,
  endHeight - batchStart < 10 * Z.of_nat fuel ->
  (forall h, batchStart <= h <= endHeight -> served env h) ->
  Startup.batch_loop env fuel batchStart endHeight s
  = Some (TypeORM.syncBlocks env batchStart endHeight s).
Proof.
  induction fuel as [|fuel IH]; intros batchStart endHeight s Hfuel Hserved.
  - cbn. destruct (batchStart <=? endHeight) eqn:Hle; [lia|].
    now rewrite syncBlocks_empty_range by lia.
  - cbn [Startup.batch_loop].
    destruct (batchStart <=? endHeight) eqn:Hle;
      [|now rewrite syncBlocks_empty_range by lia].
    apply Z.leb_le in Hle.
    set (batchEnd := Z.min (batchStart + 10 - 1) endHeight).
    destruct (syncBlocks_served_returns env batchStart batchEnd s)
      as (s1 & Hrun); [intros h Hh; apply Hserved; lia|].
    unfold try_catch. rewrite Hrun. cbn [snd].
    rewrite IH by (try lia; intros h Hh; apply Hserved; lia).
    f_equal.
    rewrite (syncBlocks_split env batchStart batchEnd endHeight s)
      by lia.
    rewrite Hrun.
    destruct (Z.le_gt_cases endHeight (batchStart + 9)) as [Hlast|Hmore].
    + rewrite !syncBlocks_empty_range by lia. reflexivity.
    + f_equal. lia.
Qed.

(** X15. Where the mark stands after a start-up. With the mark at [last]
    and the chain at [current], let start = max(1, last + 1) and end
    = min(current, start + 49), and suppose start <= end. If the node
    serves every height from start to end and the storage engine
    accepts the rows of those blocks, [performBasicSync] does what one
    [syncBlocks(start, end)] does. And if that holds of just the
    heights of the last batch, the mark is at end afterwards, whether
    or not the earlier batches failed: heights of a failed batch are
    not tried again by a later start-up. *)
Theorem performBasicSync_moves_the_mark env current last fuel s :
  (5 <= fuel)%nat ->
  Startup.safe current = true -> Startup.safe last = true ->
  Service.getLastProcessedHeight s = (Ok (JSInt.Int last), s) ->
  let startHeight := Z.max 1 (last + 1) in
  let endHeight := Z.min current (startHeight + 49) in
  startHeight <= endHeight ->
  ((forall h, startHeight <= h <= endHeight -> served env h) ->
   Startup.performBasicSync env (Ok current) fuel s
   = Some (TypeORM.syncBlocks env startHeight endHeight s))
  /\ ((forall h,
         startHeight + 10 * ((endHeight - startHeight) / 10) <= h <= endHeight ->
         served env h) ->
      exists s',
        Startup.performBasicSync env (Ok current) fuel s = Some (Ok tt, s')
        /\ Service.getLastProcessedHeight s' = (Ok (JSInt.Int endHeight), s')).
Proof.
  intros Hfuel Hc Hl Hlast startHeight endHeight Hle.
  assert (Hunfold :
            Startup.performBasicSync env (Ok current) fuel s
            = Startup.batch_loop env fuel startHeight endHeight s).
  { unfold Startup.performBasicSync. rewrite Hlast, Hl, Hc. cbn [andb].
    unfold Startup.sync_from.
    replace (Z.max 1 (last + 1) + 50 - 1) with (startHeight + 49)
      by (unfold startHeight; lia).
    fold startHeight. fold endHeight.
    now replace (startHeight <=? endHeight) with true
      by (symmetry; apply Z.leb_le; exact Hle). }
  rewrite Hunfold. split.
  - intros Hserved. apply batch_loop_served; [|exact Hserved].
    unfold endHeight. lia.
  - assert (Hsafe : Z.abs endHeight < 2 ^ 53).
    { unfold Startup.safe in Hc, Hl. apply Z.ltb_lt in Hc, Hl.
      unfold endHeight, startHeight.
      assert (2 ^ 52 < 2 ^ 53) by (apply Z.pow_lt_mono_r; lia). lia. }
    assert (Hgen : forall n batchStart t,
               batchStart <= endHeight ->
               endHeight - batchStart < 10 * Z.of_nat n ->
               (forall h,
                   batchStart + 10 * ((endHeight - batchStart) / 10) <= h
                   <= endHeight -> served env h) ->
               exists s',
                 Startup.batch_loop env n batchStart endHeight t
                 = Some (Ok tt, s')
                 /\ Service.getLastProcessedHeight s'
                    = (Ok (JSInt.Int endHeight), s')).
    { induction n as [|n IH]; intros batchStart t Hb Hn Hserved; [lia|].
      cbn [Startup.batch_loop].
      replace (batchStart <=? endHeight) with true
        by (symmetry; apply Z.leb_le; exact Hb).
      set (batchEnd := Z.min (batchStart + 10 - 1) endHeight).
      destruct (Z.le_gt_cases endHeight (batchStart + 9)) as [Hfinal|Hmore].
      - assert (Hdiv : (endHeight - batchStart) / 10 = 0)
          by (apply Z.div_small; lia).
        rewrite Hdiv in Hserved.
        destruct (syncBlocks_served_returns env batchStart
                    batchEnd t) as (s1 & Hrun);
          [intros h Hh; apply Hserved; lia|].
        unfold try_catch. rewrite Hrun. cbn [snd].
        assert (Hstop : Startup.batch_loop env n (batchStart + 10) endHeight s1
                        = Some (Ok tt, s1)).
        { destruct n; cbn;
            now replace (batchStart + 10 <=? endHeight) with false
              by (symmetry; apply Z.leb_gt; lia). }
        exists s1. split; [exact Hstop|].
        replace batchEnd with endHeight in Hrun by (unfold batchEnd; lia).
        apply (syncBlocks_mark_after env batchStart endHeight t s1 Hrun Hsafe).
        exact Hb.
      - apply IH; [lia|lia|].
        intros h Hh. apply Hserved.
        replace (endHeight - batchStart)
          with ((endHeight - (batchStart + 10)) + 1 * 10) by lia.
        rewrite Z.div_add by lia. lia. }
    intros Hserved. apply Hgen; [exact Hle| |exact Hserved].
    unfold endHeight. lia.
Qed.

(** ** What the SQLite indexers keep

    [BitcoinIndexer] and [SimpleIndexer] write through the same
    statements. A relation between the connection before and after
    that each statement respects is respected by [indexTransaction]
    and [indexBlock] of both, whether they return or throw. *)

Section SqlitePreserves.

Context (R : Sqlite.Db -> Sqlite.Db -> Prop) `{!PreOrder R}.

Hypothesis R_insert_transaction :
  forall t r, preserves R (Sqlite.insert_or_replace_transaction t r).
Hypothesis R_insert_input :
  forall t v r, preserves R (Sqlite.insert_or_replace_input t v r).
Hypothesis R_insert_output :
  forall t v r, preserves R (Sqlite.insert_or_replace_output t v r).
Hypothesis R_addUTXO : forall t v r, preserves R (Sqlite.addUTXO t v r).
Hypothesis R_markOutputAsSpent :
  forall a b c d, preserves R (Sqlite.markOutputAsSpent a b c d).
Hypothesis R_updateAddressInfo :
  forall a v r h, preserves R (Sqlite.updateAddressInfo a v r h).
Hypothesis R_set_fee :
  forall fee txid,
    preserves R
      (Sqlite.statement (fun _ => true)
         (Sqlite.with_transactions (alter (Sqlite.set_fee fee) txid))).

Lemma R_bind_integer x : preserves R (Sqlite.bind_integer x).
Proof. unfold Sqlite.bind_integer. preserving. Qed.

Lemma R_getPreviousOutput t v : preserves R (Sqlite.getPreviousOutput t v).
Proof. unfold Sqlite.getPreviousOutput. preserving. Qed.

#[local] Hint Resolve R_bind_integer R_getPreviousOutput : preserves.

Lemma bitcoin_indexTransaction_preserves tx :
  preserves R (BitcoinIndexer.indexTransaction tx).
Proof.
  unfold BitcoinIndexer.indexTransaction, BitcoinIndexer.index_input,
    BitcoinIndexer.index_output, BitcoinIndexer.update_fee.
  preserving.
Qed.

Lemma simple_indexTransaction_preserves tx :
  preserves R (SimpleIndexer.indexTransaction tx).
Proof.
  unfold SimpleIndexer.indexTransaction, SimpleIndexer.index_input,
    SimpleIndexer.index_output, SimpleIndexer.update_fee.
  preserving.
Qed.

#[local] Hint Resolve bitcoin_indexTransaction_preserves
  simple_indexTransaction_preserves : preserves.

Hypothesis R_insert_block :
  forall h r, preserves R (Sqlite.insert_or_replace_block h r).

Lemma bitcoin_indexBlock_preserves rpc block :
  preserves R (BitcoinIndexer.indexBlock rpc block).
Proof. unfold BitcoinIndexer.indexBlock. preserving. Qed.

Lemma simple_indexBlock_preserves rpc block :
  preserves R (SimpleIndexer.indexBlock rpc block).
Proof. unfold SimpleIndexer.indexBlock. preserving. Qed.

End SqlitePreserves.

(** A relation on the tables, as a relation on the connection. *)
Definition on_db (T : Sqlite.Tables -> Sqlite.Tables -> Prop)
  (db db' : Sqlite.Db) : Prop :=
  T (Sqlite.tables db) (Sqlite.tables db').

#[local] Instance on_db_preorder T `{!PreOrder T} : PreOrder (on_db T).
Proof.
  split; [intros db; unfold on_db; reflexivity|].
  intros a b c Hab Hbc. unfold on_db in *. etransitivity; eassumption.
Qed.

(** From one block to a run of [syncBlocks]: a relation on the
    tables that [indexBlock] respects holds between the tables
    before a run and those after it, also when a batch is rolled
    back. *)
Section SqliteSync.

Variable rpc : Rpc.
Variable indexBlock : BitcoinBlock -> M Sqlite.Db unit.
Variable batchSize : Z.
Context (T : Sqlite.Tables -> Sqlite.Tables -> Prop) `{!PreOrder T}.

Hypothesis indexBlock_keeps : forall block, keeps_snapshot (indexBlock block).
Hypothesis indexBlock_T : forall block, preserves (on_db T) (indexBlock block).

Lemma index_range_T lo hi :
  preserves (on_db T) (Sqlite.index_range rpc indexBlock lo hi).
Proof.
  unfold Sqlite.index_range. apply preserves_for_of; [exact _|]. intros h.
  apply preserves_bind; [exact _|apply preserves_lift; exact _|].
  exact indexBlock_T.
Qed.

Lemma syncBlocks_T : forall fuel lo hi db r db',
  Sqlite.snapshot db = None ->
  Sqlite.syncBlocks rpc indexBlock batchSize fuel lo hi db = Some (r, db') ->
  T (Sqlite.tables db) (Sqlite.tables db') /\ Sqlite.snapshot db' = None.
Proof.
  unfold Sqlite.syncBlocks.
  induction fuel as [|fuel IH]; intros lo hi db r db' Hs Hrun;
    cbn [Sqlite.syncBlocks_from] in Hrun.
  - destruct (lo <=? hi); [discriminate|].
    injection Hrun as <- <-. split; [reflexivity|exact Hs].
  - destruct (lo <=? hi);
      [|injection Hrun as <- <-; split; [reflexivity|exact Hs]].
    unfold Sqlite.beginTransaction in Hrun. rewrite Hs in Hrun.
    rewrite bind_unfold in Hrun.
    set (db1 := {| Sqlite.tables := Sqlite.tables db;
                   Sqlite.snapshot := Some (Sqlite.tables db) |}) in *.
    pose proof (index_range_keeps rpc indexBlock indexBlock_keeps lo
                  (Z.min (lo + batchSize - 1) hi) db1) as Hk.
    pose proof (index_range_T lo (Z.min (lo + batchSize - 1) hi) db1) as Ht.
    destruct (Sqlite.index_range rpc indexBlock lo _ db1) as [[[]|e] db2];
      cbn in Hk, Ht; unfold same_snapshot in Hk; unfold on_db in Ht.
    + unfold Sqlite.commit in Hrun. rewrite Hk in Hrun. cbn in Hrun.
      apply IH in Hrun; [|reflexivity]. cbn in Hrun.
      destruct Hrun as [Hrel Hclosed]. split; [|exact Hclosed].
      etransitivity; [exact Ht|exact Hrel].
    + unfold Sqlite.rollback in Hrun. rewrite Hk in Hrun. cbn in Hrun.
      injection Hrun as <- <-. cbn. split; reflexivity.
Qed.

End SqliteSync.

(** *** Address rows *)

Definition same_addresses (db db' : Sqlite.Db) : Prop :=
  Sqlite.addresses (Sqlite.tables db') = Sqlite.addresses (Sqlite.tables db).

#[local] Instance same_addresses_preorder : PreOrder same_addresses.
Proof.
  split; [now intros db|].
  intros a b c Hab Hbc. unfold same_addresses in *. congruence.
Qed.

Lemma addresses_statement check f :
  (forall t, Sqlite.addresses (f t) = Sqlite.addresses t) ->
  preserves same_addresses (Sqlite.statement check f).
Proof.
  intros Hf. apply preserves_statement; [exact _|].
  intros db. unfold same_addresses. cbn. apply Hf.
Qed.

Lemma addresses_insert_block h r :
  preserves same_addresses (Sqlite.insert_or_replace_block h r).
Proof. now apply addresses_statement. Qed.

Lemma addresses_insert_transaction t r :
  preserves same_addresses (Sqlite.insert_or_replace_transaction t r).
Proof. now apply addresses_statement. Qed.

Lemma addresses_insert_input t v r :
  preserves same_addresses (Sqlite.insert_or_replace_input t v r).
Proof. now apply addresses_statement. Qed.

Lemma addresses_insert_output t v r :
  preserves same_addresses (Sqlite.insert_or_replace_output t v r).
Proof. now apply addresses_statement. Qed.

Lemma addresses_addUTXO t v r : preserves same_addresses (Sqlite.addUTXO t v r).
Proof. now apply addresses_statement. Qed.

Lemma addresses_markOutputAsSpent a b c d :
  preserves same_addresses (Sqlite.markOutputAsSpent a b c d).
Proof.
  unfold Sqlite.markOutputAsSpent.
  apply preserves_bind; [exact _|now apply addresses_statement|].
  intros _. now apply addresses_statement.
Qed.

Lemma addresses_set_fee fee txid :
  preserves same_addresses
    (Sqlite.statement (fun _ => true)
       (Sqlite.with_transactions (alter (Sqlite.set_fee fee) txid))).
Proof. now apply addresses_statement. Qed.

Lemma ensure_then_alter {V} (m : gmap string V) a (f : V -> V) fresh :
  alter f a (match m !! a with
             | Some _ => m
             | None => <[a := fresh]> m
             end)
  = <[a := f (match m !! a with Some r => r | None => fresh end)]> m.
Proof.
  apply map_eq. intros k. destruct (decide (a = k)) as [->|Hk].
  - rewrite lookup_insert_eq.
    destruct (m !! k) as [r|] eqn:Hr.
    + now rewrite lookup_alter_eq, Hr.
    + now rewrite lookup_alter_eq, lookup_insert_eq.
  - rewrite lookup_insert_ne by exact Hk. rewrite lookup_alter_ne by exact Hk.
    destruct (m !! a); [reflexivity|now rewrite lookup_insert_ne].
Qed.

(** What one [updateAddressInfo] leaves in the row of its address. *)
Definition touched (value : Z) (isReceived : bool) (blockHeight : option Z)
  (found : option Sqlite.AddressRow) : Sqlite.AddressRow :=
  (if isReceived then Sqlite.receive value blockHeight
   else Sqlite.send value blockHeight)
    (match found with
     | Some r => r
     | None => Sqlite.fresh_address blockHeight
     end).

Lemma updateAddressInfo_run address value isReceived blockHeight db :
  Sqlite.updateAddressInfo address value isReceived blockHeight db
  = (Ok tt,
     Sqlite.on_tables
       (Sqlite.with_addresses
          (fun m =>
             <[address := touched value isReceived blockHeight (m !! address)]> m))
       db).
Proof.
  unfold Sqlite.updateAddressInfo, bind, Sqlite.statement, touched. cbn.
  destruct db as [t sn]. unfold Sqlite.on_tables. cbn.
  destruct isReceived; cbn; do 2 f_equal;
    unfold Sqlite.with_addresses; cbn; f_equal; apply ensure_then_alter.
Qed.

(** Every address row of [t] is in [t'], related by [P]. *)
Definition rows_related (P : Sqlite.AddressRow -> Sqlite.AddressRow -> Prop)
  (t t' : Sqlite.Tables) : Prop :=
  forall a r,
    Sqlite.addresses t !! a = Some r ->
    exists r', Sqlite.addresses t' !! a = Some r' /\ P r r'.

#[local] Instance rows_related_preorder P `{!PreOrder P} :
  PreOrder (rows_related P).
Proof.
  split.
  - intros t a r Hr. exists r. split; [exact Hr|reflexivity].
  - intros t1 t2 t3 H12 H23 a r Hr.
    destruct (H12 a r Hr) as (r2 & Hr2 & HP2).
    destruct (H23 a r2 Hr2) as (r3 & Hr3 & HP3).
    exists r3. split; [exact Hr3|]. etransitivity; eassumption.
Qed.

Lemma same_addresses_related P `{!PreOrder P} db db' :
  same_addresses db db' ->
  on_db (rows_related P) db db'.
Proof.
  intros He a r Hr. exists r. unfold same_addresses in He. rewrite He.
  split; [exact Hr|reflexivity].
Qed.

Lemma related_updateAddressInfo P `{!PreOrder P} address value isReceived h :
  (forall r, P r (touched value isReceived h (Some r))) ->
  preserves (on_db (rows_related P))
    (Sqlite.updateAddressInfo address value isReceived h).
Proof.
  intros HP db. rewrite updateAddressInfo_run. cbn.
  intros a r Hr. cbn. destruct (decide (address = a)) as [->|Hne].
  - rewrite lookup_insert_eq, Hr. eexists. split; [reflexivity|apply HP].
  - rewrite lookup_insert_ne by exact Hne. exists r. split; [exact Hr|reflexivity].
Qed.

(** The row was first seen at the same height and has been credited
    and debited at least as often. *)
Definition row_advanced (r r' : Sqlite.AddressRow) : Prop :=
  Sqlite.a_first_seen_block r' = Sqlite.a_first_seen_block r
  /\ Sqlite.a_received_count r <= Sqlite.a_received_count r'
  /\ Sqlite.a_sent_count r <= Sqlite.a_sent_count r'.

#[local] Instance row_advanced_preorder : PreOrder row_advanced.
Proof.
  split; [intros r; unfold row_advanced; split; [reflexivity|lia]|].
  intros a b c (?&?&?) (?&?&?). unfold row_advanced.
  split; [congruence|lia].
Qed.

(** The row was never debited in between: what was sent is the same,
    and the balance and the total received are what they were unless
    the row was credited, which the count of credits shows. *)
Definition row_only_credited (r r' : Sqlite.AddressRow) : Prop :=
  Sqlite.a_sent_count r' = Sqlite.a_sent_count r
  /\ Sqlite.a_total_sent r' = Sqlite.a_total_sent r
  /\ Sqlite.a_received_count r <= Sqlite.a_received_count r'
  /\ (Sqlite.a_received_count r' = Sqlite.a_received_count r ->
      Sqlite.a_balance r' = Sqlite.a_balance r
      /\ Sqlite.a_total_received r' = Sqlite.a_total_received r).

#[local] Instance row_only_credited_preorder : PreOrder row_only_credited.
Proof.
  split; [intros r; unfold row_only_credited; repeat split; lia|].
  intros a b c (?&?&?&Hab) (?&?&?&Hbc). unfold row_only_credited.
  split; [congruence|]. split; [congruence|]. split; [lia|].
  intros Heq.
  destruct Hab as [? ?]; [lia|]. destruct Hbc as [? ?]; [lia|].
  split; congruence.
Qed.

Section AddressOnly.

(** A relation that looks at the address table only is respected by
    every statement but those of [updateAddressInfo]. *)
Context (R : Sqlite.Db -> Sqlite.Db -> Prop) `{!PreOrder R}.
Hypothesis address_only : forall db db', same_addresses db db' -> R db db'.

Lemma only_insert_block h r :
  preserves R (Sqlite.insert_or_replace_block h r).
Proof.
  eapply preserves_weaken; [exact address_only|apply addresses_insert_block].
Qed.

Lemma only_insert_transaction t r :
  preserves R (Sqlite.insert_or_replace_transaction t r).
Proof.
  eapply preserves_weaken;
    [exact address_only|apply addresses_insert_transaction].
Qed.

Lemma only_insert_input t v r :
  preserves R (Sqlite.insert_or_replace_input t v r).
Proof.
  eapply preserves_weaken; [exact address_only|apply addresses_insert_input].
Qed.

Lemma only_insert_output t v r :
  preserves R (Sqlite.insert_or_replace_output t v r).
Proof.
  eapply preserves_weaken; [exact address_only|apply addresses_insert_output].
Qed.

Lemma only_addUTXO t v r : preserves R (Sqlite.addUTXO t v r).
Proof.
  eapply preserves_weaken; [exact address_only|apply addresses_addUTXO].
Qed.

Lemma only_markOutputAsSpent a b c d :
  preserves R (Sqlite.markOutputAsSpent a b c d).
Proof.
  eapply preserves_weaken;
    [exact address_only|apply addresses_markOutputAsSpent].
Qed.

Lemma only_set_fee fee txid :
  preserves R
    (Sqlite.statement (fun _ => true)
       (Sqlite.with_transactions (alter (Sqlite.set_fee fee) txid))).
Proof.
  eapply preserves_weaken; [exact address_only|apply addresses_set_fee].
Qed.

Hypothesis R_receive :
  forall a v h, preserves R (Sqlite.updateAddressInfo a v true h).

Lemma only_bitcoin_indexBlock rpc block :
  preserves R (BitcoinIndexer.indexBlock rpc block).
Proof.
  unfold BitcoinIndexer.indexBlock, BitcoinIndexer.indexTransaction,
    BitcoinIndexer.index_input, BitcoinIndexer.index_output,
    BitcoinIndexer.update_fee.
  pose proof only_insert_block. pose proof only_insert_transaction.
  pose proof only_insert_input. pose proof only_insert_output.
  pose proof only_addUTXO. pose proof only_markOutputAsSpent.
  pose proof only_set_fee. pose proof (R_bind_integer R).
  pose proof (R_getPreviousOutput R).
  preserving.
Qed.

Hypothesis R_send :
  forall a v h, preserves R (Sqlite.updateAddressInfo a v false h).

Lemma only_simple_indexBlock rpc block :
  preserves R (SimpleIndexer.indexBlock rpc block).
Proof.
  apply simple_indexBlock_preserves; try exact _.
  - apply only_insert_transaction.
  - apply only_insert_input.
  - apply only_insert_output.
  - apply only_addUTXO.
  - apply only_markOutputAsSpent.
  - intros a v [] h; [apply R_receive|apply R_send].
  - apply only_set_fee.
  - apply only_insert_block.
Qed.

End AddressOnly.

(** X17. Address rows in the SQLite tables are never removed: through any
    run of [syncBlocks] of either indexer every address row stays,
    with the [first_seen_block] it was created with and counts that
    have not gone down. *)
Theorem sqlite_syncBlocks_keeps_address_rows rpc batchSize fuel lo hi db r db' :
  Sqlite.snapshot db = None ->
  BitcoinIndexer.syncBlocks rpc batchSize fuel lo hi db = Some (r, db')
  \/ SimpleIndexer.syncBlocks rpc batchSize fuel lo hi db = Some (r, db') ->
  rows_related row_advanced (Sqlite.tables db) (Sqlite.tables db').
Proof.
  assert (Hstep : forall a v isR h,
             preserves (on_db (rows_related row_advanced))
               (Sqlite.updateAddressInfo a v isR h)).
  { intros a v isR h. apply related_updateAddressInfo; [exact _|].
    intros row. unfold touched, row_advanced.
    destruct isR; cbn; (split; [reflexivity|lia]). }
  intros Hs [Hrun|Hrun].
  - apply (syncBlocks_T rpc (BitcoinIndexer.indexBlock rpc) batchSize
             (rows_related row_advanced) (bitcoin_indexBlock_keeps rpc)
             (only_bitcoin_indexBlock (on_db (rows_related row_advanced))
                (same_addresses_related row_advanced)
                (fun a v h => Hstep a v true h) rpc)
             fuel lo hi db r db' Hs Hrun).
  - apply (syncBlocks_T rpc (SimpleIndexer.indexBlock rpc) batchSize
             (rows_related row_advanced) (simple_indexBlock_keeps rpc)
             (only_simple_indexBlock (on_db (rows_related row_advanced))
                (same_addresses_related row_advanced)
                (fun a v h => Hstep a v true h)
                (fun a v h => Hstep a v false h) rpc)
             fuel lo hi db r db' Hs Hrun).
Qed.

Lemma sqlite_syncBlocks_keeps_address_rows_witness :
  exists db' row',
    BitcoinIndexer.syncBlocks Scenario.chain 100 1 1 1
      Scenario.sqlite_after_block1 = Some (Ok tt, db')
    /\ Sqlite.addresses (Sqlite.tables db') !! "X" = Some row'
    /\ Sqlite.a_first_seen_block row' = Some 1
    /\ 1 <= Sqlite.a_received_count row'.
Proof.
  set (db' := snd (default (Ok tt, Scenario.sqlite_after_block1)
                     (BitcoinIndexer.syncBlocks Scenario.chain 100 1 1 1
                        Scenario.sqlite_after_block1))).
  assert (Hrun : BitcoinIndexer.syncBlocks Scenario.chain 100 1 1 1
                   Scenario.sqlite_after_block1 = Some (Ok tt, db'))
    by (vm_compute; reflexivity).
  destruct (sqlite_syncBlocks_keeps_address_rows Scenario.chain 100 1 1 1
              Scenario.sqlite_after_block1 (Ok tt) db' eq_refl
              (or_introl Hrun) "X"
              (Sqlite.receive 5000000000 (Some 1)
                 (Sqlite.fresh_address (Some 1))))
    as (row' & Hrow & Hfirst & Hrc & _).
  { vm_compute. reflexivity. }
  exists db', row'. split; [exact Hrun|]. split; [exact Hrow|].
  split; [exact Hfirst|exact Hrc].
Defined.

(** X18. [BitcoinIndexer] never debits. Through any run of its
    [syncBlocks] the sent count and the total sent of every address
    row stay what they were and its count of credits does not go
    down; a row whose count of credits is what it was has the balance
    and the total received it had: spending an output of an address
    does not change its row. *)
Theorem bitcoin_syncBlocks_never_debits rpc batchSize fuel lo hi db r db' :
  Sqlite.snapshot db = None ->
  BitcoinIndexer.syncBlocks rpc batchSize fuel lo hi db = Some (r, db') ->
  rows_related row_only_credited (Sqlite.tables db) (Sqlite.tables db').
Proof.
  intros Hs Hrun.
  apply (syncBlocks_T rpc (BitcoinIndexer.indexBlock rpc) batchSize
           (rows_related row_only_credited) (bitcoin_indexBlock_keeps rpc)
           (only_bitcoin_indexBlock (on_db (rows_related row_only_credited))
              (same_addresses_related row_only_credited)
              (fun a v h =>
                 related_updateAddressInfo row_only_credited a v true h
                   ltac:(intros row; unfold touched, row_only_credited; cbn;
                         repeat split; lia)) rpc)
           fuel lo hi db r db' Hs Hrun).
Qed.

(** The block that spends the only output of X: the output row is
    marked spent, and the row of X still shows a balance of
    5,000,000,000 and nothing sent. *)
Lemma bitcoin_syncBlocks_never_debits_witness :
  exists db' row',
    BitcoinIndexer.syncBlocks Scenario.chain_overspend 100 1 2 2
      Scenario.sqlite_after_block1 = Some (Ok tt, db')
    /\ Sqlite.o_is_spent
         <$> Sqlite.transaction_outputs (Sqlite.tables db') !! ("c1", 0)
       = Some true
    /\ Sqlite.addresses (Sqlite.tables db') !! "X" = Some row'
    /\ Sqlite.a_sent_count row' = 0
    /\ Sqlite.a_total_sent row' = 0
    /\ Sqlite.a_balance row' = 5000000000
    /\ Sqlite.a_total_received row' = 5000000000.
Proof.
  set (db' := snd (default (Ok tt, Scenario.sqlite_after_block1)
                     (BitcoinIndexer.syncBlocks Scenario.chain_overspend 100 1
                        2 2 Scenario.sqlite_after_block1))).
  assert (Hrun : BitcoinIndexer.syncBlocks Scenario.chain_overspend 100 1 2 2
                   Scenario.sqlite_after_block1 = Some (Ok tt, db'))
    by (vm_compute; reflexivity).
  destruct (bitcoin_syncBlocks_never_debits Scenario.chain_overspend 100 1 2 2
              Scenario.sqlite_after_block1 (Ok tt) db' eq_refl Hrun "X"
              (Sqlite.receive 5000000000 (Some 1)
                 (Sqlite.fresh_address (Some 1))))
    as (row' & Hrow & Hcount & Hsent & _ & Hsame).
  { vm_compute. reflexivity. }
  assert (Hcredits : Sqlite.a_received_count
                       <$> Sqlite.addresses (Sqlite.tables db') !! "X" = Some 1)
    by (vm_compute; reflexivity).
  rewrite Hrow in Hcredits. injection Hcredits as Hcredits.
  destruct (Hsame Hcredits) as [Hbal Hrec].
  exists db', row'. split; [exact Hrun|].
  split; [vm_compute; reflexivity|]. split; [exact Hrow|].
  split; [exact Hcount|]. split; [exact Hsent|].
  split; [exact Hbal|exact Hrec].
Defined.

(** *** A new block from the node *)

(** X19. [handleNewBlock] is all or nothing. Called while [isSyncing]
    is false and with no transaction open: if the block goes through,
    its rows and the mark [lastIndexedBlock] are committed together;
    if the indexing or the mark fails, the ROLLBACK restores the
    tables and the call returns normally; and if the node does not
    serve the block, nothing was begun, so it is the ROLLBACK in the
    [catch] that fails and the call throws that error, with the
    connection as it was. *)
Theorem handleNewBlock_is_all_or_nothing rpc hash db :
  Sqlite.snapshot db = None ->
  match getBlock rpc hash with
  | Throw _ => BitcoinIndexer.handleNewBlock rpc hash db = (Throw DbError, db)
  | Ok block =>
      match BitcoinIndexer.indexBlock rpc block (begun db) with
      | (Ok _, db2) =>
          BitcoinIndexer.handleNewBlock rpc hash db
          = (Ok tt,
             Sqlite.open
               (Sqlite.with_indexer_state
                  (fun m => <["lastIndexedBlock" := pretty (blk_height block)]> m)
                  (Sqlite.tables db2)))
      | (Throw _, _) => BitcoinIndexer.handleNewBlock rpc hash db = (Ok tt, db)
      end
  end.
Proof.
  intros Hs.
  destruct (getBlock rpc hash) as [block|e] eqn:Hget.
  - pose proof (bitcoin_indexBlock_keeps rpc block (begun db)) as Hk.
    assert (Hstart : forall k : unit -> M Sqlite.Db unit,
               bind Sqlite.beginTransaction k db = k tt (begun db)).
    { intros k. rewrite bind_unfold. unfold Sqlite.beginTransaction.
      now rewrite Hs. }
    destruct (BitcoinIndexer.indexBlock rpc block (begun db))
      as [[[]|e] db2] eqn:Hrun;
      cbn in Hk; unfold same_snapshot in Hk;
      unfold BitcoinIndexer.handleNewBlock, try_catch;
      rewrite bind_lift, Hget, Hstart, bind_unfold, Hrun.
    + rewrite bind_unfold.
      unfold Sqlite.setIndexerState, Sqlite.statement. cbn beta iota.
      unfold Sqlite.commit. cbn. rewrite Hk. reflexivity.
    + unfold Sqlite.rollback. rewrite Hk. cbn.
      destruct db as [t sn]. cbn in Hs. now subst sn.
  - unfold BitcoinIndexer.handleNewBlock, try_catch.
    rewrite bind_lift, Hget. unfold Sqlite.rollback. now rewrite Hs.
Qed.

Lemma handleNewBlock_is_all_or_nothing_witness :
  BitcoinIndexer.handleNewBlock Scenario.chain "unknown"
    Scenario.sqlite_after_block1
  = (Throw DbError, Scenario.sqlite_after_block1)
  /\ exists db',
      BitcoinIndexer.handleNewBlock Scenario.chain_overspend "h2"
        Scenario.sqlite_after_block1 = (Ok tt, db')
      /\ Sqlite.snapshot db' = None
      /\ Sqlite.indexer_state (Sqlite.tables db') !! "lastIndexedBlock"
         = Some "2".
Proof.
  split.
  - apply (handleNewBlock_is_all_or_nothing Scenario.chain "unknown"
             Scenario.sqlite_after_block1 eq_refl).
  - pose proof (handleNewBlock_is_all_or_nothing Scenario.chain_overspend "h2"
                  Scenario.sqlite_after_block1 eq_refl) as H.
    change (getBlock Scenario.chain_overspend "h2")
      with (@Ok BitcoinBlock Scenario.block2_overspend) in H.
    cbn beta iota in H.
    destruct (BitcoinIndexer.indexBlock Scenario.chain_overspend
                Scenario.block2_overspend (begun Scenario.sqlite_after_block1))
      as [[[]|e] db2] eqn:Hrun.
    + eexists. split; [exact H|]. split; [reflexivity|].
      cbn. apply lookup_insert_eq.
    + exfalso. revert Hrun. vm_compute. discriminate.
Defined.

(** *** Coinbase outputs and the UTXO table of BitcoinIndexer *)

Definition utxos_shrink (db db' : Sqlite.Db) : Prop :=
  dom (Sqlite.utxos (Sqlite.tables db')) ⊆ dom (Sqlite.utxos (Sqlite.tables db)).

#[local] Instance utxos_shrink_preorder : PreOrder utxos_shrink.
Proof.
  split; [now intros db|].
  intros a b c Hab Hbc. unfold utxos_shrink in *. set_solver.
Qed.

Lemma shrink_statement check f :
  (forall t, dom (Sqlite.utxos (f t)) ⊆ dom (Sqlite.utxos t)) ->
  preserves utxos_shrink (Sqlite.statement check f).
Proof.
  intros Hf. apply preserves_statement; [exact _|].
  intros db. unfold utxos_shrink. cbn. apply Hf.
Qed.

Lemma shrink_markOutputAsSpent a b c d :
  preserves utxos_shrink (Sqlite.markOutputAsSpent a b c d).
Proof.
  unfold Sqlite.markOutputAsSpent.
  apply preserves_bind; [exact _|apply shrink_statement; intros t; reflexivity|].
  intros _. apply shrink_statement. intros t. cbn.
  rewrite dom_delete. now apply subseteq_difference_l.
Qed.

Lemma shrink_updateAddressInfo a v r h :
  preserves utxos_shrink (Sqlite.updateAddressInfo a v r h).
Proof.
  intros db. rewrite updateAddressInfo_run. unfold utxos_shrink. cbn.
  reflexivity.
Qed.

(** X20. A coinbase transaction with fewer than 100 confirmations adds
    nothing to the UTXO table of [BitcoinIndexer]: its outputs are
    recorded and their addresses credited, but no UTXO row is
    inserted, whether [indexTransaction] returns or throws. *)
Theorem bitcoin_immature_coinbase_adds_no_utxo tx db :
  vin0_coinbase tx = true ->
  match tx_confirmations tx with Some c => c | None => 0 end < 100 ->
  dom (Sqlite.utxos (Sqlite.tables (snd (BitcoinIndexer.indexTransaction tx db))))
  ⊆ dom (Sqlite.utxos (Sqlite.tables db)).
Proof.
  intros Hcb Hconf. revert db.
  change (preserves utxos_shrink (BitcoinIndexer.indexTransaction tx)).
  pose proof shrink_markOutputAsSpent. pose proof shrink_updateAddressInfo.
  pose proof (R_bind_integer utxos_shrink).
  pose proof (R_getPreviousOutput utxos_shrink).
  assert (forall t r, preserves utxos_shrink
                        (Sqlite.insert_or_replace_transaction t r))
    by (intros; now apply shrink_statement).
  assert (forall t v r, preserves utxos_shrink
                          (Sqlite.insert_or_replace_input t v r))
    by (intros; now apply shrink_statement).
  assert (forall t v r, preserves utxos_shrink
                          (Sqlite.insert_or_replace_output t v r))
    by (intros; now apply shrink_statement).
  assert (Hout : forall acc output,
             preserves utxos_shrink (BitcoinIndexer.index_output tx acc output)).
  { intros acc output. unfold BitcoinIndexer.index_output.
    apply preserves_bind; [exact _|auto|intros v].
    apply preserves_bind; [exact _|auto|intros _].
    apply preserves_bind; [exact _| |intros _; preserving].
    rewrite Hcb.
    replace (100 <=? match tx_confirmations tx with Some c => c | None => 0 end)
      with false by (symmetry; apply Z.leb_gt; exact Hconf).
    cbn [negb orb]. rewrite andb_false_r. preserving. }
  unfold BitcoinIndexer.indexTransaction, BitcoinIndexer.index_input,
    BitcoinIndexer.update_fee.
  preserving.
  apply shrink_statement. intros t. reflexivity.
Qed.

Lemma bitcoin_immature_coinbase_adds_no_utxo_witness :
  dom (Sqlite.utxos
         (Sqlite.tables
            (snd (BitcoinIndexer.indexTransaction
                    (Sqlite.in_block Scenario.block1 Scenario.cb1)
                    (Sqlite.open
                       (Sqlite.with_blocks
                          (fun m => <["h1" := Sqlite.block_row Scenario.block1]> m)
                          Sqlite.empty_tables))))))
  ⊆ ∅
  /\ Sqlite.a_balance
       <$> Sqlite.addresses
             (Sqlite.tables
                (snd (BitcoinIndexer.indexTransaction
                        (Sqlite.in_block Scenario.block1 Scenario.cb1)
                        (Sqlite.open
                           (Sqlite.with_blocks
                              (fun m =>
                                 <["h1" := Sqlite.block_row Scenario.block1]> m)
                              Sqlite.empty_tables))))) !! "X"
     = Some 5000000000.
Proof.
  split.
  - etransitivity;
      [apply (bitcoin_immature_coinbase_adds_no_utxo
                (Sqlite.in_block Scenario.block1 Scenario.cb1));
       [reflexivity|cbn; lia]|].
    cbn. now rewrite dom_empty.
  - vm_compute. reflexivity.
Defined.

(** *** Outputs that pay an address without a row

    The UTXO table refers to the address table, and [addUTXO] comes
    before [updateAddressInfo], the only statement that creates an
    address row. *)

Lemma addUTXO_needs_the_address txid vout row db :
  Sqlite.addresses (Sqlite.tables db) !! Sqlite.u_address row = None ->
  Sqlite.addUTXO txid vout row db = (Throw DbError, db).
Proof.
  intros Hn. unfold Sqlite.addUTXO, Sqlite.insert_or_replace_utxo,
    Sqlite.statement, Sqlite.has_key.
  rewrite Hn. now rewrite andb_false_r.
Qed.

Lemma for_acc_throws {S A B} (body : B -> A -> M S B) (P : S -> Prop)
  (bad : A -> Prop) :
  (forall acc x s, P s ->
     match body acc x s with
     | (Ok _, s') => P s' /\ ~ bad x
     | (Throw _, s') => P s'
     end) ->
  forall l acc s, P s -> (exists x, x ∈ l /\ bad x) ->
  exists e s', for_acc l acc body s = (Throw e, s') /\ P s'.
Proof.
  intros Hbody. induction l as [|x l IH]; intros acc s HP (y & Hy & Hbad).
  - inversion Hy.
  - cbn [for_acc]. rewrite bind_unfold.
    specialize (Hbody acc x s HP).
    destruct (body acc x s) as [[acc'|e] s1]; [|now exists e, s1].
    destruct Hbody as [HP1 Hgood].
    apply IH; [exact HP1|].
    apply elem_of_cons in Hy as [->|Hy]; [contradiction|]. now exists y.
Qed.

(** An output that pays [a]. *)
Definition pays (a : string) (output : BitcoinOutput) : Prop :=
  Sqlite.extractAddress output = Some a /\ a <> EmptyString.

Lemma truthy_pays a output :
  pays a output -> JS.truthy (Sqlite.extractAddress output) = true.
Proof.
  intros [-> Hne]. cbn. now destruct (String.eqb_spec a EmptyString).
Qed.

Lemma bitcoin_index_output_needs_the_address tx acc output db a :
  vin0_coinbase tx = false ->
  Sqlite.addresses (Sqlite.tables db) !! a = None ->
  match BitcoinIndexer.index_output tx acc output db with
  | (Ok _, db') =>
      Sqlite.addresses (Sqlite.tables db') !! a = None /\ ~ pays a output
  | (Throw _, db') => Sqlite.addresses (Sqlite.tables db') !! a = None
  end.
Proof.
  intros Hcb Hn. unfold BitcoinIndexer.index_output. rewrite Hcb.
  cbn [negb orb]. rewrite bind_unfold.
  pose proof (addresses_statement) as Hst.
  destruct (Sqlite.bind_integer _ db) as [[v|e] db1] eqn:Hv.
  2: { unfold Sqlite.bind_integer in Hv. destruct (JS.integer_value _);
         injection Hv as _ <-; exact Hn. }
  assert (Hdb1 : db1 = db).
  { unfold Sqlite.bind_integer in Hv. destruct (JS.integer_value _);
      now injection Hv. }
  subst db1. rewrite bind_unfold.
  match goal with
  | |- context [Sqlite.insert_or_replace_output ?t ?n ?row db] =>
      pose proof (addresses_insert_output t n row db) as Hout;
        destruct (Sqlite.insert_or_replace_output t n row db) as [[[]|e] db2]
  end.
  2: { cbn in Hout. unfold same_addresses in Hout. now rewrite Hout. }
  cbn in Hout. unfold same_addresses in Hout.
  rewrite bind_unfold.
  destruct (Sqlite.extractAddress output) as [b|] eqn:Hb.
  - destruct (JS.truthy (Some b)) eqn:Htr.
    + cbn [andb].
      destruct (decide (b = a)) as [->|Hne].
      * rewrite addUTXO_needs_the_address; [now rewrite Hout|].
        cbn. now rewrite Hout.
      * pose proof (addresses_addUTXO (tx_txid tx) (out_n output)
                      {| Sqlite.u_address := b; Sqlite.u_value := v;
                         Sqlite.u_script_pub_key :=
                           spk_hex (out_scriptPubKey output);
                         Sqlite.u_block_height :=
                           match tx_blockheight tx with
                           | Some h => h
                           | None => 0
                           end;
                         Sqlite.u_is_coinbase := false |} db2) as Hthrown.
        destruct (Sqlite.addUTXO _ _ _ db2) as [[[]|e] db3] eqn:Hadd.
        2: { cbn in Hthrown. unfold same_addresses in Hthrown.
             now rewrite Hthrown, Hout. }
        clear Hthrown.
        pose proof (addresses_addUTXO (tx_txid tx) (out_n output)
                      {| Sqlite.u_address := b; Sqlite.u_value := v;
                         Sqlite.u_script_pub_key :=
                           spk_hex (out_scriptPubKey output);
                         Sqlite.u_block_height :=
                           match tx_blockheight tx with
                           | Some h => h
                           | None => 0
                           end;
                         Sqlite.u_is_coinbase := false |} db2) as Hadd'.
        rewrite Hadd in Hadd'. cbn in Hadd'. unfold same_addresses in Hadd'.
        rewrite bind_unfold, updateAddressInfo_run. cbn.
        split.
        -- rewrite lookup_insert_ne by exact Hne. now rewrite Hadd', Hout.
        -- intros [Hp _]. congruence.
    + cbn [andb]. cbn. split; [now rewrite Hout|].
      intros [Hp Hne]. rewrite Hb in Hp. injection Hp as ->. cbn in Htr.
      now destruct (String.eqb_spec a EmptyString).
  - cbn. split; [now rewrite Hout|]. intros [Hp _]. congruence.
Qed.

(** X21. [BitcoinIndexer] cannot index a payment to an address it has no
    row for. If a transaction that is not a coinbase has an output
    paying an address without a row in the address table,
    [indexTransaction] throws and the address still has no row: when
    the rows of the transaction, of its inputs and of the outputs
    before that one are accepted, it is the insert into the UTXO
    table that is refused, before the address row would be
    created. *)
Theorem bitcoin_indexTransaction_needs_the_address tx db a output :
  vin0_coinbase tx = false ->
  output ∈ tx_vout tx -> pays a output ->
  Sqlite.addresses (Sqlite.tables db) !! a = None ->
  exists e db',
    BitcoinIndexer.indexTransaction tx db = (Throw e, db')
    /\ Sqlite.addresses (Sqlite.tables db') !! a = None.
Proof.
  intros Hcb Hin Hpays Hn. unfold BitcoinIndexer.indexTransaction.
  rewrite bind_unfold.
  pose proof (addresses_insert_transaction (tx_txid tx)
                (Sqlite.transaction_row tx) db) as Htx.
  destruct (Sqlite.insert_or_replace_transaction _ _ db) as [[[]|e] db1];
    cbn in Htx; unfold same_addresses in Htx;
    [|exists e, db1; split; [reflexivity|now rewrite Htx]].
  rewrite bind_unfold.
  assert (Hinputs : preserves same_addresses
                      (for_acc (Sqlite.enumerate_from 0 (tx_vin tx)) 0
                         (BitcoinIndexer.index_input tx))).
  { unfold BitcoinIndexer.index_input.
    pose proof addresses_insert_input. pose proof addresses_markOutputAsSpent.
    pose proof (R_getPreviousOutput same_addresses).
    preserving. }
  specialize (Hinputs db1).
  destruct (for_acc _ 0 (BitcoinIndexer.index_input tx) db1) as [[ti|e] db2];
    cbn in Hinputs; unfold same_addresses in Hinputs;
    [|exists e, db2; split; [reflexivity|now rewrite Hinputs, Htx]].
  rewrite bind_unfold.
  destruct (for_acc_throws (BitcoinIndexer.index_output tx)
              (fun d => Sqlite.addresses (Sqlite.tables d) !! a = None)
              (pays a)
              (fun acc x s Hs =>
                 bitcoin_index_output_needs_the_address tx acc x s a Hcb Hs)
              (tx_vout tx) 0 db2) as (e & db3 & Hthrow & Hnone).
  { now rewrite Hinputs, Htx. }
  { now exists output. }
  rewrite Hthrow. now exists e, db3.
Qed.

(** A transaction of the stored block h1 that spends the output of
    c1 and pays Y, which has no row: the rows of the transaction, of
    its two inputs and of its output are written, the output of c1 is
    marked spent, and the call throws at the insert into the UTXO
    table, with no row for Y. *)
Lemma bitcoin_indexTransaction_needs_the_address_witness :
  Sqlite.addresses (Sqlite.tables Scenario.sqlite_after_block1) !! "Y" = None
  /\ exists db',
      BitcoinIndexer.indexTransaction (Sqlite.in_block Scenario.block1 Cases.t3)
        Scenario.sqlite_after_block1 = (Throw DbError, db')
      /\ Sqlite.has_key (Sqlite.transactions (Sqlite.tables db')) "t3" = true
      /\ Sqlite.has_key (Sqlite.transaction_inputs (Sqlite.tables db')) ("t3", 1)
         = true
      /\ Sqlite.has_key (Sqlite.transaction_outputs (Sqlite.tables db'))
           ("t3", 0) = true
      /\ Sqlite.o_is_spent
           <$> Sqlite.transaction_outputs (Sqlite.tables db') !! ("c1", 0)
         = Some true
      /\ Sqlite.utxos (Sqlite.tables db') !! ("t3", 0) = None
      /\ Sqlite.addresses (Sqlite.tables db') !! "Y" = None.
Proof.
  split; [reflexivity|].
  destruct (bitcoin_indexTransaction_needs_the_address
              (Sqlite.in_block Scenario.block1 Cases.t3)
              Scenario.sqlite_after_block1 "Y"
              {| out_value := 99.0%float; out_n := 0;
                 out_scriptPubKey := Scenario.pay_to "Y" |})
    as (e & db' & Hrun & Hnone).
  - reflexivity.
  - left.
  - split; [reflexivity|discriminate].
  - reflexivity.
  - assert (He : fst (BitcoinIndexer.indexTransaction
                        (Sqlite.in_block Scenario.block1 Cases.t3)
                        Scenario.sqlite_after_block1) = Throw DbError)
      by (vm_compute; reflexivity).
    rewrite Hrun in He. cbn in He. injection He as ->.
    exists db'. split; [exact Hrun|].
    assert (Hdb : db' = snd (BitcoinIndexer.indexTransaction
                               (Sqlite.in_block Scenario.block1 Cases.t3)
                               Scenario.sqlite_after_block1))
      by now rewrite Hrun.
    rewrite Hdb. repeat split; vm_compute; reflexivity.
Defined.

(** *** SimpleIndexer: a block is never lost to a transaction *)

Definition same_blocks (db db' : Sqlite.Db) : Prop :=
  Sqlite.blocks (Sqlite.tables db') = Sqlite.blocks (Sqlite.tables db).

#[local] Instance same_blocks_preorder : PreOrder same_blocks.
Proof.
  split; [now intros db|].
  intros a b c Hab Hbc. unfold same_blocks in *. congruence.
Qed.

Lemma blocks_statement check f :
  (forall t, Sqlite.blocks (f t) = Sqlite.blocks t) ->
  preserves same_blocks (Sqlite.statement check f).
Proof.
  intros Hf. apply preserves_statement; [exact _|].
  intros db. unfold same_blocks. cbn. apply Hf.
Qed.

Lemma blocks_simple_indexTransaction tx :
  preserves same_blocks (SimpleIndexer.indexTransaction tx).
Proof.
  apply simple_indexTransaction_preserves; try exact _.
  - intros. now apply blocks_statement.
  - intros. now apply blocks_statement.
  - intros. now apply blocks_statement.
  - intros. now apply blocks_statement.
  - intros. unfold Sqlite.markOutputAsSpent.
    apply preserves_bind; [exact _|now apply blocks_statement|].
    intros _. now apply blocks_statement.
  - intros a v r h db. rewrite updateAddressInfo_run. reflexivity.
  - intros. now apply blocks_statement.
Qed.

Lemma fallback_row_is_accepted txid block db :
  Sqlite.has_key (Sqlite.blocks (Sqlite.tables db)) (blk_hash block) = true ->
  Sqlite.insert_or_replace_transaction txid
    (Sqlite.basic_transaction txid block) db
  = (Ok tt,
     Sqlite.on_tables
       (Sqlite.with_transactions
          (fun m => <[txid := Sqlite.basic_transaction txid block]> m)) db).
Proof.
  intros Hk. unfold Sqlite.insert_or_replace_transaction, Sqlite.statement.
  cbn. now rewrite Hk.
Qed.

(** X22. [SimpleIndexer.indexBlock] throws only when the insert of the
    block row is refused, and then nothing is written. Once the block
    row is in, every transaction of the block is gone through: one
    that cannot be fetched or indexed is replaced by a bare
    transaction row, and the call returns. *)
Theorem simple_indexBlock_fails_only_at_the_block_row rpc block db :
  match Sqlite.insert_or_replace_block (blk_hash block)
          (Sqlite.block_row block) db with
  | (Ok _, _) => exists db', SimpleIndexer.indexBlock rpc block db = (Ok tt, db')
  | (Throw e, _) => SimpleIndexer.indexBlock rpc block db = (Throw e, db)
  end.
Proof.
  unfold SimpleIndexer.indexBlock. rewrite bind_unfold.
  unfold Sqlite.insert_or_replace_block, Sqlite.statement.
  destruct (forallb _ _); [|reflexivity].
  set (db1 := Sqlite.on_tables _ db).
  assert (Hk : Sqlite.has_key (Sqlite.blocks (Sqlite.tables db1))
                 (blk_hash block) = true).
  { unfold db1, Sqlite.has_key, Sqlite.replace_block. cbn.
    now rewrite lookup_insert_eq. }
  clearbody db1. revert db1 Hk.
  induction (Sqlite.enumerate_from 0 (blk_tx block)) as [|[i txid] l IH];
    intros db1 Hk; [now exists db1|].
  cbn [for_of]. rewrite bind_unfold. unfold try_catch at 1.
  set (attempt := if (blk_height block =? 0) && (i =? 0)
                  then Sqlite.insert_or_replace_transaction txid
                         (Sqlite.basic_transaction txid block)
                  else let* transaction := lift (getTransaction rpc txid) in
                       SimpleIndexer.indexTransaction
                         (Sqlite.in_block block transaction)).
  assert (Hsame : same_blocks db1 (snd (attempt db1))).
  { unfold attempt. destruct (_ && _).
    - unfold Sqlite.insert_or_replace_transaction.
      apply blocks_statement. intros t. reflexivity.
    - apply preserves_bind; [exact _|apply preserves_lift; exact _|].
      intros tx. apply blocks_simple_indexTransaction. }
  destruct (attempt db1) as [[[]|e] db2]; cbn in Hsame;
    unfold same_blocks in Hsame.
  - apply IH. now rewrite Hsame.
  - rewrite fallback_row_is_accepted by now rewrite Hsame.
    apply IH. cbn. now rewrite Hsame.
Qed.

Lemma simple_indexBlock_fails_only_at_the_block_row_witness :
  getTransaction Lost.chain "gone" = Throw (RpcError (-5))
  /\ exists db',
      SimpleIndexer.indexBlock Lost.chain Lost.b1 (Sqlite.open Sqlite.empty_tables)
      = (Ok tt, db')
      /\ Sqlite.t_fee <$> Sqlite.transactions (Sqlite.tables db') !! "gone"
         = Some None.
Proof.
  split; [reflexivity|].
  pose proof (simple_indexBlock_fails_only_at_the_block_row Lost.chain Lost.b1
                (Sqlite.open Sqlite.empty_tables)) as H.
  cbn in H. destruct H as (db' & Hrun).
  exists db'. split; [exact Hrun|].
  revert Hrun. vm_compute. intros [= <-]. reflexivity.
Defined.

(** *** SimpleIndexer: where address rows come from *)

(** Every address row of [t] is still in [t'], advanced, and a row
    that is new in [t'] has been debited. *)
Definition born_by_debit (t t' : Sqlite.Tables) : Prop :=
  rows_related row_advanced t t'
  /\ forall a r',
      Sqlite.addresses t' !! a = Some r' ->
      is_Some (Sqlite.addresses t !! a) \/ 1 <= Sqlite.a_sent_count r'.

#[local] Instance born_by_debit_preorder : PreOrder born_by_debit.
Proof.
  split.
  - intros t. split; [reflexivity|]. intros a r Hr. left. now exists r.
  - intros t1 t2 t3 [Hk12 Hb12] [Hk23 Hb23].
    split; [etransitivity; eassumption|].
    intros a r3 Hr3.
    destruct (Hb23 a r3 Hr3) as [[r2 Hr2]|Hs]; [|now right].
    destruct (Hb12 a r2 Hr2) as [H1|Hs]; [now left|].
    destruct (Hk23 a r2 Hr2) as (r3' & Hr3' & _ & _ & Hsent).
    rewrite Hr3 in Hr3'. injection Hr3' as <-. right. lia.
Qed.

Lemma same_addresses_born db db' :
  same_addresses db db' -> on_db born_by_debit db db'.
Proof.
  intros He. split; [exact (same_addresses_related row_advanced db db' He)|].
  intros a r Hr. left. unfold same_addresses in He. rewrite He in Hr.
  now exists r.
Qed.

Lemma born_debit a v h :
  preserves (on_db born_by_debit) (Sqlite.updateAddressInfo a v false h).
Proof.
  intros db. split.
  - apply (related_updateAddressInfo row_advanced a v false h).
    intros row. unfold touched, row_advanced. cbn. split; [reflexivity|lia].
  - rewrite updateAddressInfo_run. cbn. intros b r'.
    destruct (decide (a = b)) as [->|Hne].
    + rewrite lookup_insert_eq. intros [= <-]. unfold touched.
      destruct (Sqlite.addresses (Sqlite.tables db) !! b) as [r0|];
        [left; now exists r0|right; cbn; lia].
    + rewrite lookup_insert_ne by exact Hne. intros Hr. left. now exists r'.
Qed.

(** The credit of an output, which comes after the insert of its
    UTXO row. *)
Lemma born_credit txid vout row v h :
  preserves (on_db born_by_debit)
    (let* _ := Sqlite.addUTXO txid vout row in
     Sqlite.updateAddressInfo (Sqlite.u_address row) v true h).
Proof.
  intros db. rewrite bind_unfold.
  destruct (Sqlite.addresses (Sqlite.tables db) !! Sqlite.u_address row)
    as [r0|] eqn:Hr0.
  - pose proof (addresses_addUTXO txid vout row db) as Hadd.
    destruct (Sqlite.addUTXO txid vout row db) as [[[]|e] db1];
      cbn in Hadd; unfold same_addresses in Hadd;
      [|now apply same_addresses_born].
    etransitivity; [apply same_addresses_born; exact Hadd|].
    split.
    + apply (related_updateAddressInfo row_advanced _ v true h).
      intros r. unfold touched, row_advanced. cbn. split; [reflexivity|lia].
    + rewrite updateAddressInfo_run. cbn. intros b r'.
      destruct (decide (Sqlite.u_address row = b)) as [<-|Hne].
      * intros _. left. rewrite Hadd. now exists r0.
      * rewrite lookup_insert_ne by exact Hne. intros Hr. left. now exists r'.
  - rewrite addUTXO_needs_the_address by exact Hr0. reflexivity.
Qed.

Lemma born_simple_index_output tx acc output :
  preserves (on_db born_by_debit) (SimpleIndexer.index_output tx acc output).
Proof.
  unfold SimpleIndexer.index_output.
  apply preserves_bind; [exact _|apply R_bind_integer; exact _|intros v].
  apply preserves_bind; [exact _| |intros _].
  { eapply preserves_weaken;
      [apply same_addresses_born|apply addresses_insert_output]. }
  apply preserves_bind; [exact _| |intros _; apply preserves_ret; exact _].
  destruct (Sqlite.extractAddress output) as [a|];
    [|apply preserves_ret; exact _].
  destruct (JS.truthy (Some a)); [|apply preserves_ret; exact _].
  exact (born_credit (tx_txid tx) (out_n output)
           {| Sqlite.u_address := a; Sqlite.u_value := v;
              Sqlite.u_script_pub_key := spk_hex (out_scriptPubKey output);
              Sqlite.u_block_height :=
                match tx_blockheight tx with Some h => h | None => 0 end;
              Sqlite.u_is_coinbase := vin0_coinbase tx |}
           v (tx_blockheight tx)).
Qed.

Lemma born_simple_indexBlock rpc block :
  preserves (on_db born_by_debit) (SimpleIndexer.indexBlock rpc block).
Proof.
  assert (Hw : forall A (m : M Sqlite.Db A),
             preserves same_addresses m -> preserves (on_db born_by_debit) m).
  { intros A m. apply preserves_weaken. apply same_addresses_born. }
  pose proof (fun h r => Hw _ _ (addresses_insert_block h r)).
  pose proof (fun t r => Hw _ _ (addresses_insert_transaction t r)).
  pose proof (fun t v r => Hw _ _ (addresses_insert_input t v r)).
  pose proof (fun a b c d => Hw _ _ (addresses_markOutputAsSpent a b c d)).
  pose proof (fun f t => Hw _ _ (addresses_set_fee f t)).
  pose proof (R_getPreviousOutput (on_db born_by_debit)).
  pose proof born_debit. pose proof born_simple_index_output.
  unfold SimpleIndexer.indexBlock, SimpleIndexer.indexTransaction,
    SimpleIndexer.index_input, SimpleIndexer.update_fee.
  preserving.
Qed.

(** X23. [SimpleIndexer] creates an address row only when it debits.
    Through any run of its [syncBlocks], an address row that was not
    there before has been debited at least once: an output paying an
    address without a row makes the insert of its UTXO row fail, so
    the address is never credited first. *)
Theorem simple_syncBlocks_creates_addresses_by_debit
  rpc batchSize fuel lo hi db r db' :
  Sqlite.snapshot db = None ->
  SimpleIndexer.syncBlocks rpc batchSize fuel lo hi db = Some (r, db') ->
  forall a row',
    Sqlite.addresses (Sqlite.tables db') !! a = Some row' ->
    is_Some (Sqlite.addresses (Sqlite.tables db) !! a)
    \/ 1 <= Sqlite.a_sent_count row'.
Proof.
  intros Hs Hrun.
  apply (syncBlocks_T rpc (SimpleIndexer.indexBlock rpc) batchSize
           born_by_debit (simple_indexBlock_keeps rpc)
           (born_simple_indexBlock rpc) fuel lo hi db r db' Hs Hrun).
Qed.

(** From empty tables, the block whose coinbase pays 50 coins to X is
    committed with its transaction as a bare row; no address row and
    no UTXO row exist afterwards. *)
Lemma simple_syncBlocks_creates_addresses_by_debit_witness :
  exists db',
    SimpleIndexer.syncBlocks Scenario.chain 100 1 1 1
      (Sqlite.open Sqlite.empty_tables) = Some (Ok tt, db')
    /\ Sqlite.addresses (Sqlite.tables db') !! "X" = None
    /\ Sqlite.utxos (Sqlite.tables db') !! ("c1", 0) = None
    /\ Sqlite.has_key (Sqlite.transactions (Sqlite.tables db')) "c1" = true.
Proof.
  set (db' := snd (default (Ok tt, Sqlite.open Sqlite.empty_tables)
                     (SimpleIndexer.syncBlocks Scenario.chain 100 1 1 1
                        (Sqlite.open Sqlite.empty_tables)))).
  assert (Hrun : SimpleIndexer.syncBlocks Scenario.chain 100 1 1 1
                   (Sqlite.open Sqlite.empty_tables) = Some (Ok tt, db'))
    by (vm_compute; reflexivity).
  exists db'. split; [exact Hrun|]. split; [|split; vm_compute; reflexivity].
  destruct (Sqlite.addresses (Sqlite.tables db') !! "X") as [row'|] eqn:Hrow;
    [|reflexivity].
  exfalso.
  destruct (simple_syncBlocks_creates_addresses_by_debit Scenario.chain 100 1
              1 1 (Sqlite.open Sqlite.empty_tables) (Ok tt) db' eq_refl Hrun
              "X" row' Hrow) as [[r0 Hr0]|Hsent].
  - cbn in Hr0. rewrite lookup_empty in Hr0. discriminate.
  - revert Hrow. vm_compute. discriminate.
Defined.

(** ** Start-up of BitcoinIndexer (services/indexer.ts) *)

Module BitcoinStartup.
Import Sqlite.

Section PerformInitialSync.

Variable rpc : Rpc.
Variable batchSize : Z.

(** [await this.rpc.getBlockCount()] *)
Variable getBlockCount : result Z.

(** [result ? parseInt(result.value) : -1] *)
Definition getLastIndexedBlock : M Db JSInt.t :=
  gets (fun db =>
          match indexer_state (tables db) !! "lastIndexedBlock" with
          | Some value => JSInt.parseInt value
          | None => JSInt.Int (-1)
          end).

(** [performInitialSync], entered with the flag [isSyncing] as
    given; the [finally] clears the flag. [lastIndexedBlock <
    currentBlockHeight] is false for a mark that reads as NaN or
    +Infinity. Heights are Numbers: the model gives no result for a
    mark or a chain height of magnitude 2^52 or more, or a mark that
    reads as -Infinity. *)
Definition performInitialSync (isSyncing : bool) (fuel : nat) (db : Db)
  : option (result unit * Db) :=
  if isSyncing then Some (Ok tt, db)
  else
    match getLastIndexedBlock db with
    | (Throw e, db1) => Some (Throw e, db1)
    | (Ok lastIndexedBlock, db1) =>
        match getBlockCount with
        | Throw e => Some (Throw e, db1)
        | Ok currentBlockHeight =>
            let mark :=
              setIndexerState "lastIndexedBlock" (pretty currentBlockHeight) in
            if negb (Startup.safe currentBlockHeight) then None
            else
              match lastIndexedBlock with
              | JSInt.NaN | JSInt.Inf false => Some (mark db1)
              | JSInt.Inf true => None
              | JSInt.Int last =>
                  if negb (Startup.safe last) then None
                  else if last <? currentBlockHeight then
                    match BitcoinIndexer.syncBlocks rpc batchSize fuel
                            (last + 1) currentBlockHeight db1 with
                    | None => None
                    | Some (Ok _, db2) => Some (mark db2)
                    | Some (Throw e, db2) => Some (Throw e, db2)
                    end
                  else Some (mark db1)
              end
        end
    end.

End PerformInitialSync.

End BitcoinStartup.

Definition same_indexer_state (t t' : Sqlite.Tables) : Prop :=
  Sqlite.indexer_state t' = Sqlite.indexer_state t.

#[local] Instance same_indexer_state_preorder : PreOrder same_indexer_state.
Proof.
  split; [now intros t|].
  intros a b c Hab Hbc. unfold same_indexer_state in *. congruence.
Qed.

Lemma state_statement check f :
  (forall t, Sqlite.indexer_state (f t) = Sqlite.indexer_state t) ->
  preserves (on_db same_indexer_state) (Sqlite.statement check f).
Proof.
  intros Hf. apply preserves_statement; [exact _|].
  intros db. unfold on_db, same_indexer_state. cbn. apply Hf.
Qed.

Lemma state_bitcoin_indexBlock rpc block :
  preserves (on_db same_indexer_state) (BitcoinIndexer.indexBlock rpc block).
Proof.
  apply bitcoin_indexBlock_preserves; try exact _.
  - intros. now apply state_statement.
  - intros. now apply state_statement.
  - intros. now apply state_statement.
  - intros. now apply state_statement.
  - intros. unfold Sqlite.markOutputAsSpent.
    apply preserves_bind; [exact _|now apply state_statement|].
    intros _. now apply state_statement.
  - intros a v r h db. rewrite updateAddressInfo_run. reflexivity.
  - intros. now apply state_statement.
  - intros. now apply state_statement.
Qed.

(** X24. The mark of [BitcoinIndexer] at start-up. When
    [performInitialSync] returns, [lastIndexedBlock] reads as the
    height of the chain. When the stored mark does not read as a
    number, or is not below the height of the chain, no block is
    indexed and yet the mark is set to the height of the chain; so
    the mark can go down, and an unreadable mark makes every block
    count as indexed. When the sync throws, the mark is left as it
    was. *)
Theorem performInitialSync_sets_the_mark rpc batchSize current fuel db :
  Sqlite.snapshot db = None ->
  let marked (d : Sqlite.Db) :=
    Sqlite.on_tables
      (Sqlite.with_indexer_state
         (fun m => <["lastIndexedBlock" := pretty current]> m)) d in
  (forall db',
      BitcoinStartup.performInitialSync rpc batchSize (Ok current) false fuel db
      = Some (Ok tt, db') ->
      BitcoinStartup.getLastIndexedBlock db' = (Ok (JSInt.Int current), db'))
  /\ (Startup.safe current = true ->
      (fst (BitcoinStartup.getLastIndexedBlock db) = Ok JSInt.NaN
       \/ exists last,
           fst (BitcoinStartup.getLastIndexedBlock db) = Ok (JSInt.Int last)
           /\ Startup.safe last = true /\ current <= last) ->
      BitcoinStartup.performInitialSync rpc batchSize (Ok current) false fuel db
      = Some (Ok tt, marked db))
  /\ (forall e db',
        BitcoinStartup.performInitialSync rpc batchSize (Ok current) false
          fuel db = Some (Throw e, db') ->
        Sqlite.indexer_state (Sqlite.tables db')
        = Sqlite.indexer_state (Sqlite.tables db)).
Proof.
  intros Hs marked.
  assert (Hread : forall d,
             Startup.safe current = true ->
             BitcoinStartup.getLastIndexedBlock (marked d)
             = (Ok (JSInt.Int current), marked d)).
  { intros d Hc. unfold BitcoinStartup.getLastIndexedBlock, gets. cbn.
    rewrite lookup_insert_eq, parseInt_pretty; [reflexivity|].
    unfold Startup.safe in Hc. apply Z.ltb_lt in Hc.
    assert (2 ^ 52 < 2 ^ 53) by (apply Z.pow_lt_mono_r; lia). lia. }
  assert (Hmark : forall d,
             Sqlite.setIndexerState "lastIndexedBlock" (pretty current) d
             = (Ok tt, marked d)) by reflexivity.
  unfold BitcoinStartup.performInitialSync. cbn [negb].
  set (read := match Sqlite.indexer_state (Sqlite.tables db)
                       !! "lastIndexedBlock" with
               | Some v => JSInt.parseInt v
               | None => JSInt.Int (-1)
               end).
  assert (Hget : BitcoinStartup.getLastIndexedBlock db = (Ok read, db))
    by reflexivity.
  rewrite !Hget. cbn [fst].
  split; [|split].
  - intros db'. destruct (Startup.safe current) eqn:Hc; [|discriminate].
    cbn [negb].
    destruct read as [|last|[]].
    + rewrite Hmark. intros [= <-]. now apply Hread.
    + destruct (Startup.safe last); [|discriminate]. cbn [negb].
      destruct (last <? current).
      * destruct (BitcoinIndexer.syncBlocks _ _ _ _ _ _) as [[[[]|e] db2]|];
          try discriminate.
        rewrite Hmark. intros [= <-]. now apply Hread.
      * rewrite Hmark. intros [= <-]. now apply Hread.
    + discriminate.
    + rewrite Hmark. intros [= <-]. now apply Hread.
  - intros Hc Hcase. rewrite Hc. cbn [negb].
    destruct Hcase as [Hnan|(last & Hl & Hsafe & Hle)].
    + injection Hnan as ->. now rewrite Hmark.
    + injection Hl as ->. rewrite Hsafe. cbn [negb].
      replace (last <? current) with false by (symmetry; apply Z.ltb_ge; lia).
      now rewrite Hmark.
  - intros e db'. destruct (Startup.safe current); [|discriminate].
    cbn [negb].
    destruct read as [|last|[]]; try (rewrite Hmark; discriminate);
      try discriminate.
    destruct (Startup.safe last); [|discriminate]. cbn [negb].
    destruct (last <? current); [|rewrite Hmark; discriminate].
    destruct (BitcoinIndexer.syncBlocks _ _ _ _ _ _) as [[[[]|e'] db2]|] eqn:Hrun;
      try discriminate.
    intros [= <- <-].
    apply (syncBlocks_T rpc (BitcoinIndexer.indexBlock rpc) batchSize
             same_indexer_state (bitcoin_indexBlock_keeps rpc)
             (state_bitcoin_indexBlock rpc) fuel (last + 1) current db
             (Throw e') db2 Hs Hrun).
Qed.

(** A store whose mark does not read as a number, on a chain of
    height 2: start-up indexes no block and sets the mark to 2. *)
Lemma performInitialSync_sets_the_mark_witness :
  let db :=
    Sqlite.open
      (Sqlite.with_indexer_state (fun m => <["lastIndexedBlock" := "n/a"]> m)
         Sqlite.empty_tables) in
  exists db',
    BitcoinStartup.performInitialSync Scenario.chain 100 (Ok 2) false 5 db
    = Some (Ok tt, db')
    /\ BitcoinStartup.getLastIndexedBlock db' = (Ok (JSInt.Int 2), db')
    /\ Sqlite.blocks (Sqlite.tables db') = ∅.
Proof.
  cbn zeta.
  destruct (performInitialSync_sets_the_mark Scenario.chain 100 2 5
              (Sqlite.open
                 (Sqlite.with_indexer_state
                    (fun m => <["lastIndexedBlock" := "n/a"]> m)
                    Sqlite.empty_tables)) eq_refl) as (Hread & Hskip & _).
  eexists. split; [apply Hskip; [reflexivity|left; reflexivity]|].
  split; [|reflexivity].
  apply Hread. apply Hskip; [reflexivity|left; reflexivity].
Defined.

(** A node that serves heights 11 and 12 only. *)
Module Gap.

Definition b11 : BitcoinBlock := Scenario.mk_block "h11" 11 (Some "h10") [].
Definition b12 : BitcoinBlock := Scenario.mk_block "h12" 12 (Some "h11") [].
Definition chain : Rpc := Scenario.node [b11; b12] [].
Definition env : TypeORM.Env := Scenario.env_of chain Scenario.never.

End Gap.

(** With only the genesis block on the chain and no mark, the
    start-up sync leaves the empty store empty. *)
Lemma performBasicSync_ends_without_throwing_witness :
  Startup.performBasicSync (Scenario.env_of Scenario.chain Scenario.never)
    (Ok 0) 5 TypeORM.empty_store
  = Some (Ok tt, TypeORM.empty_store)
  /\ exists s',
      Startup.performBasicSync Gap.env (Ok 12) 5 TypeORM.empty_store
      = Some (Ok tt, s').
Proof.
  assert (Hsafe : forall c v, @Ok Z v = Ok c -> Startup.safe v = true ->
                              Startup.safe c = true).
  { intros c v [= <-] H. exact H. }
  assert (Hmark : forall z,
             fst (Service.getLastProcessedHeight TypeORM.empty_store)
             = Ok (JSInt.Int z) -> Startup.safe z = true).
  { intros z [= <-]. reflexivity. }
  split.
  - apply (proj2 (performBasicSync_ends_without_throwing
                    (Scenario.env_of Scenario.chain Scenario.never) (Ok 0) 5
                    TypeORM.empty_store (le_n 5)
                    (fun c H => Hsafe c 0 H eq_refl) Hmark) 0 (-1));
      [reflexivity|reflexivity|right; lia].
  - apply (proj1 (performBasicSync_ends_without_throwing Gap.env (Ok 12) 5
                    TypeORM.empty_store (le_n 5)
                    (fun c H => Hsafe c 12 H eq_refl) Hmark)).
Defined.

(** The node serves heights 11 and 12 but none of 1..10. The first
    batch fails and is skipped, the second goes through, and the mark
    stands at 12 with blocks 11 and 12 stored: the next start-up
    begins at 13. *)
Lemma performBasicSync_moves_the_mark_witness :
  exists s',
    Startup.performBasicSync Gap.env (Ok 12) 5 TypeORM.empty_store
    = Some (Ok tt, s')
    /\ Service.getLastProcessedHeight s' = (Ok (JSInt.Int 12), s')
    /\ TypeORM.block_height <$> TypeORM.blocks s' = [11; 12].
Proof.
  destruct (proj2 (performBasicSync_moves_the_mark Gap.env 12 (-1) 5
                     TypeORM.empty_store (le_n 5) eq_refl eq_refl eq_refl
                     ltac:(cbn; lia)))
    as (s' & Hrun & Hmark).
  { intros h Hh. change (11 <= h <= 12) in Hh.
    assert (h = 11 \/ h = 12) as [->| ->] by lia.
    - exists Gap.b11. repeat split; try reflexivity; discriminate.
    - exists Gap.b12. repeat split; try reflexivity; discriminate. }
  exists s'. split; [exact Hrun|]. split; [exact Hmark|].
  revert Hrun. vm_compute. intros [= <-]. reflexivity.
Defined.

(** ** The sync route of the TypeORM API server (api/typeorm-server.ts)

    [POST /sync/:fromHeight/:toHeight]. The model gives no result
    when a parameter reads as an infinity or as an integer of
    magnitude 2^52 or more. *)

Module Api.

Inductive response : Type :=
| SyncDone (message : string) (fromHeight toHeight blocksProcessed : Z)
| BadRequest (error : string)
| ServerError (error : string).

Definition postSync (env : TypeORM.Env) (fromParam toParam : string)
  (s : TypeORM.Store) : option (response * TypeORM.Store) :=
  match JSInt.parseInt fromParam, JSInt.parseInt toParam with
  | JSInt.NaN, _ | _, JSInt.NaN =>
      Some (BadRequest "Invalid height parameters", s)
  | JSInt.Int fromHeight, JSInt.Int toHeight =>
      if Startup.safe fromHeight && Startup.safe toHeight then
        if 100 <? toHeight - fromHeight then
          Some (BadRequest "Range too large, maximum 100 blocks per request", s)
        else
          match TypeORM.syncBlocks env fromHeight toHeight s with
          | (Ok _, s') =>
              Some (SyncDone
                      ("Successfully synced blocks " +:+ pretty fromHeight
                       +:+ " to " +:+ pretty toHeight)
                      fromHeight toHeight (toHeight - fromHeight + 1),
                    s')
          | (Throw _, s') => Some (ServerError "Internal server error", s')
          end
      else None
  | _, _ => None
  end.

End Api.

Lemma safe_parseInt_pretty z :
  Startup.safe z = true -> JSInt.parseInt (pretty z) = JSInt.Int z.
Proof.
  intros Hz. apply parseInt_pretty. unfold Startup.safe in Hz.
  apply Z.ltb_lt in Hz.
  assert (2 ^ 52 < 2 ^ 53) by (apply Z.pow_lt_mono_r; lia). lia.
Qed.

(** X25. The sync route, called with two heights written in decimal. A
    range is refused only when toHeight - fromHeight exceeds 100, so
    101 heights are accepted in one request; a range that runs
    backwards is answered with success, a count of zero or less and
    an untouched store; and when the node serves every height of an
    accepted range and the storage engine accepts the rows of those
    blocks (and those of the genesis descriptor, should the range hold
    height 0), the answer is success with toHeight - fromHeight + 1 as
    the count, whether or not those blocks were already stored, and
    the progress mark at toHeight. *)
Theorem postSync_accepts_101_heights env fromHeight toHeight s :
  Startup.safe fromHeight = true -> Startup.safe toHeight = true ->
  let answer := Api.postSync env (pretty fromHeight) (pretty toHeight) s in
  let done (s' : TypeORM.Store) :=
    Some (Api.SyncDone
            ("Successfully synced blocks " +:+ pretty fromHeight
             +:+ " to " +:+ pretty toHeight)
            fromHeight toHeight (toHeight - fromHeight + 1), s') in
  (100 < toHeight - fromHeight ->
   answer
   = Some (Api.BadRequest "Range too large, maximum 100 blocks per request", s))
  /\ (toHeight < fromHeight -> answer = done s)
  /\ (fromHeight <= toHeight <= fromHeight + 100 ->
      (forall h, fromHeight <= h <= toHeight -> served env h) ->
      exists s',
        answer = done s'
        /\ Service.getLastProcessedHeight s' = (Ok (JSInt.Int toHeight), s')).
Proof.
  intros Hf Ht. cbn zeta. unfold Api.postSync.
  rewrite !safe_parseInt_pretty by assumption. rewrite Hf, Ht. cbn [andb].
  split; [|split].
  - intros Hbig.
    now replace (100 <? toHeight - fromHeight) with true
      by (symmetry; apply Z.ltb_lt; lia).
  - intros Hback.
    replace (100 <? toHeight - fromHeight) with false
      by (symmetry; apply Z.ltb_ge; lia).
    now rewrite syncBlocks_empty_range by lia.
  - intros Hrange Hserved.
    replace (100 <? toHeight - fromHeight) with false
      by (symmetry; apply Z.ltb_ge; lia).
    destruct (syncBlocks_served_returns env fromHeight toHeight
                s Hserved) as (s' & Hrun).
    rewrite Hrun. exists s'. split; [reflexivity|].
    apply (syncBlocks_mark_after env fromHeight toHeight s s' Hrun
                    ltac:(unfold Startup.safe in Ht; apply Z.ltb_lt in Ht;
                          assert (2 ^ 52 < 2 ^ 53)
                            by (apply Z.pow_lt_mono_r; lia); lia)).
    lia.
Qed.

Lemma postSync_accepts_101_heights_witness :
  Api.postSync Cases.env3 "3" "1" TypeORM.empty_store
  = Some (Api.SyncDone "Successfully synced blocks 3 to 1" 3 1 (-1),
          TypeORM.empty_store)
  /\ Api.postSync Cases.env3 "0" "101" TypeORM.empty_store
     = Some (Api.BadRequest "Range too large, maximum 100 blocks per request",
             TypeORM.empty_store)
  /\ exists s',
      Api.postSync Cases.env3 "1" "3" TypeORM.empty_store
      = Some (Api.SyncDone "Successfully synced blocks 1 to 3" 1 3 3, s')
      /\ Service.getLastProcessedHeight s' = (Ok (JSInt.Int 3), s').
Proof.
  split; [|split].
  - apply (proj1 (proj2 (postSync_accepts_101_heights Cases.env3 3 1
                           TypeORM.empty_store eq_refl eq_refl))).
    lia.
  - apply (proj1 (postSync_accepts_101_heights Cases.env3 0 101
                    TypeORM.empty_store eq_refl eq_refl)).
    lia.
  - apply (proj2 (proj2 (postSync_accepts_101_heights Cases.env3 1 3
                           TypeORM.empty_store eq_refl eq_refl))); [lia|].
    intros h Hh. assert (h = 1 \/ h = 2 \/ h = 3) as [->|[->| ->]] by lia.
    + exists Cases.b1. repeat split; try reflexivity; discriminate.
    + exists Cases.b2. repeat split; try reflexivity; discriminate.
    + exists Cases.b3. repeat split; try reflexivity; discriminate.
Defined.

(** ** Spent outputs stay in storage *)

(** No key of the table of outputs is lost. *)
Definition outputs_kept (t t' : Sqlite.Tables) : Prop :=
  dom (Sqlite.transaction_outputs t) ⊆ dom (Sqlite.transaction_outputs t').

#[local] Instance outputs_kept_preorder : PreOrder outputs_kept.
Proof.
  split; [now intros t|].
  intros a b c Hab Hbc. unfold outputs_kept in *. set_solver.
Qed.










(** ** The block announcements of ZmqService (services/zmq.ts)

    A [Buffer] is a list of bytes. [Buffer.allocUnsafe(n)] gives a
    buffer of length [n] whose contents are whatever the memory
    held: it is a parameter of the model, known only by the length
    of its result. A write to a buffer at an index out of range does
    nothing, and a read there gives [undefined], as [<[_:=_]>] and
    [!!] do on lists. *)

Module Zmq.
Import Stdlib.Strings.Ascii.

Section ReverseBuffer.

Variable allocUnsafe : nat -> list Byte.byte.

(** The [for] loop of [reverseBuffer] from index [i] on, with
    [turns] indices left below [buffer.length]. *)
Fixpoint reverse_loop (buffer : list Byte.byte) (turns i : nat) (reversed : list Byte.byte) : list Byte.byte :=
  match turns with
  | O => reversed
  | S turns' =>
      let reversed' :=
        match buffer !! (length buffer - 1 - i)%nat with
        | Some byte => <[i := byte]> reversed
        | None => reversed
        end in
      reverse_loop buffer turns' (S i) reversed'
  end.

Definition reverseBuffer (buffer : list Byte.byte) : list Byte.byte :=
  reverse_loop buffer (length buffer) 0 (allocUnsafe (length buffer)).

(** [buffer.subarray(start, end)] for 0 <= start <= end; both ends
    are clamped to the length. *)
Definition subarray (first last : nat) (buffer : list Byte.byte) : list Byte.byte :=
  take (last - first) (drop first buffer).

Definition hex_digit (d : N) : Ascii.ascii :=
  match d with
  | 0 => "0" | 1 => "1" | 2 => "2" | 3 => "3" | 4 => "4" | 5 => "5"
  | 6 => "6" | 7 => "7" | 8 => "8" | 9 => "9" | 10 => "a" | 11 => "b"
  | 12 => "c" | 13 => "d" | 14 => "e" | _ => "f"
  end%N%char.

(** [buffer.toString('hex')] *)
Fixpoint toString_hex (buffer : list Byte.byte) : string :=
  match buffer with
  | [] => EmptyString
  | byte :: rest =>
      let n := Stdlib.Strings.Byte.to_N byte in
      String (hex_digit (n / 16)) (String (hex_digit (n mod 16))
                                     (toString_hex rest))
  end.

(** The hash that [listenForBlocks] announces for a [rawblock]
    message. *)
Definition rawblock_hash (message : list Byte.byte) : string :=
  toString_hex (reverseBuffer (subarray 4 36 message)).

End ReverseBuffer.

End Zmq.

Lemma reverse_loop_spec (buffer : list Byte.byte) :
  forall turns i reversed,
    length reversed = length buffer ->
    (i + turns = length buffer)%nat ->
    (forall j, (j < i)%nat ->
               reversed !! j = buffer !! (length buffer - 1 - j)%nat) ->
    length (Zmq.reverse_loop buffer turns i reversed) = length buffer
    /\ forall j, (j < length buffer)%nat ->
                 Zmq.reverse_loop buffer turns i reversed !! j
                 = buffer !! (length buffer - 1 - j)%nat.
Proof.
  induction turns as [|turns IH]; intros i reversed Hlen Hi Hdone.
  - cbn. split; [exact Hlen|]. intros j Hj. apply Hdone. lia.
  - cbn [Zmq.reverse_loop].
    destruct (lookup_lt_is_Some_2 buffer (length buffer - 1 - i)%nat)
      as [byte Hbyte]; [lia|].
    rewrite Hbyte. apply IH.
    + now rewrite length_insert.
    + lia.
    + intros j Hj. destruct (decide (j = i)) as [->|Hne].
      * rewrite list_lookup_insert_eq by lia. now rewrite Hbyte.
      * rewrite list_lookup_insert_ne by congruence. apply Hdone. lia.
Qed.

Lemma reverseBuffer_is_reverse allocUnsafe (buffer : list Byte.byte) :
  (forall n, length (allocUnsafe n) = n) ->
  Zmq.reverseBuffer allocUnsafe buffer = reverse buffer.
Proof.
  intros Halloc. unfold Zmq.reverseBuffer.
  destruct (reverse_loop_spec buffer (length buffer) 0
              (allocUnsafe (length buffer))) as [Hlen Hget];
    [apply Halloc|lia|intros j Hj; lia|].
  apply list_eq_same_length with (length buffer);
    [now rewrite length_reverse|exact Hlen|].
  intros j x y Hj Hx Hy.
  rewrite Hget in Hx by exact Hj.
  rewrite reverse_lookup in Hy by exact Hj.
  replace (length buffer - S j)%nat with (length buffer - 1 - j)%nat in Hy
    by lia.
  congruence.
Qed.

(** X26. [reverseBuffer] returns the bytes of its argument in reverse
    order and nothing else: every byte of the buffer it obtains from
    [Buffer.allocUnsafe] is overwritten, so no uninitialised memory
    reaches the result, whatever that memory held; and reversing
    twice gives the buffer back. *)
Theorem reverseBuffer_reverses allocUnsafe (buffer : list Byte.byte) :
  (forall n, length (allocUnsafe n) = n) ->
  Zmq.reverseBuffer allocUnsafe buffer = reverse buffer
  /\ Zmq.reverseBuffer allocUnsafe (Zmq.reverseBuffer allocUnsafe buffer)
     = buffer.
Proof.
  intros Halloc. rewrite !reverseBuffer_is_reverse by exact Halloc.
  split; [reflexivity|apply reverse_involutive].
Qed.

Lemma reverseBuffer_reverses_witness :
  let allocUnsafe := fun n => replicate n Byte.x2a in
  let buffer := [Byte.x01; Byte.x02; Byte.x03] in
  (forall n, length (allocUnsafe n) = n)
  /\ Zmq.reverseBuffer allocUnsafe buffer = [Byte.x03; Byte.x02; Byte.x01]
  /\ Zmq.reverseBuffer allocUnsafe (Zmq.reverseBuffer allocUnsafe buffer)
     = buffer.
Proof.
  cbn zeta. split; [intros n; apply length_replicate|].
  apply (reverseBuffer_reverses (fun n => replicate n Byte.x2a)
           [Byte.x01; Byte.x02; Byte.x03]).
  intros n. apply length_replicate.
Defined.

Lemma toString_hex_length (buffer : list Byte.byte) :
  String.length (Zmq.toString_hex buffer) = (2 * length buffer)%nat.
Proof.
  induction buffer as [|byte rest IH]; [reflexivity|].
  cbn [Zmq.toString_hex String.length length]. rewrite IH. lia.
Qed.

(** X27. The hash announced for a [rawblock] message is read from the
    message, not computed: it is the hexadecimal form of bytes 4 to
    35 in reverse order, 64 characters, whatever the first four bytes
    and the bytes from 36 on are. Two messages that agree on those 32
    bytes are announced under the same hash. *)
Theorem rawblock_hash_reads_bytes_4_to_35
  allocUnsafe (version field rest : list Byte.byte) :
  (forall n, length (allocUnsafe n) = n) ->
  length version = 4%nat -> length field = 32%nat ->
  Zmq.rawblock_hash allocUnsafe (version ++ field ++ rest)
  = Zmq.toString_hex (reverse field)
  /\ String.length (Zmq.rawblock_hash allocUnsafe (version ++ field ++ rest))
     = 64%nat.
Proof.
  intros Halloc Hv Hf.
  assert (Hsub : Zmq.subarray 4 36 (version ++ field ++ rest) = field).
  { unfold Zmq.subarray. rewrite drop_app_length' by (symmetry; exact Hv).
    now rewrite take_app_length' by (symmetry; exact Hf). }
  unfold Zmq.rawblock_hash. rewrite Hsub.
  rewrite reverseBuffer_is_reverse by exact Halloc.
  split; [reflexivity|].
  rewrite toString_hex_length, length_reverse, Hf. reflexivity.
Qed.

Lemma rawblock_hash_reads_bytes_4_to_35_witness :
  let allocUnsafe := fun n => replicate n Byte.x2a in
  let version := [Byte.x00; Byte.x00; Byte.x00; Byte.x20] in
  let field := replicate 31 Byte.x00 ++ [Byte.xab] in
  Zmq.rawblock_hash allocUnsafe (version ++ field ++ [Byte.x01; Byte.x02])
  = "ab00000000000000000000000000000000000000000000000000000000000000"
  /\ Zmq.rawblock_hash allocUnsafe (version ++ field ++ [Byte.x07])
     = "ab00000000000000000000000000000000000000000000000000000000000000".
Proof.
  cbn zeta. split.
  - apply (proj1 (rawblock_hash_reads_bytes_4_to_35
                    (fun n => replicate n Byte.x2a)
                    [Byte.x00; Byte.x00; Byte.x00; Byte.x20]
                    (replicate 31 Byte.x00 ++ [Byte.xab])
                    [Byte.x01; Byte.x02]
                    (fun n => length_replicate n _) eq_refl eq_refl)).
  - apply (proj1 (rawblock_hash_reads_bytes_4_to_35
                    (fun n => replicate n Byte.x2a)
                    [Byte.x00; Byte.x00; Byte.x00; Byte.x20]
                    (replicate 31 Byte.x00 ++ [Byte.xab])
                    [Byte.x07]
                    (fun n => length_replicate n _) eq_refl eq_refl)).
Defined.
